(** * whatsapp-exif-tool: the metadata reconciliation pipeline of [main.py]

    A shallow embedding of [src/main.py] and the properties of its
    specification, settled against the embedding.

    - A Python [str] is a list of Unicode code points ([N]); [bytes] is a
      list of [Byte.byte].
    - A path is the list of the components of its normalised absolute form
      (what [os.path.abspath] names); [os.path.join] with a relative path
      is concatenation.
    - The file system is a tree of nodes.  It has regular files, directories
      and entries that are neither and on which [open] fails at once (Unix
      sockets).  Entries on which a call can block (FIFOs, some device
      files), permissions and symbolic links are not modelled: every
      theorem is about a file system without them, and about calls that
      return or raise.
    - Effects are explicit: a computation takes the file system and returns
      a result (a value or a raised exception), the file system it leaves
      and the events it emitted (logger and spinner calls, and the file
      system operations that change something).
    - The image codec (PIL), the metadata codec (piexif), the exiftool
      process, the locale's encoding and the interpreter's Unicode tables
      are collaborators outside the repository: they are fields of the
      class [Platform]. *)

From Stdlib Require Import String Ascii Strings.Byte.
From Stdlib Require Import List NArith ZArith Bool Arith Lia.
Import ListNotations.

Set Implicit Arguments.
Set Warnings "-register-all".

(* ================================================================== *)
(** * Part I: the embedding                                            *)
(* ================================================================== *)

(** ** Strings, bytes and paths *)

Definition str := list N.
Definition bytes := list byte.
Definition path := list str.

(** [u "abc"] is the Python literal ['abc'] *)
Fixpoint u (s : string) : str :=
  match s with
  | EmptyString => []
  | String a s' => N_of_ascii a :: u s'
  end.

Definition str_eqb (a b : str) : bool :=
  if list_eq_dec N.eq_dec a b then true else false.

Definition path_eqb (a b : path) : bool :=
  if list_eq_dec (list_eq_dec N.eq_dec) a b then true else false.

(** [x in l] for a list of strings *)
Definition str_in (x : str) (l : list str) : bool := existsb (str_eqb x) l.

(** ** The file system *)

(** [Special] is an entry that is neither a regular file nor a directory
    and that cannot be opened: a Unix socket ([open] raises [OSError]) *)
Inductive node : Type :=
| RegFile (content : bytes)
| Special
| Dir (entries : list (str * node)).

(** induction on a file system tree *)
Fixpoint node_rect' (Q : node -> Prop)
    (Hf : forall c, Q (RegFile c)) (Hs : Q Special)
    (Hd : forall es, Forall (fun kn => Q (snd kn)) es -> Q (Dir es))
    (t : node) : Q t :=
  match t with
  | RegFile c => Hf c
  | Special => Hs
  | Dir es =>
      Hd es
        ((fix go (l : list (str * node)) : Forall (fun kn => Q (snd kn)) l :=
            match l with
            | [] => Forall_nil _
            | kn :: l' =>
                Forall_cons kn (node_rect' Q Hf Hs Hd (snd kn)) (go l')
            end) es)
  end.

Fixpoint assoc (k : str) (es : list (str * node)) : option node :=
  match es with
  | [] => None
  | (k', n) :: es' => if str_eqb k k' then Some n else assoc k es'
  end.

Fixpoint remove_key (k : str) (es : list (str * node)) : list (str * node) :=
  match es with
  | [] => []
  | (k', n) :: es' =>
      if str_eqb k k' then remove_key k es' else (k', n) :: remove_key k es'
  end.

(** bind [k] to [n]: in place when [k] is bound, at the end otherwise *)
Fixpoint put_entry (k : str) (n : node) (es : list (str * node))
  : list (str * node) :=
  match es with
  | [] => [(k, n)]
  | (k', n') :: es' =>
      if str_eqb k k' then (k, n) :: es' else (k', n') :: put_entry k n es'
  end.

Fixpoint lookup (t : node) (p : path) : option node :=
  match p with
  | [] => Some t
  | k :: p' =>
      match t with
      | Dir es => match assoc k es with
                  | Some n => lookup n p'
                  | None => None
                  end
      | _ => None
      end
  end.

(** change the entries of the directory that holds [p] with [f]; nothing
    happens unless the parent of [p] is a directory *)
Fixpoint update (f : str -> list (str * node) -> list (str * node))
    (p : path) (t : node) : node :=
  match p with
  | [] => t
  | k :: p' =>
      match t with
      | Dir es =>
          match p' with
          | [] => Dir (f k es)
          | _ :: _ =>
              match assoc k es with
              | Some n => Dir (put_entry k (update f p' n) es)
              | None => t
              end
          end
      | _ => t
      end
  end.

Definition write_at (p : path) (n : node) : node -> node :=
  update (fun k => put_entry k n) p.

Definition remove_at : path -> node -> node := update remove_key.

Definition parent (p : path) : path := removelast p.

(** ** Exceptions, events and computations *)

Inductive exn : Type :=
| FileNotFoundError (p : path)
| NotADirectoryError (p : path)
| IsADirectoryError (p : path)
| FileExistsError (p : path)
| OSError (p : path)
| UnicodeEncodeError (s : str)
| UnicodeDecodeError (b : bytes)
| CalledProcessError (stderr : str)
| ExternalError (msg : str).

Inductive result (A : Type) : Type :=
| Return (a : A)
| Raise (e : exn).
Arguments Return {A} a.
Arguments Raise {A} e.

(** one argument of the exiftool command line *)
Inductive arg : Type :=
| Word (s : str)
| Assign (tag value : str)
| Target (p : path).

Inductive event : Type :=
(* logger *)
| DebugFoundExifDate (value : str)
| DebugParsedDate (d : str)
| DebugExifDataCreated (d : str)
| DebugAlreadyExists (filename : str)
| DebugImageSaved (p : path)
| DebugVideoSaved (p : path)
| ErrorExiftoolFailed (stderr : str)
| WarningVerificationFailed (p : path)
(* spinner *)
| SpinnerStart
| SpinnerText (filename : str)
| InfoHasExifDate (filename : str)
| WarnNoDate (filename : str)
| FailNoExiftool (filename : str)
| Succeed (filename parsed_date : str)
| InfoErrorOccurred (e : exn)
| SucceedRunComplete
(* what changes the file system *)
| FsMakedirs (p : path)
| FsRemove (p : path)
| FsWrite (p : path)
| RunTool (cmd : list arg).

Record run (A : Type) : Type := Run {
  res : result A;
  fs_after : node;
  trace : list event
}.

Definition M (A : Type) : Type := node -> run A.

Definition ret {A} (a : A) : M A := fun fs => Run (Return a) fs [].

Definition raise {A} (e : exn) : M A := fun fs => Run (Raise e) fs [].

Definition bind {A B} (m : M A) (k : A -> M B) : M B :=
  fun fs =>
    let r := m fs in
    match res r with
    | Return a =>
        let r' := k a (fs_after r) in
        Run (res r') (fs_after r') (trace r ++ trace r')
    | Raise e => Run (Raise e) (fs_after r) (trace r)
    end.

Definition emit (e : event) : M unit := fun fs => Run (Return tt) fs [e].

Definition get_fs : M node := fun fs => Run (Return fs) fs [].

Definition set_fs (fs' : node) : M unit := fun _ => Run (Return tt) fs' [].

(** [try: m except Exception as e: h e] *)
Definition try_except {A} (m : M A) (h : exn -> M A) : M A :=
  fun fs =>
    let r := m fs in
    match res r with
    | Return a => r
    | Raise e =>
        let r' := h e (fs_after r) in
        Run (res r') (fs_after r') (trace r ++ trace r')
    end.

(** a collaborator's answer, lifted *)
Definition lift {A} (r : result A) : M A :=
  match r with
  | Return a => ret a
  | Raise e => raise e
  end.

Declare Scope py_scope.
Delimit Scope py_scope with py.
Notation "x <- m ;; k" := (bind m (fun x => k))
  (at level 61, m at next level, right associativity) : py_scope.
Notation "m ;; k" := (bind m (fun _ => k))
  (at level 61, right associativity) : py_scope.

Local Open Scope py_scope.

(** ** Collaborators outside the repository *)

(** a value of the Exif IFD as piexif gives it: a byte string, or
    something else (an integer, a rational, a tuple) *)
Inductive exif_value : Type :=
| ExifBytes (b : bytes)
| ExifOther.

Definition ifd := list (N * exif_value).

(** [Image.save]: the bytes written, or an exception and what it left at
    the path *)
Inductive save_result : Type :=
| SaveOk (content : bytes)
| SaveFails (e : exn) (partial : option bytes).

(** the exiftool process on the target file: it ran to its end, with its
    exit status (negative for a signal) and what it wrote to stdout and
    stderr, or it could not be run ([Popen] raised); each with the content
    it left at the target *)
Inductive completed : Type :=
| Exited (returncode : Z) (stdout stderr : bytes) (content : bytes)
| NotRun (e : exn) (content : bytes).

(** [subprocess.run(cmd, check=True, capture_output=True, text=True)]: it
    returns, it raises [CalledProcessError] (which carries the decoded
    stderr), or it raises another exception; each with the content the
    tool left *)
Inductive tool_result : Type :=
| ToolOk (content : bytes)
| ToolExit (stderr : str) (content : bytes)
| ToolError (e : exn) (content : bytes).

Class Platform : Type := {
  (** [\d] and [str.lower] on code points from 128 on (the interpreter's
      Unicode database) *)
  unicode_decimal : N -> bool;
  unicode_lower : N -> str;
  (** PIL *)
  image : Type;
  Image_open : bytes -> result image;
  image_info_exif : image -> option bytes;
  Image_save : image -> bytes -> save_result;
  (** piexif: [piexif.load(b).get('Exif')] and [piexif.dump({'Exif': d})] *)
  piexif_load_Exif : bytes -> result ifd;
  piexif_dump_Exif : ifd -> result bytes;
  (** [shutil.which('exiftool') is not None] and the tool itself *)
  which_exiftool : bool;
  (** the tool on a command line and the content of its target ([None]
      when the target is not a regular file) *)
  exiftool_process : list arg -> option bytes -> completed;
  (** [bytes.decode] with the locale's encoding, strict: [None] is
      [UnicodeDecodeError] *)
  locale_decode : bytes -> option str
}.

(** ** The interpreter: text *)

Section Text.
Context {P : Platform}.

(** the class [\d] of [re] on [str] patterns: Unicode category Nd *)
Definition is_digit (c : N) : bool :=
  if (c <? 128)%N then ((48 <=? c)%N && (c <=? 57)%N) else unicode_decimal c.

Definition lower_char (c : N) : str :=
  if (c <? 128)%N
  then [if ((65 <=? c)%N && (c <=? 90)%N) then (c + 32)%N else c]
  else unicode_lower c.

Definition str_lower (s : str) : str := flat_map lower_char s.

(** a pattern without alternatives or repetition of variable length: a
    sequence of atoms, each matching one character *)
Inductive atom : Type :=
| Digit
| Lit (c : N).

Definition regex := list atom.

Definition lit (s : string) : regex := map Lit (u s).

Definition atom_matches (a : atom) (c : N) : bool :=
  match a with
  | Digit => is_digit c
  | Lit d => (c =? d)%N
  end.

(** the text matched at the head of [s], if the pattern matches there *)
Fixpoint match_here (r : regex) (s : str) : option str :=
  match r with
  | [] => Some []
  | a :: r' =>
      match s with
      | [] => None
      | c :: s' =>
          if atom_matches a c
          then match match_here r' s' with
               | Some m => Some (c :: m)
               | None => None
               end
          else None
      end
  end.

Record match_object : Type := Match { m_start : nat; m_text : str }.

(** [re.search]: the leftmost position where the pattern matches *)
Fixpoint re_search (r : regex) (s : str) : option match_object :=
  match match_here r s with
  | Some m => Some (Match 0 m)
  | None =>
      match s with
      | [] => None
      | _ :: s' =>
          match re_search r s' with
          | Some mo => Some (Match (S (m_start mo)) (m_text mo))
          | None => None
          end
      end
  end.

(** a group of the match: [len] characters from offset [off] *)
Definition group (mo : match_object) (off len : nat) : str :=
  firstn len (skipn off (m_text mo)).

End Text.

(** ** The interpreter: UTF-8 *)

Definition byte_in (lo hi : N) (b : byte) : bool :=
  ((lo <=? Byte.to_N b)%N && (Byte.to_N b <=? hi)%N).

Definition cont (b : byte) : N := (Byte.to_N b - 128)%N.

(** [bytes.decode('utf-8')], strict: [None] is [UnicodeDecodeError] *)
Fixpoint utf8_decode (bs : bytes) : option str :=
  match bs with
  | [] => Some []
  | b0 :: r0 =>
      if byte_in 0 127 b0 then
        option_map (cons (Byte.to_N b0)) (utf8_decode r0)
      else
        match r0 with
        | [] => None
        | b1 :: r1 =>
            if byte_in 194 223 b0 then
              if byte_in 128 191 b1 then
                option_map (cons ((Byte.to_N b0 - 192) * 64 + cont b1)%N)
                           (utf8_decode r1)
              else None
            else
              match r1 with
              | [] => None
              | b2 :: r2 =>
                  if byte_in 224 239 b0 then
                    if byte_in (if byte_in 224 224 b0 then 160 else 128)
                               (if byte_in 237 237 b0 then 159 else 191) b1
                       && byte_in 128 191 b2
                    then
                      option_map
                        (cons ((Byte.to_N b0 - 224) * 4096 + cont b1 * 64
                               + cont b2)%N)
                        (utf8_decode r2)
                    else None
                  else
                    match r2 with
                    | [] => None
                    | b3 :: r3 =>
                        if byte_in 240 244 b0
                           && byte_in (if byte_in 240 240 b0 then 144 else 128)
                                      (if byte_in 244 244 b0 then 143 else 191)
                                      b1
                           && byte_in 128 191 b2 && byte_in 128 191 b3
                        then
                          option_map
                            (cons ((Byte.to_N b0 - 240) * 262144
                                   + cont b1 * 4096 + cont b2 * 64 + cont b3)%N)
                            (utf8_decode r3)
                        else None
                    end
              end
        end
  end.

Definition byte_of (n : N) : byte :=
  match Byte.of_N n with
  | Some b => b
  | None => x00
  end.

(** one code point in UTF-8; [None] for a surrogate or beyond U+10FFFF *)
Definition utf8_encode_char (c : N) : option bytes :=
  if (c <? 128)%N then Some [byte_of c]
  else if (c <? 2048)%N then
    Some [byte_of (192 + c / 64); byte_of (128 + c mod 64)]
  else if (c <? 65536)%N then
    if ((55296 <=? c)%N && (c <=? 57343)%N) then None
    else Some [byte_of (224 + c / 4096); byte_of (128 + (c / 64) mod 64);
               byte_of (128 + c mod 64)]
  else if (c <? 1114112)%N then
    Some [byte_of (240 + c / 262144); byte_of (128 + (c / 4096) mod 64);
          byte_of (128 + (c / 64) mod 64); byte_of (128 + c mod 64)]
  else None.

(** [str.encode('utf-8')]: [None] is [UnicodeEncodeError] *)
Fixpoint utf8_encode (s : str) : option bytes :=
  match s with
  | [] => Some []
  | c :: s' =>
      match utf8_encode_char c, utf8_encode s' with
      | Some b, Some bs => Some (b ++ bs)
      | _, _ => None
      end
  end.

(** ** The interpreter: os, os.path, shutil, subprocess *)

Definition curdir : str := u ".".
Definition pardir : str := u "..".

Definition os_path_join (a b : path) : path := a ++ b.

Definition os_path_basename (p : path) : str := last p [].

Fixpoint commonprefix (a b : path) : path :=
  match a, b with
  | x :: a', y :: b' => if str_eqb x y then x :: commonprefix a' b' else []
  | _, _ => []
  end.

(** [posixpath.relpath] on normalised absolute paths *)
Definition os_path_relpath (p start : path) : path :=
  let i := length (commonprefix start p) in
  match repeat pardir (length start - i) ++ skipn i p with
  | [] => [curdir]
  | rel_list => rel_list
  end.

(** [s.rfind(c)] *)
Fixpoint rfind (c : N) (s : str) : option nat :=
  match s with
  | [] => None
  | x :: s' =>
      match rfind c s' with
      | Some i => Some (S i)
      | None => if (x =? c)%N then Some 0 else None
      end
  end.

(** [os.path.splitext] on a name without separator: the extension starts
    at the last dot, unless only dots come before it *)
Definition os_path_splitext (p : str) : str * str :=
  match rfind 46 p with
  | Some dotIndex =>
      if existsb (fun c => negb (c =? 46)%N) (firstn dotIndex p)
      then (firstn dotIndex p, skipn dotIndex p)
      else (p, [])
  | None => (p, [])
  end.

Definition exists_in (fs : node) (p : path) : bool :=
  match lookup fs p with
  | Some _ => true
  | None => false
  end.

Definition isfile_in (fs : node) (p : path) : bool :=
  match lookup fs p with
  | Some (RegFile _) => true
  | _ => false
  end.

Definition is_dir (n : node) : bool :=
  match n with
  | Dir _ => true
  | _ => false
  end.

Definition os_path_exists (p : path) : M bool :=
  fs <- get_fs ;; ret (exists_in fs p).

Definition os_listdir (p : path) : M (list str) :=
  fs <- get_fs ;;
  match lookup fs p with
  | Some (Dir es) => ret (map fst es)
  | Some _ => raise (NotADirectoryError p)
  | None => raise (FileNotFoundError p)
  end.

(** the triples of [os.walk(top)] below a node: top-down, errors ignored,
    so that what is not a directory yields nothing *)
Fixpoint walk (top : path) (t : node) : list (path * list str * list str) :=
  match t with
  | Dir es =>
      (top,
       map fst (filter (fun kn => is_dir (snd kn)) es),
       map fst (filter (fun kn => negb (is_dir (snd kn))) es))
      :: flat_map (fun kn => walk (top ++ [fst kn]) (snd kn)) es
  | _ => []
  end.

Definition os_walk (top : path) : M (list (path * list str * list str)) :=
  fs <- get_fs ;;
  match lookup fs top with
  | Some n => ret (walk top n)
  | None => ret []
  end.

(** [open(p, 'rb').read()] *)
Definition open_rb (p : path) : M bytes :=
  fs <- get_fs ;;
  match lookup fs p with
  | Some (RegFile c) => ret c
  | Some (Dir _) => raise (IsADirectoryError p)
  | Some Special => raise (OSError p)
  | None => raise (FileNotFoundError p)
  end.

(** create or truncate the regular file [p] and write [c] *)
Definition write_file (p : path) (c : bytes) : M unit :=
  fs <- get_fs ;;
  match lookup fs (parent p) with
  | Some (Dir _) =>
      match lookup fs p with
      | Some (Dir _) => raise (IsADirectoryError p)
      | Some Special => raise (OSError p)
      | _ => set_fs (write_at p (RegFile c) fs) ;; emit (FsWrite p)
      end
  | Some _ => raise (NotADirectoryError p)
  | None => raise (FileNotFoundError p)
  end.

Definition os_remove (p : path) : M unit :=
  fs <- get_fs ;;
  match lookup fs p with
  | Some (Dir _) => raise (IsADirectoryError p)
  | Some _ => set_fs (remove_at p fs) ;; emit (FsRemove p)
  | None => raise (FileNotFoundError p)
  end.

(** [os.makedirs(full, exist_ok=True)], [p] being what is left of [full]
    below [t]; when a component cannot be made because what should hold it
    is no directory, [os.mkdir] raises for that component *)
Fixpoint mkdirs (full p : path) (t : node) : result node :=
  match t with
  | Dir es =>
      match p with
      | [] => Return t
      | k :: p' =>
          match mkdirs full p'
                  (match assoc k es with Some n => n | None => Dir [] end) with
          | Return n' => Return (Dir (put_entry k n' es))
          | Raise e => Raise e
          end
      end
  | _ =>
      match p with
      | [] => Raise (FileExistsError full)
      | _ :: _ =>
          Raise (NotADirectoryError
                   (firstn (S (length full - length p)) full))
      end
  end.

Definition os_makedirs (p : path) : M unit :=
  fs <- get_fs ;;
  fs' <- lift (mkdirs p p fs) ;;
  set_fs fs' ;; emit (FsMakedirs p).

Definition shutil_copy2 (src dst : path) : M unit :=
  c <- open_rb src ;; write_file dst c.

Section Collaborators.
Context {P : Platform}.

(** [Image.open(p)] *)
Definition Image_open_path (p : path) : M image :=
  c <- open_rb p ;; lift (Image_open c).

(** [img.save(p, exif=exif)] *)
Definition Image_save_path (img : image) (p : path) (exif : bytes) : M unit :=
  match Image_save img exif with
  | SaveOk c => write_file p c
  | SaveFails e partial =>
      match partial with
      | Some c => write_file p c
      | None => ret tt
      end ;;
      raise e
  end.

(** the universal newlines of text mode: [\r\n] and [\r] become [\n] *)
Fixpoint translate_newlines (s : str) : str :=
  match s with
  | [] => []
  | c :: s' =>
      if (c =? 13)%N then
        match s' with
        | d :: s'' =>
            if (d =? 10)%N then 10%N :: translate_newlines s''
            else 10%N :: translate_newlines s'
        | [] => [10%N]
        end
      else c :: translate_newlines s'
  end.

(** what [subprocess.run(cmd, check=True, capture_output=True, text=True)]
    makes of the process: the captured stdout and stderr are decoded
    first, and only then the exit status is checked *)
Definition exiftool (cmd : list arg) (seen : option bytes) : tool_result :=
  match exiftool_process cmd seen with
  | Exited returncode stdout stderr content =>
      match locale_decode stdout with
      | None => ToolError (UnicodeDecodeError stdout) content
      | Some _ =>
          match locale_decode stderr with
          | None => ToolError (UnicodeDecodeError stderr) content
          | Some text =>
              if (returncode =? 0)%Z then ToolOk content
              else ToolExit (translate_newlines text) content
          end
      end
  | NotRun e content => ToolError e content
  end.

(** [subprocess.run(cmd, check=True, capture_output=True, text=True)] for
    the exiftool command line [cmd] whose target is [p] *)
Definition subprocess_run (cmd : list arg) (p : path) : M unit :=
  emit (RunTool cmd) ;;
  fs <- get_fs ;;
  let seen := match lookup fs p with
              | Some (RegFile c) => Some c
              | _ => None
              end in
  let leave c' := match seen with
                  | Some _ => write_file p c'
                  | None => ret tt
                  end in
  match exiftool cmd seen with
  | ToolOk c' => leave c'
  | ToolExit stderr c' => leave c' ;; raise (CalledProcessError stderr)
  | ToolError e c' => leave c' ;; raise e
  end.

End Collaborators.

(** ** main.py *)

Section Main.
Context {P : Platform}.

(** [REGEX_FILENAME_DATE]: groups year (offset 0, 4 characters), month
    (offset 4, 2 characters) and day (offset 6, 2 characters) *)
Definition REGEX_FILENAME_DATE : regex :=
  repeat Digit 4 ++ repeat Digit 2 ++ repeat Digit 2.

(** [r'at (\d{2})\.(\d{2})\.(\d{2})']: groups at offsets 3, 6 and 9 *)
Definition REGEX_FILENAME_TIME : regex :=
  lit "at " ++ repeat Digit 2 ++ lit "." ++ repeat Digit 2 ++ lit "."
  ++ repeat Digit 2.

(** [exif_date_pattern] of [check_exif] *)
Definition exif_date_pattern : regex :=
  repeat Digit 4 ++ lit ":" ++ repeat Digit 2 ++ lit ":" ++ repeat Digit 2
  ++ lit " " ++ repeat Digit 2 ++ lit ":" ++ repeat Digit 2 ++ lit ":"
  ++ repeat Digit 2.

Definition FILES_EXT : list str := [u "jpeg"; u "jpg"; u "mp4"].
Definition VIDEO_EXT : list str := [u "mp4"].
Definition IMAGE_EXT : list str := [u "jpeg"; u "jpg"].

(** [piexif.ExifIFD.DateTimeOriginal] and [DateTimeDigitized] *)
Definition DateTimeOriginal : N := 36867.
Definition DateTimeDigitized : N := 36868.

(** the dataclass [File]; [new_file_path] is [None] for [''], and
    [relative_dir] is [[]] for [''] *)
Record File : Type := mkFile {
  filename : str;
  file_path : path;
  new_file_path : option path;
  extension : str;
  parsed_date : str;
  exif_bytes : bytes;
  relative_dir : path
}.

Definition set_parsed_date (file : File) (d : str) : File :=
  mkFile (filename file) (file_path file) (new_file_path file)
         (extension file) d (exif_bytes file) (relative_dir file).

Definition set_exif_bytes (file : File) (b : bytes) : File :=
  mkFile (filename file) (file_path file) (new_file_path file)
         (extension file) (parsed_date file) b (relative_dir file).

Definition set_new_file_path (file : File) (p : path) : File :=
  mkFile (filename file) (file_path file) (Some p)
         (extension file) (parsed_date file) (exif_bytes file)
         (relative_dir file).

Record Args : Type := mkArgs {
  input_path : path;
  output_path : path;
  recursive : bool;
  overwrite : bool
}.

(** the body of the loop of [get_files_from_path] for one pair *)
Definition candidate (top : path) (output : option path)
    (pair : path * path) : list File :=
  let (file_path, root_dir) := pair in
  let filename := os_path_basename file_path in
  let extension := str_lower (skipn 1 (snd (os_path_splitext filename))) in
  if str_in extension FILES_EXT then
    let relative_dir := os_path_relpath root_dir top in
    let relative_dir :=
      if path_eqb relative_dir [curdir] then [] else relative_dir in
    let new_file_path :=
      match output with
      | Some out =>
          Some (os_path_join (os_path_join out relative_dir) [filename])
      | None => None
      end in
    [mkFile filename file_path new_file_path extension [] [] relative_dir]
  else [].

Definition get_files_from_path (top : path) (recursive : bool)
    (output : option path) : M (list File) :=
  file_paths <-
    (if recursive then
       triples <- os_walk top ;;
       ret (flat_map
              (fun t : path * list str * list str =>
                 let '(root, _, files_in_dir) := t in
                 map (fun file => (os_path_join root [file], root))
                     files_in_dir)
              triples)
     else
       names <- os_listdir top ;;
       fs <- get_fs ;;
       ret (map (fun file => (os_path_join top [file], top))
                (filter (fun file => isfile_in fs (os_path_join top [file]))
                        names))) ;;
  ret (flat_map (candidate top output) file_paths).

Definition export_exif_data (file : File) : M (option ifd) :=
  f <- open_rb (file_path file) ;;
  im <- lift (Image_open f) ;;
  match image_info_exif im with
  | Some (b :: bs) =>
      data <- lift (piexif_load_Exif (b :: bs)) ;;
      ret (Some data)
  | _ => ret None
  end.

(** the loop of [check_exif] over [data.items()] *)
Fixpoint scan_items (items : ifd) : M bool :=
  match items with
  | [] => ret false
  | (tag_id, value) :: rest =>
      match value with
      | ExifBytes b =>
          match utf8_decode b with
          | Some decoded_value =>
              match re_search exif_date_pattern decoded_value with
              | Some _ =>
                  emit (DebugFoundExifDate decoded_value) ;; ret true
              | None => scan_items rest
              end
          | None => scan_items rest
          end
      | ExifOther => scan_items rest
      end
  end.

Definition check_exif (file : File) : M bool :=
  data <- export_exif_data file ;;
  match data with
  | Some (item :: items) => scan_items (item :: items)
  | _ => ret false
  end.

Definition parse_filename_to_date (file : File) : M File :=
  let date_match := re_search REGEX_FILENAME_DATE (filename file) in
  let time_match := re_search REGEX_FILENAME_TIME (filename file) in
  match date_match with
  | Some dm =>
      let date_str :=
        group dm 0 4 ++ u ":" ++ group dm 4 2 ++ u ":" ++ group dm 6 2 in
      let time_str :=
        match time_match with
        | Some tm =>
            group tm 3 2 ++ u ":" ++ group tm 6 2 ++ u ":" ++ group tm 9 2
        | None => u "00:00:00"
        end in
      let file := set_parsed_date file (date_str ++ u " " ++ time_str) in
      emit (DebugParsedDate (parsed_date file)) ;;
      ret file
  | None => ret file
  end.

Definition new_image_exif_data (file : File) : M (File * bytes) :=
  let date_time := parsed_date file in
  encoded <- match utf8_encode date_time with
             | Some b => ret b
             | None => raise (UnicodeEncodeError date_time)
             end ;;
  let exif_dict := [(DateTimeOriginal, ExifBytes encoded);
                    (DateTimeDigitized, ExifBytes encoded)] in
  emit (DebugExifDataCreated date_time) ;;
  exif_bytes <- lift (piexif_dump_Exif exif_dict) ;;
  ret (set_exif_bytes file exif_bytes, exif_bytes).

Definition check_exiftool : bool := which_exiftool.

Definition target_dir_of (file : File) (output_path : path) : path :=
  match relative_dir file with
  | [] => output_path
  | _ :: _ => os_path_join output_path (relative_dir file)
  end.

Definition exiftool_cmd (file : File) (new_file_path : path) : list arg :=
  [Word (u "exiftool");
   Word (u "-overwrite_original");
   Assign (u "CreateDate") (parsed_date file);
   Assign (u "ModifyDate") (parsed_date file);
   Assign (u "MediaCreateDate") (parsed_date file);
   Assign (u "MediaModifyDate") (parsed_date file);
   Target new_file_path].

(** [save_video_exif_data] from [shutil.copy2] on: what follows the
    collision check *)
Definition write_video (file : File) (new_file_path : path)
  : M (option File) :=
  shutil_copy2 (file_path file) new_file_path ;;
  let cmd := exiftool_cmd file new_file_path in
  try_except
    (subprocess_run cmd new_file_path ;;
     let file := set_new_file_path file new_file_path in
     emit (DebugVideoSaved new_file_path) ;;
     ret (Some file))
    (fun e =>
       match e with
       | CalledProcessError stderr =>
           emit (ErrorExiftoolFailed stderr) ;;
           os_remove new_file_path ;;
           ret None
       | _ => raise e
       end).

Definition save_video_exif_data (file : File) (output_path : path)
    (overwrite : bool) : M (option File) :=
  let target_dir := target_dir_of file output_path in
  os_makedirs target_dir ;;
  let new_file_path := os_path_join target_dir [filename file] in
  found <- os_path_exists new_file_path ;;
  if found then
    if negb overwrite then
      emit (DebugAlreadyExists (filename file)) ;; ret None
    else
      os_remove new_file_path ;; write_video file new_file_path
  else write_video file new_file_path.

(** the verification of [save_exif_data]: the presence check on the file
    at the new path, a warning if it finds no date, and the file returned
    all the same *)
Definition verify_image (file : File) (new_file_path : path)
  : M (option File) :=
  let saved_file :=
    mkFile (filename file) new_file_path (Some new_file_path)
           (extension file) [] [] [] in
  verified <- check_exif saved_file ;;
  (if negb verified
   then emit (WarningVerificationFailed new_file_path)
   else ret tt) ;;
  ret (Some file).

(** [save_exif_data] from [img.save] on: what follows the collision check
    ([img.close()] has no effect here) *)
Definition write_image (file : File) (img : image) (new_file_path : path)
  : M (option File) :=
  Image_save_path img new_file_path (exif_bytes file) ;;
  let file := set_new_file_path file new_file_path in
  emit (DebugImageSaved new_file_path) ;;
  verify_image file new_file_path.

Definition save_exif_data (file : File) (img : image) (output_path : path)
    (overwrite : bool) : M (option File) :=
  let target_dir := target_dir_of file output_path in
  os_makedirs target_dir ;;
  let new_file_path := os_path_join target_dir [filename file] in
  found <- os_path_exists new_file_path ;;
  if found then
    if negb overwrite then
      emit (DebugAlreadyExists (filename file)) ;; ret None
    else
      os_remove new_file_path ;; write_image file img new_file_path
  else write_image file img new_file_path.

(** the end of [process_file]: the success line when a save function
    returned the file *)
Definition report (file : File) (result : option File) : M unit :=
  match result with
  | Some _ => emit (Succeed (filename file) (parsed_date file))
  | None => ret tt
  end.

Definition process_file (file : File) (args : Args) : M unit :=
  let is_video := str_in (extension file) VIDEO_EXT in
  has_date <- (if negb is_video then check_exif file else ret false) ;;
  if has_date then emit (InfoHasExifDate (filename file))
  else
    file <- parse_filename_to_date file ;;
    match parsed_date file with
    | [] => emit (WarnNoDate (filename file))
    | _ :: _ =>
        if is_video then
          if negb check_exiftool then emit (FailNoExiftool (filename file))
          else
            result <- save_video_exif_data file (output_path args)
                        (overwrite args) ;;
            report file result
        else
          im <- Image_open_path (file_path file) ;;
          fe <- new_image_exif_data file ;;
          let file := fst fe in
          result <- save_exif_data file im (output_path args)
                      (overwrite args) ;;
          report file result
    end.

(** the body of the loop of [main] for one file ([files_list] holds [File]
    objects, never strings) *)
Definition attempt (file : File) (args : Args) : M unit :=
  emit (SpinnerText (filename file)) ;;
  try_except (process_file file args)
             (fun e => emit (InfoErrorOccurred e)).

(** the [for file in files_list] loop of [main] *)
Fixpoint for_files (files_list : list File) (args : Args) : M unit :=
  match files_list with
  | [] => ret tt
  | file :: rest => attempt file args ;; for_files rest args
  end.

Definition main (args : Args) : M unit :=
  emit SpinnerStart ;;
  files_list <- get_files_from_path (input_path args) (recursive args) None ;;
  for_files files_list args ;;
  emit SucceedRunComplete.

End Main.

(** ** The words of the specification *)

Section Words.
Context {P : Platform}.

(** [m] is matched by [r], character by character *)
Definition matches (r : regex) (m : str) : Prop :=
  Forall2 (fun a c => atom_matches a c = true) r m.

(** [n] digits *)
Definition digits (n : nat) (s : str) : Prop :=
  length s = n /\ Forall (fun c => is_digit c = true) s.

(** [m] occurs in [s] right after the prefix [pre] *)
Definition occurs (s pre m : str) : Prop :=
  exists post, s = pre ++ m ++ post.

(** four digits, two digits, two digits *)
Definition date_pattern (m : str) : Prop :=
  exists y mo d,
    m = y ++ mo ++ d /\ digits 4 y /\ digits 2 mo /\ digits 2 d.

(** the literal token [at ], two digits, a period, two digits, a period,
    two digits *)
Definition time_pattern (m : str) : Prop :=
  exists h mi se,
    m = u "at " ++ h ++ u "." ++ mi ++ u "." ++ se
    /\ digits 2 h /\ digits 2 mi /\ digits 2 se.

(** four digits, colon, two digits, colon, two digits, space, two digits,
    colon, two digits, colon, two digits *)
Definition exif_date_shape (m : str) : Prop :=
  exists y mo d h mi se,
    m = y ++ u ":" ++ mo ++ u ":" ++ d ++ u " " ++ h ++ u ":" ++ mi
        ++ u ":" ++ se
    /\ digits 4 y /\ digits 2 mo /\ digits 2 d
    /\ digits 2 h /\ digits 2 mi /\ digits 2 se.

(** the first occurrence of a pattern in [s] is [m], right after [pre] *)
Definition first_occurrence (pattern : str -> Prop) (s pre m : str) : Prop :=
  occurs s pre m /\ pattern m /\
  forall pre' m', occurs s pre' m' -> pattern m' -> length pre <= length pre'.

Definition no_occurrence (pattern : str -> Prop) (s : str) : Prop :=
  forall pre m, occurs s pre m -> ~ pattern m.

Definition some_occurrence (pattern : str -> Prop) (s : str) : Prop :=
  exists pre m, occurs s pre m /\ pattern m.

(** a scanned field value matches the capture-date pattern: it is a byte
    string, it decodes, and the pattern occurs in the text *)
Definition field_has_date (v : exif_value) : Prop :=
  exists b decoded,
    v = ExifBytes b /\ utf8_decode b = Some decoded
    /\ some_occurrence exif_date_shape decoded.

(** [r] is a run of consecutive digits of [s], right after [pre]: digits
    that no digit precedes or follows *)
Definition digit_run (s pre r : str) : Prop :=
  exists post,
    s = pre ++ r ++ post
    /\ r <> [] /\ Forall (fun c => is_digit c = true) r
    /\ (forall pre' c, pre = pre' ++ [c] -> is_digit c = false)
    /\ (forall c post', post = c :: post' -> is_digit c = false).

(** the leftmost of the runs whose length satisfies [long] *)
Definition leftmost_run (long : nat -> Prop) (s pre r : str) : Prop :=
  digit_run s pre r /\ long (length r) /\
  forall pre' r',
    digit_run s pre' r' -> long (length r') -> length pre <= length pre'.

(** the date made of the leftmost eight digits of a run: the first four as
    year, the next two as month, the next two as day *)
Definition date_of_run (r : str) : str :=
  firstn 4 r ++ u ":" ++ firstn 2 (skipn 4 r) ++ u ":"
  ++ firstn 2 (skipn 6 r).

(** the capture timestamp [d] has the date [date] *)
Definition has_date (d date : str) : Prop :=
  exists time, d = date ++ u " " ++ time.

(** the target file path of a candidate file *)
Definition target_of (file : File) (args : Args) : path :=
  os_path_join (target_dir_of file (output_path args)) [filename file].

(** the collision policy of the commit engine around a write: resolve the
    target, check for a collision, then write *)
Definition with_collision_policy (file : File) (output_path : path)
    (overwrite : bool) (write : path -> M (option File))
  : M (option File) :=
  let target_dir := target_dir_of file output_path in
  os_makedirs target_dir ;;
  let new_file_path := os_path_join target_dir [filename file] in
  found <- os_path_exists new_file_path ;;
  if found then
    if negb overwrite then
      emit (DebugAlreadyExists (filename file)) ;; ret None
    else
      os_remove new_file_path ;; write new_file_path
  else write new_file_path.

(** the outcome of the data model *)
Inductive outcome : Type :=
| skipped_has_metadata
| skipped_no_date_found
| skipped_destination_exists
| skipped_tool_unavailable
| written
| failed.

Definition reports (p : event -> bool) (tr : list event) : bool :=
  existsb p tr.

Definition is_failure (e : event) : bool :=
  match e with
  | InfoErrorOccurred _ | ErrorExiftoolFailed _ => true
  | _ => false
  end.

Definition is_success (e : event) : bool :=
  match e with Succeed _ _ => true | _ => false end.

Definition is_exists (e : event) : bool :=
  match e with DebugAlreadyExists _ => true | _ => false end.

Definition is_no_tool (e : event) : bool :=
  match e with FailNoExiftool _ => true | _ => false end.

Definition is_no_date (e : event) : bool :=
  match e with WarnNoDate _ => true | _ => false end.

Definition is_has_metadata (e : event) : bool :=
  match e with InfoHasExifDate _ => true | _ => false end.

(** the outcome that the events of one file's processing report: an error
    caught by the orchestrator or an exiftool failure is [failed], the
    spinner's success line is [written], and each skip has its own line *)
Definition outcome_of (tr : list event) : option outcome :=
  if reports is_failure tr then Some failed
  else if reports is_success tr then Some written
  else if reports is_exists tr then Some skipped_destination_exists
  else if reports is_no_tool tr then Some skipped_tool_unavailable
  else if reports is_no_date tr then Some skipped_no_date_found
  else if reports is_has_metadata tr then Some skipped_has_metadata
  else None.

(** what [write_video] does once the copy is at [T] with the content [c],
    in the file system [s1]: the tool runs on the copy and leaves its
    content; on [CalledProcessError] the copy is removed *)
Definition after_copy (file : File) (T : path) (c : bytes) (s1 : node)
  : run (option File) :=
  let cmd := exiftool_cmd file T in
  let left c' := write_at T (RegFile c') s1 in
  let cleaned stderr c' :=
    Run (Return None) (remove_at T (left c'))
        [RunTool cmd; FsWrite T; ErrorExiftoolFailed stderr; FsRemove T] in
  match exiftool cmd (Some c) with
  | ToolOk c' =>
      Run (Return (Some (set_new_file_path file T))) (left c')
          [RunTool cmd; FsWrite T; DebugVideoSaved T]
  | ToolExit stderr c' => cleaned stderr c'
  | ToolError (CalledProcessError stderr) c' => cleaned stderr c'
  | ToolError e c' => Run (Raise e) (left c') [RunTool cmd; FsWrite T]
  end.

(** the runs of the loop body over the files, each from the file system
    that the one before left *)
Fixpoint attempts (files_list : list File) (args : Args) (fs : node)
  : list (run unit) :=
  match files_list with
  | [] => []
  | file :: rest =>
      let r := attempt file args fs in
      r :: attempts rest args (fs_after r)
  end.

(** the outcome of each file of a batch *)
Definition outcomes (files_list : list File) (args : Args) (fs : node)
  : list (option outcome) :=
  map (fun r => outcome_of (trace r)) (attempts files_list args fs).

(** the extension of a file name, lower-cased, without its dot *)
Definition extension_of (name : str) : str :=
  str_lower (skipn 1 (snd (os_path_splitext name))).

(** the case-insensitive extension is one of jpeg, jpg, mp4 *)
Definition supported (name : str) : Prop :=
  str_in (extension_of name) FILES_EXT = true.

(** the candidate file for the entry [name] of the directory [rel] below
    the root [top], with its path mapped under the output root *)
Definition candidate_file (top : path) (output : option path) (rel : path)
    (name : str) : File :=
  mkFile name (top ++ rel ++ [name])
         (match output with
          | Some out => Some (out ++ rel ++ [name])
          | None => None
          end)
         (extension_of name) [] [] rel.

(** a name that a directory entry can have *)
Definition valid_name (k : str) : bool :=
  negb (str_eqb k []) && negb (str_eqb k curdir) && negb (str_eqb k pardir)
  && negb (existsb (N.eqb 47) k).

Fixpoint distinct (ks : list str) : bool :=
  match ks with
  | [] => true
  | k :: ks' => negb (str_in k ks') && distinct ks'
  end.

(** a well-formed file system: in every directory the names are valid and
    no two entries have the same name *)
Fixpoint wf (t : node) : bool :=
  match t with
  | Dir es =>
      distinct (map fst es)
      && forallb (fun kn => valid_name (fst kn) && wf (snd kn)) es
  | _ => true
  end.

(** [p] is a prefix of [q]: [q] is [p] or lies below it *)
Definition is_prefix (p q : path) : Prop := exists r, q = p ++ r.

(** every file (what is not a directory) of [fs] is in [fs'] as it was,
    except at [T] and below *)
Definition keeps_outside (T : path) (fs fs' : node) : Prop :=
  forall q n,
    ~ is_prefix T q -> is_dir n = false ->
    lookup fs q = Some n -> lookup fs' q = Some n.

(** every file of [fs] is in [fs'] as it was *)
Definition keeps (fs fs' : node) : Prop :=
  forall q n, is_dir n = false -> lookup fs q = Some n -> lookup fs' q = Some n.

(** a computation whose final file system is always related by [R] to the
    one it started from *)
Definition stays {A} (R : node -> node -> Prop) (m : M A) : Prop :=
  forall fs, R fs (fs_after (m fs)).

(** a computation that emits only events that satisfy [Q] *)
Definition emits {A} (Q : event -> Prop) (m : M A) : Prop :=
  forall fs, Forall Q (trace (m fs)).

(** the events of the logger and of the file system, as opposed to the
    lines of the spinner *)
Definition below_spinner (e : event) : Prop :=
  match e with
  | SpinnerStart | SpinnerText _ | InfoHasExifDate _ | WarnNoDate _
  | FailNoExiftool _ | Succeed _ _ | InfoErrorOccurred _
  | SucceedRunComplete => False
  | _ => True
  end.

(** the events that [outcome_of] does not look at, the spinner's aside *)
Definition quiet (e : event) : Prop :=
  match e with
  | DebugAlreadyExists _ | ErrorExiftoolFailed _ => False
  | _ => below_spinner e
  end.

(** [tr] followed by the events of [r] *)
Definition prepend {A} (tr : list event) (r : run A) : run A :=
  Run (res r) (fs_after r) (tr ++ trace r).

(** a change of directory entries that leaves the other keys alone *)
Definition local_change (f : str -> list (str * node) -> list (str * node))
  : Prop :=
  forall k k' es, k' <> k -> assoc k' (f k es) = assoc k' es.

(** the lines that [process_file] prints for a file *)
Definition spinner_line (e : event) : bool :=
  match e with
  | InfoHasExifDate _ | WarnNoDate _ | FailNoExiftool _ | Succeed _ _ => true
  | _ => false
  end.

(** what a trace is when at most one line is printed, at its end *)
Definition one_line_at_end (tr : list event) : Prop :=
  exists before lines,
    tr = before ++ lines
    /\ filter spinner_line before = []
    /\ length lines <= 1
    /\ forallb spinner_line lines = true.

(** everything but a run of the tool *)
Definition no_tool (e : event) : Prop :=
  match e with
  | RunTool _ => False
  | _ => True
  end.

(** an event that [outcome_of] reads an outcome from *)
Definition telling (e : event) : bool :=
  is_failure e || is_success e || is_exists e || is_no_tool e
  || is_no_date e || is_has_metadata e.

End Words.

(** ** A small platform and file system to run the embedding on *)

Module Demo.

Definition SOI : bytes := [xff; xd8].

(** an "image" is the two marker bytes followed by its metadata block; the
    metadata block is the value of its only tag *)
Definition demo_open (c : bytes) : result bytes :=
  match c with
  | xff :: xd8 :: meta => Return meta
  | _ => Raise (ExternalError (u "cannot identify image file"))
  end.

Definition demo_dump (d : ifd) : result bytes :=
  match d with
  | (_, ExifBytes b) :: _ => Return b
  | _ => Return []
  end.

(** the Arabic-Indic digits stand for the decimal digits beyond ASCII *)
Definition demo_decimal (c : N) : bool := ((1632 <=? c)%N && (c <=? 1641)%N).

Definition platform (tool_present tool_succeeds save_keeps_exif : bool)
  : Platform := {|
  unicode_decimal := demo_decimal;
  unicode_lower := fun c => [c];
  image := bytes;
  Image_open := demo_open;
  image_info_exif := fun im => Some im;
  Image_save := fun im exif =>
    SaveOk (SOI ++ (if save_keeps_exif then exif else []));
  piexif_load_Exif := fun b => Return [(DateTimeOriginal, ExifBytes b)];
  piexif_dump_Exif := demo_dump;
  which_exiftool := tool_present;
  exiftool_process := fun cmd seen =>
    let c := match seen with Some c => c | None => [] end in
    if tool_succeeds then Exited 0 [] [] (c ++ [x01])
    else Exited 1 [] (list_byte_of_string "Error: not a valid MP4")
                (c ++ [x00]);
  locale_decode := utf8_decode
|}.

Definition std : Platform := platform true true true.

Definition bare : bytes := SOI.

(** an image that carries a capture date already *)
Definition dated : bytes := SOI ++ list_byte_of_string "2021:01:02 03:04:05".

(** /in holds a bare image, a video, a dated image, a file that is no
    image, a note, a socket and a subdirectory with one more image; /out is
    empty *)
Definition fs0 : node :=
  Dir [(u "in",
        Dir [(u "IMG-20230415-WA0001.jpg", RegFile bare);
             (u "VID-20230416-WA0002.mp4", RegFile [x00; x00]);
             (u "IMG-20210102-WA0003.jpg", RegFile dated);
             (u "IMG-20210103-WA0004.jpg", RegFile [x00]);
             (u "notes.txt", RegFile []);
             (u "sock.JPG", Special);
             (u "sub", Dir [(u "photo.jpeg", RegFile bare)])]);
       (u "out", Dir [])].

(** the candidate file of the inventory for a file of /in *)
Definition in_file (name ext : string) : File :=
  mkFile (u name) [u "in"; u name] None (u ext) [] [] [].

Definition args0 (recursive overwrite : bool) : Args :=
  mkArgs [u "in"] [u "out"] recursive overwrite.

(** the inventory of /in, recursive *)
Definition files0 : list File :=
  Eval vm_compute in
    match res (@get_files_from_path std [u "in"] true None fs0) with
    | Return l => l
    | Raise _ => []
    end.

(** the file system after one run of the batch from /in to /out, recursive,
    without overwrite *)
Definition fs1 : node :=
  Eval vm_compute in fs_after (@main std (args0 true false) fs0).

End Demo.

(** ** Platforms and file systems on which things go wrong *)

Module Faulty.

(** a platform with another exiftool *)
Definition with_exiftool (P : Platform)
    (tool : list arg -> option bytes -> completed) : Platform := {|
  unicode_decimal := @unicode_decimal P;
  unicode_lower := @unicode_lower P;
  image := @image P;
  Image_open := @Image_open P;
  image_info_exif := @image_info_exif P;
  Image_save := @Image_save P;
  piexif_load_Exif := @piexif_load_Exif P;
  piexif_dump_Exif := @piexif_dump_Exif P;
  which_exiftool := @which_exiftool P;
  exiftool_process := tool;
  locale_decode := @locale_decode P
|}.

(** a platform with another [Image.save] *)
Definition with_Image_save (P : Platform)
    (save : @image P -> bytes -> save_result) : Platform := {|
  unicode_decimal := @unicode_decimal P;
  unicode_lower := @unicode_lower P;
  image := @image P;
  Image_open := @Image_open P;
  image_info_exif := @image_info_exif P;
  Image_save := save;
  piexif_load_Exif := @piexif_load_Exif P;
  piexif_dump_Exif := @piexif_dump_Exif P;
  which_exiftool := @which_exiftool P;
  exiftool_process := @exiftool_process P;
  locale_decode := @locale_decode P
|}.

(** exiftool writes one byte more, then exits with status 1 and a
    message on stderr that is not text *)
Definition garbled_tool : Platform :=
  with_exiftool Demo.std
    (fun cmd seen =>
       Exited 1 [] [xff; xfe]
              (match seen with Some c => c ++ [x01] | None => [] end)).

(** [Image.save] fails after the two marker bytes, and leaves them *)
Definition broken_save : Platform :=
  with_Image_save Demo.std
    (fun im exif =>
       SaveFails (ExternalError (u "encoder error -2")) (Some Demo.SOI)).

(** /in holds one video, and /out is a file where the output directory
    should be *)
Definition fs_blocked : node :=
  Dir [(u "in", Dir [(u "VID-20230416-WA0002.mp4", RegFile [x00; x00])]);
       (u "out", RegFile [])].

(** /in holds one video, and /out a directory under the name of its
    target *)
Definition fs_dir_target : node :=
  Dir [(u "in", Dir [(u "VID-20230416-WA0002.mp4", RegFile [x00; x00])]);
       (u "out", Dir [(u "VID-20230416-WA0002.mp4", Dir [])])].

End Faulty.

(* ================================================================== *)
(** * Part II: properties                                              *)
(* ================================================================== *)

Unset Implicit Arguments.

(** ** Regular expressions *)

Section RegexFacts.
Context {P : Platform}.

Lemma matches_length r m : matches r m -> length m = length r.
Proof.
  intros H. symmetry. exact (Forall2_length H).
Qed.

Lemma match_here_sound r : forall s m,
  match_here r s = Some m -> matches r m /\ exists post, s = m ++ post.
Proof.
  induction r as [|a r IH]; intros s m H; simpl in H.
  - inversion H; subst. split; [constructor | now exists s].
  - destruct s as [|c s]; [discriminate|].
    destruct (atom_matches a c) eqn:Ha; [|discriminate].
    destruct (match_here r s) as [m'|] eqn:Hm; [|discriminate].
    inversion H; subst. destruct (IH _ _ Hm) as [Hr [post ->]].
    split; [constructor; assumption | now exists post].
Qed.

Lemma match_here_complete r : forall m post,
  matches r m -> match_here r (m ++ post) = Some m.
Proof.
  induction r as [|a r IH]; intros m post H; inversion H; subst; simpl.
  - reflexivity.
  - rewrite H2, (IH _ post H4). reflexivity.
Qed.

Lemma app_inv_length (A : Type) (a b c d : list A) :
  a ++ b = c ++ d -> length a = length c -> a = c /\ b = d.
Proof.
  revert c; induction a as [|x a IH]; intros [|y c] H L;
    simpl in *; try discriminate.
  - now split.
  - inversion H; subst. destruct (IH c H2) as [-> ->]; [lia|]. now split.
Qed.

(** what [re.search] finds is an occurrence, and the leftmost one *)
Lemma re_search_Some r : forall s mo,
  re_search r s = Some mo ->
  (exists pre post, s = pre ++ m_text mo ++ post /\ length pre = m_start mo)
  /\ matches r (m_text mo)
  /\ forall pre m post,
       s = pre ++ m ++ post -> matches r m -> m_start mo <= length pre.
Proof.
  induction s as [|c s IH]; intros mo H; simpl in H.
  - destruct (match_here r []) as [m|] eqn:Hm; [|discriminate].
    inversion H; subst; simpl.
    destruct (match_here_sound _ _ _ Hm) as [Hr [post Hp]].
    split; [exists [], post; now split|]. split; [assumption|]. intros; lia.
  - destruct (match_here r (c :: s)) as [m|] eqn:Hm.
    + inversion H; subst; simpl.
      destruct (match_here_sound _ _ _ Hm) as [Hr [post Hp]].
      split; [exists [], post; now split|]. split; [assumption|]. intros; lia.
    + destruct (re_search r s) as [mo'|] eqn:Hs; [|discriminate].
      inversion H; subst; simpl.
      destruct (IH _ eq_refl) as [[pre [post [Hp Hl]]] [Hr Hleast]].
      split; [exists (c :: pre), post; simpl; split; congruence|].
      split; [assumption|].
      intros [|x pre'] m post' E Hm'.
      * simpl in E. rewrite E, (match_here_complete _ _ post' Hm') in Hm.
        discriminate.
      * simpl in E. inversion E; subst x.
        specialize (Hleast _ _ _ H2 Hm'). simpl. lia.
Qed.

Lemma re_search_None r : forall s,
  re_search r s = None ->
  forall pre m post, s = pre ++ m ++ post -> ~ matches r m.
Proof.
  induction s as [|c s IH]; intros H pre m post E Hm; simpl in H.
  - destruct pre; [|discriminate]. simpl in E.
    rewrite E, (match_here_complete _ _ post Hm) in H. discriminate.
  - destruct (match_here r (c :: s)) eqn:Hh; [discriminate|].
    destruct (re_search r s) eqn:Hs; [discriminate|].
    destruct pre as [|x pre]; simpl in E.
    + rewrite E, (match_here_complete _ _ post Hm) in Hh. discriminate.
    + inversion E; subst. exact (IH eq_refl _ _ _ eq_refl Hm).
Qed.

(** the leftmost occurrence is what [re.search] finds *)
Lemma re_search_first r s pre m post :
  s = pre ++ m ++ post -> matches r m ->
  (forall pre' m' post',
     s = pre' ++ m' ++ post' -> matches r m' -> length pre <= length pre') ->
  re_search r s = Some (Match (length pre) m).
Proof.
  intros E Hm Hleast.
  destruct (re_search r s) as [mo|] eqn:Hs.
  - destruct (re_search_Some _ _ _ Hs) as [[pre' [post' [E' Hl]]] [Hr Hle]].
    specialize (Hle _ _ _ E Hm). specialize (Hleast _ _ _ E' Hr).
    assert (L : length pre' = length pre) by lia.
    rewrite E in E'. destruct (app_inv_length _ _ _ _ _ E' (eq_sym L)) as [-> E2].
    destruct (app_inv_length _ _ _ _ _ E2) as [-> _].
    { rewrite (matches_length _ _ Hm), (matches_length _ _ Hr). reflexivity. }
    destruct mo as [i t]; simpl in *. subst i. reflexivity.
  - exfalso. exact (re_search_None _ _ Hs _ _ _ E Hm).
Qed.

End RegexFacts.

(** ** The patterns of main.py, in the words of the specification *)

Section PatternFacts.
Context {P : Platform}.

Lemma matches_app r1 r2 m :
  matches (r1 ++ r2) m <->
  exists m1 m2, m = m1 ++ m2 /\ matches r1 m1 /\ matches r2 m2.
Proof.
  unfold matches; split.
  - intros H. apply Forall2_app_inv_l in H.
    destruct H as [m1 [m2 [H1 [H2 E]]]]. now exists m1, m2.
  - intros [m1 [m2 [-> [H1 H2]]]]. now apply Forall2_app.
Qed.

Lemma matches_digits n m : matches (repeat Digit n) m <-> digits n m.
Proof.
  unfold matches, digits; revert m.
  induction n as [|n IH]; intros m; simpl; split.
  - intros H; inversion H; subst. now split.
  - intros [L _]. destruct m; [constructor | discriminate].
  - intros H; inversion H; subst. apply IH in H4. destruct H4 as [L F].
    simpl. split; [now rewrite L | now constructor].
  - intros [L F]. destruct m as [|c m]; [discriminate|].
    inversion F; subst. constructor; [assumption|].
    apply IH. split; [now inversion L | assumption].
Qed.

Lemma matches_lit t m : matches (lit t) m <-> m = u t.
Proof.
  unfold matches, lit. generalize (u t) as l. clear t. intros l; revert m.
  induction l as [|c l IH]; intros m; simpl; split.
  - intros H; now inversion H.
  - intros ->; constructor.
  - intros H; inversion H; subst. simpl in H2. apply N.eqb_eq in H2.
    apply IH in H4. congruence.
  - intros ->. constructor; [simpl; apply N.eqb_refl | now apply IH].
Qed.

Lemma date_pattern_matches m :
  date_pattern m <-> matches REGEX_FILENAME_DATE m.
Proof.
  unfold date_pattern, REGEX_FILENAME_DATE. split.
  - intros [y [mo [d [-> [Hy [Hmo Hd]]]]]].
    apply matches_app. exists y, (mo ++ d).
    split; [reflexivity|]. split; [now apply matches_digits|].
    apply matches_app. exists mo, d.
    split; [reflexivity|]. split; now apply matches_digits.
  - intros H. apply matches_app in H.
    destruct H as [y [m2 [-> [Hy H]]]]. apply matches_app in H.
    destruct H as [mo [d [-> [Hmo Hd]]]].
    exists y, mo, d. split; [reflexivity|].
    split; [|split]; now apply matches_digits.
Qed.

(** a literal followed by digits followed by the rest of a pattern *)
Lemma matches_lit_digits t n r m :
  matches (lit t ++ repeat Digit n ++ r) m <->
  exists x m', m = u t ++ x ++ m' /\ digits n x /\ matches r m'.
Proof.
  split.
  - intros H. apply matches_app in H. destruct H as [a [m1 [-> [Ha H]]]].
    apply matches_lit in Ha. subst a. apply matches_app in H.
    destruct H as [x [m' [-> [Hx H]]]]. apply matches_digits in Hx.
    now exists x, m'.
  - intros [x [m' [-> [Hx H]]]]. apply matches_app. exists (u t), (x ++ m').
    split; [reflexivity|]. split; [now apply matches_lit|].
    apply matches_app. exists x, m'.
    split; [reflexivity|]. split; [now apply matches_digits | assumption].
Qed.

Lemma time_pattern_matches m :
  time_pattern m <-> matches REGEX_FILENAME_TIME m.
Proof.
  unfold time_pattern, REGEX_FILENAME_TIME. split.
  - intros [h [mi [se [-> [Hh [Hmi Hse]]]]]].
    apply matches_lit_digits. exists h, (u "." ++ mi ++ u "." ++ se).
    split; [reflexivity|]. split; [assumption|].
    apply matches_lit_digits. exists mi, (u "." ++ se).
    split; [reflexivity|]. split; [assumption|].
    apply matches_app. exists (u "."), se.
    split; [reflexivity|].
    split; [now apply matches_lit | now apply matches_digits].
  - intros H. apply matches_lit_digits in H.
    destruct H as [h [m1 [-> [Hh H]]]]. apply matches_lit_digits in H.
    destruct H as [mi [m2 [-> [Hmi H]]]]. apply matches_app in H.
    destruct H as [a [se [-> [Ha Hse]]]]. apply matches_lit in Ha. subst a.
    apply matches_digits in Hse. exists h, mi, se.
    split; [reflexivity|]. split; [assumption|]. split; assumption.
Qed.

Lemma firstn_exact (A : Type) (a b : list A) n :
  length a = n -> firstn n (a ++ b) = a.
Proof.
  intros <-. rewrite firstn_app, Nat.sub_diag, firstn_all. simpl.
  apply app_nil_r.
Qed.

Lemma skipn_exact (A : Type) (a b : list A) n :
  length a = n -> skipn n (a ++ b) = b.
Proof.
  intros <-. rewrite skipn_app, Nat.sub_diag, skipn_all. reflexivity.
Qed.

(** a list of known length, written out *)
Ltac explode H :=
  match type of H with
  | length ?l = _ =>
      repeat (destruct l as [|? l]; simpl in H; try discriminate H)
  end.

(** the three groups of a date match *)
Lemma date_groups i y mo d :
  digits 4 y -> digits 2 mo -> digits 2 d ->
  let dm := Match i (y ++ mo ++ d) in
  group dm 0 4 = y /\ group dm 4 2 = mo /\ group dm 6 2 = d.
Proof.
  intros [Ly _] [Lmo _] [Ld _]. explode Ly. explode Lmo. explode Ld.
  now repeat split.
Qed.

(** the three groups of a time match *)
Lemma time_groups i h mi se :
  digits 2 h -> digits 2 mi -> digits 2 se ->
  let tm := Match i (u "at " ++ h ++ u "." ++ mi ++ u "." ++ se) in
  group tm 3 2 = h /\ group tm 6 2 = mi /\ group tm 9 2 = se.
Proof.
  intros [Lh _] [Lmi _] [Lse _]. explode Lh. explode Lmi. explode Lse.
  now repeat split.
Qed.

(** [re.search] and the first occurrence of a pattern *)
Lemma search_first_occurrence (pattern : str -> Prop) r s pre m :
  (forall x, pattern x <-> matches r x) ->
  first_occurrence pattern s pre m ->
  re_search r s = Some (Match (length pre) m).
Proof.
  intros Hp [[post E] [Hm Hleast]].
  apply (re_search_first r s pre m post E); [now apply Hp|].
  intros pre' m' post' E' Hm'. apply (Hleast pre' m').
  - now exists post'.
  - now apply Hp.
Qed.

Lemma search_no_occurrence (pattern : str -> Prop) r s :
  (forall x, pattern x <-> matches r x) ->
  no_occurrence pattern s -> re_search r s = None.
Proof.
  intros Hp Hno. destruct (re_search r s) as [mo|] eqn:Hs; [|reflexivity].
  destruct (re_search_Some _ _ _ Hs) as [[pre [post [E _]]] [Hm _]].
  exfalso. apply (Hno pre (m_text mo)); [now exists post | now apply Hp].
Qed.

Lemma found_first_occurrence (pattern : str -> Prop) r s mo :
  (forall x, pattern x <-> matches r x) ->
  re_search r s = Some mo ->
  first_occurrence pattern s (firstn (m_start mo) s) (m_text mo).
Proof.
  intros Hp Hs.
  destruct (re_search_Some _ _ _ Hs) as [[pre [post [E L]]] [Hm Hleast]].
  assert (Hpre : firstn (m_start mo) s = pre).
  { rewrite E. now apply firstn_exact. }
  rewrite Hpre. split; [now exists post|]. split; [now apply Hp|].
  intros pre' m' [post' E'] Hm'. rewrite L.
  apply (Hleast pre' m' post' E'). now apply Hp.
Qed.

Lemma not_found_no_occurrence (pattern : str -> Prop) r s :
  (forall x, pattern x <-> matches r x) ->
  re_search r s = None -> no_occurrence pattern s.
Proof.
  intros Hp Hs pre m [post E] Hm.
  apply (re_search_None _ _ Hs pre m post E). now apply Hp.
Qed.

End PatternFacts.

(** ** The filename date parser *)

Section Parser.
Context {P : Platform}.

Lemma occurrence_dec (pattern : str -> Prop) r s :
  (forall x, pattern x <-> matches r x) ->
  (exists pre m, first_occurrence pattern s pre m) \/ no_occurrence pattern s.
Proof.
  intros Hp. destruct (re_search r s) as [mo|] eqn:Hs.
  - left. exists (firstn (m_start mo) s), (m_text mo).
    exact (found_first_occurrence pattern r s mo Hp Hs).
  - right. exact (not_found_no_occurrence pattern r s Hp Hs).
Qed.

(** C1.  For every filename the parser returns, without touching the file
    system.  When the first occurrence of four, two and two digits in the
    filename is [y], [mo], [d] (no range check on them), the capture
    timestamp becomes [y:mo:d h:mi:se] where [at h.mi.se] is the first
    occurrence of the time pattern, and [y:mo:d 00:00:00] when the time
    pattern does not occur.  When the date pattern does not occur the file
    is returned as it was, whether or not a time pattern occurs.  One of
    the two cases always applies. *)
Theorem C1_parse_filename_to_date (file : File) (fs : node) :
  exists file',
    res (parse_filename_to_date file fs) = Return file'
    /\ fs_after (parse_filename_to_date file fs) = fs
    /\ (forall pre y mo d,
          first_occurrence date_pattern (filename file) pre (y ++ mo ++ d) ->
          digits 4 y -> digits 2 mo -> digits 2 d ->
          (forall pre' h mi se,
             first_occurrence time_pattern (filename file) pre'
               (u "at " ++ h ++ u "." ++ mi ++ u "." ++ se) ->
             digits 2 h -> digits 2 mi -> digits 2 se ->
             parsed_date file' =
               y ++ u ":" ++ mo ++ u ":" ++ d ++ u " "
               ++ h ++ u ":" ++ mi ++ u ":" ++ se)
          /\ (no_occurrence time_pattern (filename file) ->
              parsed_date file' =
                y ++ u ":" ++ mo ++ u ":" ++ d ++ u " " ++ u "00:00:00"))
    /\ (no_occurrence date_pattern (filename file) -> file' = file)
    /\ ((exists pre m, first_occurrence date_pattern (filename file) pre m)
        \/ no_occurrence date_pattern (filename file)).
Proof.
  unfold parse_filename_to_date.
  destruct (re_search REGEX_FILENAME_DATE (filename file)) as [dm|] eqn:Hd.
  - eexists. split; [reflexivity|]. split; [reflexivity|].
    split; [|split].
    + intros pre y mo d Hfirst Hy Hmo Hdd.
      rewrite (search_first_occurrence _ _ _ _ _ date_pattern_matches Hfirst)
        in Hd.
      inversion Hd; subst dm; clear Hd.
      destruct (date_groups (length pre) y mo d Hy Hmo Hdd) as [Gy [Gm Gd]].
      cbv zeta in Gy, Gm, Gd. cbn [parsed_date set_parsed_date res fs_after].
      unfold bind, emit, ret; cbn [res fs_after parsed_date set_parsed_date].
      rewrite Gy, Gm, Gd.
      split.
      * intros pre' h mi se Ht Hh Hmi Hse.
        rewrite (search_first_occurrence _ _ _ _ _ time_pattern_matches Ht).
        destruct (time_groups (length pre') h mi se Hh Hmi Hse)
          as [Gh [Gmi Gse]].
        cbv zeta in Gh, Gmi, Gse. rewrite Gh, Gmi, Gse.
        now rewrite <- !app_assoc.
      * intros Hno.
        rewrite (search_no_occurrence _ _ _ time_pattern_matches Hno).
        now rewrite <- !app_assoc.
    + intros Hno.
      rewrite (search_no_occurrence _ _ _ date_pattern_matches Hno) in Hd.
      discriminate.
    + left. exists (firstn (m_start dm) (filename file)), (m_text dm).
      exact (found_first_occurrence _ _ _ _ date_pattern_matches Hd).
  - exists file. split; [reflexivity|]. split; [reflexivity|].
    split; [|split].
    + intros pre y mo d Hfirst.
      rewrite (search_first_occurrence _ _ _ _ _ date_pattern_matches Hfirst)
        in Hd.
      discriminate.
    + reflexivity.
    + right. exact (not_found_no_occurrence _ _ _ date_pattern_matches Hd).
Qed.

End Parser.

Lemma C1_parse_filename_to_date_witness :
  let file := mkFile (u "IMG-20230415 at 14.05.09.jpg") [] None (u "jpg")
                     [] [] [] in
  first_occurrence (@date_pattern Demo.std) (filename file)
    (u "IMG-") (u "2023" ++ u "04" ++ u "15")
  /\ exists file',
       res (@parse_filename_to_date Demo.std file Demo.fs0) = Return file'
       /\ parsed_date file' = u "2023:04:15 14:05:09".
Proof.
  intros file.
  assert (Hd : first_occurrence (@date_pattern Demo.std) (filename file)
                 (u "IMG-") (u "2023" ++ u "04" ++ u "15")).
  { exact (@found_first_occurrence Demo.std _ _ (filename file)
             (Match 4 (u "20230415")) (@date_pattern_matches Demo.std)
             eq_refl). }
  split; [exact Hd|].
  destruct (@C1_parse_filename_to_date Demo.std file Demo.fs0)
    as [file' [Hres [_ [Hdate _]]]].
  exists file'. split; [exact Hres|].
  destruct (Hdate (u "IMG-") (u "2023") (u "04") (u "15") Hd)
    as [Htime _]; try (split; [reflexivity | repeat constructor]).
  apply (Htime (u "IMG-20230415 ") (u "14") (u "05") (u "09"));
    try (split; [reflexivity | repeat constructor]).
  exact (@found_first_occurrence Demo.std _ _ (filename file)
           (Match 13 (u "at 14.05.09")) (@time_pattern_matches Demo.std)
           eq_refl).
Defined.

(** ** Runs of digits *)

Section Runs.
Context {P : Platform}.

(** the digits at the end of a string *)
Lemma digit_suffix (a : str) :
  exists a1 a2,
    a = a1 ++ a2 /\ Forall (fun c => is_digit c = true) a2
    /\ forall pre' c, a1 = pre' ++ [c] -> is_digit c = false.
Proof.
  induction a as [|x a IH] using rev_ind.
  - exists [], []. split; [reflexivity|]. split; [constructor|].
    intros [|? ?] c E; discriminate.
  - destruct (is_digit x) eqn:Hx.
    + destruct IH as [a1 [a2 [-> [F N]]]].
      exists a1, (a2 ++ [x]). split; [now rewrite app_assoc|].
      split; [|assumption].
      apply Forall_app. split; [assumption | now repeat constructor].
    + exists (a ++ [x]), []. split; [now rewrite app_nil_r|].
      split; [constructor|].
      intros pre' c E. apply app_inj_tail in E. destruct E as [_ <-].
      assumption.
Qed.

(** the digits at the start of a string *)
Lemma digit_prefix (b : str) :
  exists b1 b2,
    b = b1 ++ b2 /\ Forall (fun c => is_digit c = true) b1
    /\ forall c post', b2 = c :: post' -> is_digit c = false.
Proof.
  induction b as [|x b IH].
  - exists [], []. split; [reflexivity|]. split; [constructor|].
    intros c post' E; discriminate.
  - destruct (is_digit x) eqn:Hx.
    + destruct IH as [b1 [b2 [-> [F N]]]].
      exists (x :: b1), b2. split; [reflexivity|].
      split; [now constructor | assumption].
    + exists [], (x :: b). split; [reflexivity|]. split; [constructor|].
      intros c post' E. inversion E; subst. assumption.
Qed.

(** digits that occur in a string lie within one of its runs *)
Lemma window_in_run (s a w : str) :
  occurs s a w -> w <> [] -> Forall (fun c => is_digit c = true) w ->
  exists pre r,
    digit_run s pre r /\ length pre <= length a
    /\ length a + length w <= length pre + length r.
Proof.
  intros [b E] Hne Hw.
  destruct (digit_suffix a) as [a1 [a2 [Ea [Fa Na]]]].
  destruct (digit_prefix b) as [b1 [b2 [Eb [Fb Nb]]]].
  exists a1, (a2 ++ w ++ b1). split; [|split].
  - exists b2. split.
    { rewrite E, Ea, Eb. now rewrite <- !app_assoc. }
    split.
    { intros Hnil. apply app_eq_nil in Hnil. destruct Hnil as [_ Hnil].
      apply app_eq_nil in Hnil. now destruct Hnil. }
    split; [|split; assumption].
    apply Forall_app; split; [assumption|].
    apply Forall_app; split; assumption.
  - rewrite Ea, length_app. lia.
  - rewrite Ea, !length_app. lia.
Qed.

(** a run of at least [n] digits starts with an occurrence of [n] digits *)
Lemma run_starts_with_digits (s pre r : str) (n : nat) :
  digit_run s pre r -> n <= length r ->
  occurs s pre (firstn n r) /\ digits n (firstn n r).
Proof.
  intros [post [E [_ [F _]]]] L. split.
  - exists (skipn n r ++ post). rewrite E. f_equal.
    now rewrite app_assoc, firstn_skipn.
  - split.
    + rewrite length_firstn. lia.
    + rewrite <- (firstn_skipn n r) in F. apply Forall_app in F. tauto.
Qed.

(** the leftmost run of eight digits or more starts with the first
    occurrence of the date pattern *)
Lemma leftmost_run_first_date (s pre r : str) :
  leftmost_run (fun n => 8 <= n) s pre r ->
  first_occurrence date_pattern s pre (firstn 8 r).
Proof.
  intros [Hrun [L Hleast]].
  destruct (run_starts_with_digits s pre r 8 Hrun L) as [Hocc Hdig].
  split; [assumption|]. split.
  - apply date_pattern_matches. unfold REGEX_FILENAME_DATE.
    change (repeat Digit 4 ++ repeat Digit 2 ++ repeat Digit 2)
      with (repeat Digit 8).
    now apply matches_digits.
  - intros pre' m' Hocc' Hm'. apply date_pattern_matches in Hm'.
    unfold REGEX_FILENAME_DATE in Hm'.
    change (repeat Digit 4 ++ repeat Digit 2 ++ repeat Digit 2)
      with (repeat Digit 8) in Hm'.
    apply matches_digits in Hm'. destruct Hm' as [Lm Fm].
    destruct (window_in_run s pre' m' Hocc') as [p2 [r2 [Hr2 [Lp Lr]]]].
    { intros ->. discriminate. }
    { assumption. }
    assert (length pre <= length p2) by (apply (Hleast p2 r2 Hr2); lia).
    lia.
Qed.

(** C10, as amended.  For every filename with a run of eight or more
    consecutive digits, the parser takes the leftmost eight digits of the
    leftmost such run as the date: the first four as year, the next two as
    month, the next two as day.  A longer run is not rejected and the match
    is not aligned to its end; a run of exactly eight digits counts. *)
Theorem C10_leftmost_run_of_eight_or_more (file : File) (fs : node)
    (pre r : str) :
  leftmost_run (fun n => 8 <= n) (filename file) pre r ->
  exists file',
    res (parse_filename_to_date file fs) = Return file'
    /\ has_date (parsed_date file') (date_of_run r).
Proof.
  intros Hrun. pose proof (leftmost_run_first_date _ _ _ Hrun) as Hfirst.
  destruct Hrun as [_ [L _]].
  unfold parse_filename_to_date.
  rewrite (search_first_occurrence _ _ _ _ _ date_pattern_matches Hfirst).
  eexists. split; [reflexivity|].
  unfold has_date, date_of_run, group; cbn [parsed_date set_parsed_date m_text].
  eexists.
  do 8 (destruct r as [|? r]; [simpl in L; lia|]).
  cbn [firstn skipn app]. reflexivity.
Qed.

End Runs.

Lemma C10_leftmost_run_of_eight_or_more_witness :
  exists file',
    res (@parse_filename_to_date Demo.std
           (mkFile (u "VID_202304151234.mp4") [] None (u "mp4") [] [] [])
           Demo.fs0) = Return file'
    /\ @has_date (parsed_date file') (u "2023:04:15").
Proof.
  apply (@C10_leftmost_run_of_eight_or_more Demo.std
           (mkFile (u "VID_202304151234.mp4") [] None (u "mp4") [] [] [])
           Demo.fs0 (u "VID_") (u "202304151234")).
  split; [|split].
  - exists (u ".mp4"). split; [reflexivity|].
    split; [discriminate|]. split; [repeat constructor|]. split.
    + intros pre' c E.
      change (u "VID_") with (u "VID" ++ [95%N]) in E.
      apply app_inj_tail in E. destruct E as [_ <-]. reflexivity.
    + intros c post' E. inversion E. reflexivity.
  - simpl. lia.
  - intros pre' r' Hrun' L'.
    destruct (@run_starts_with_digits Demo.std _ _ _ 1 Hrun') as [[post E] D];
      [lia|].
    destruct r' as [|c r']; [simpl in L'; lia|].
    destruct D as [_ D]. simpl in D. inversion D; subst.
    do 4 (destruct pre' as [|? pre']; [simpl in E; inversion E; subst;
                                      discriminate|]).
    simpl. lia.
Defined.

(** C10 as stated fails: the leftmost run of more than eight digits of
    [IMG-20230415-WA000000001.jpg] is [000000001], and the date is taken
    from the run of exactly eight digits before it *)
Lemma C10_counterexample :
  let file := mkFile (u "IMG-20230415-WA000000001.jpg") [] None (u "jpg")
                     [] [] [] in
  @leftmost_run Demo.std (fun n => 8 < n) (filename file)
    (u "IMG-20230415-WA") (u "000000001")
  /\ exists file',
       res (@parse_filename_to_date Demo.std file Demo.fs0) = Return file'
       /\ parsed_date file' = u "2023:04:15 00:00:00"
       /\ ~ @has_date (parsed_date file') (date_of_run (u "000000001")).
Proof.
  intros file. split.
  - split; [|split].
    + exists (u ".jpg"). split; [reflexivity|].
      split; [discriminate|]. split; [repeat constructor|]. split.
      * intros pre' c E.
        change (u "IMG-20230415-WA") with (u "IMG-20230415-W" ++ [65%N]) in E.
        apply app_inj_tail in E. destruct E as [_ <-]. reflexivity.
      * intros c post' E. inversion E. reflexivity.
    + simpl. lia.
    + intros pre' r' Hrun' L'.
      destruct (@run_starts_with_digits Demo.std _ _ _ 9 Hrun')
        as [[post E] D]; [lia|].
      apply (@matches_digits Demo.std) in D.
      assert (Hs : @re_search Demo.std (repeat Digit 9) (filename file)
                   = Some (Match 15 (u "000000001"))) by reflexivity.
      destruct (@re_search_Some Demo.std _ _ _ Hs) as [_ [_ Hleast]].
      exact (Hleast pre' _ post E D).
  - eexists. split; [reflexivity|]. split; [reflexivity|].
    intros [time E]. discriminate E.
Qed.

(** ** The metadata presence check *)

Section PresenceCheck.
Context {P : Platform}.

Lemma exif_date_shape_matches m :
  exif_date_shape m <-> matches exif_date_pattern m.
Proof.
  unfold exif_date_shape, exif_date_pattern. split.
  - intros [y [mo [d [h [mi [se [-> [Hy [Hmo [Hd [Hh [Hmi Hse]]]]]]]]]]]].
    apply matches_app. eexists y, _. split; [reflexivity|].
    split; [now apply matches_digits|].
    apply matches_lit_digits. eexists mo, _. split; [reflexivity|].
    split; [assumption|].
    apply matches_lit_digits. eexists d, _. split; [reflexivity|].
    split; [assumption|].
    apply matches_lit_digits. eexists h, _. split; [reflexivity|].
    split; [assumption|].
    apply matches_lit_digits. eexists mi, _. split; [reflexivity|].
    split; [assumption|].
    apply matches_app. exists (u ":"), se. split; [reflexivity|].
    split; [now apply matches_lit | now apply matches_digits].
  - intros H. apply matches_app in H. destruct H as [y [m1 [-> [Hy H]]]].
    apply matches_digits in Hy.
    apply matches_lit_digits in H. destruct H as [mo [m2 [-> [Hmo H]]]].
    apply matches_lit_digits in H. destruct H as [d [m3 [-> [Hd H]]]].
    apply matches_lit_digits in H. destruct H as [h [m4 [-> [Hh H]]]].
    apply matches_lit_digits in H. destruct H as [mi [m5 [-> [Hmi H]]]].
    apply matches_app in H. destruct H as [a [se [-> [Ha Hse]]]].
    apply matches_lit in Ha. subst a. apply matches_digits in Hse.
    exists y, mo, d, h, mi, se. split; [reflexivity|]. tauto.
Qed.

Lemma search_some_occurrence (pattern : str -> Prop) r s :
  (forall x, pattern x <-> matches r x) ->
  (exists mo, re_search r s = Some mo) <-> some_occurrence pattern s.
Proof.
  intros Hp. split.
  - intros [mo Hs].
    destruct (found_first_occurrence pattern r s mo Hp Hs) as [Ho [Hm _]].
    now exists (firstn (m_start mo) s), (m_text mo).
  - intros [pre [m [Ho Hm]]].
    destruct (re_search r s) as [mo|] eqn:Hs; [now exists mo|].
    exfalso. exact (not_found_no_occurrence pattern r s Hp Hs pre m Ho Hm).
Qed.

(** the scan returns, leaves the file system alone, and answers whether
    some field has a date; fields that are not byte strings or do not
    decode are passed over *)
Lemma scan_items_spec (items : ifd) (fs : node) :
  exists b,
    res (scan_items items fs) = Return b
    /\ fs_after (scan_items items fs) = fs
    /\ (b = true <-> exists tag v, In (tag, v) items /\ field_has_date v).
Proof.
  induction items as [|[tag v] items IH].
  - exists false. split; [reflexivity|]. split; [reflexivity|].
    split; [discriminate|]. intros [? [? [[] _]]].
  - assert (Hskip : ~ field_has_date v ->
              exists b, res (scan_items items fs) = Return b
                /\ fs_after (scan_items items fs) = fs
                /\ (b = true <->
                    exists tag' v', In (tag', v') ((tag, v) :: items)
                                    /\ field_has_date v')).
    { intros Hno. destruct IH as [b [Hr [Hf Hb]]]. exists b.
      split; [assumption|]. split; [assumption|].
      rewrite Hb. split.
      - intros [t [w [Hin Hw]]]. exists t, w. split; [now right|assumption].
      - intros [t [w [[E|Hin] Hw]]].
        + inversion E; subst. contradiction.
        + now exists t, w. }
    simpl. destruct v as [b|].
    + destruct (utf8_decode b) as [decoded|] eqn:Hdec.
      * destruct (re_search exif_date_pattern decoded) as [mo|] eqn:Hs.
        -- exists true. split; [reflexivity|]. split; [reflexivity|].
           split; [|reflexivity]. intros _. exists tag, (ExifBytes b).
           split; [now left|]. exists b, decoded.
           split; [reflexivity|]. split; [assumption|].
           apply (search_some_occurrence _ _ _ exif_date_shape_matches).
           now exists mo.
        -- apply Hskip. intros [b' [dec' [E [Hd' Ho]]]].
           inversion E; subst b'. rewrite Hdec in Hd'. inversion Hd'; subst.
           apply (search_some_occurrence _ _ _ exif_date_shape_matches) in Ho.
           destruct Ho as [mo Hmo]. congruence.
      * apply Hskip. intros [b' [dec' [E [Hd' _]]]].
        inversion E; subst b'. congruence.
    + apply Hskip. intros [b' [dec' [E _]]]. discriminate.
Qed.

(** C2, as amended.  The presence check leaves the file system alone.  It
    raises to its caller when the file cannot be opened (there is no such
    file, it is a directory, it is a socket), when the image codec cannot
    decode it, and when the metadata codec cannot decode its metadata
    block: the error is the one of [open] or of the collaborator, not
    [false].  Without a metadata block the answer is [false].  Otherwise
    the check returns, and the answer is [true] exactly when some scanned
    field value matches the capture-date pattern; fields that cannot be
    decoded are passed over. *)
Theorem C2_check_exif (file : File) (fs : node) :
  fs_after (check_exif file fs) = fs
  /\ ((lookup fs (file_path file) = None ->
       res (check_exif file fs) = Raise (FileNotFoundError (file_path file)))
      /\ (forall es,
            lookup fs (file_path file) = Some (Dir es) ->
            res (check_exif file fs)
            = Raise (IsADirectoryError (file_path file)))
      /\ (lookup fs (file_path file) = Some Special ->
          res (check_exif file fs) = Raise (OSError (file_path file))))
  /\ forall c,
       lookup fs (file_path file) = Some (RegFile c) ->
       (forall e, Image_open c = Raise e ->
                  res (check_exif file fs) = Raise e)
       /\ forall im,
            Image_open c = Return im ->
            (image_info_exif im = None \/ image_info_exif im = Some [] ->
             res (check_exif file fs) = Return false)
            /\ forall block,
                 image_info_exif im = Some block -> block <> [] ->
                 (forall e, piexif_load_Exif block = Raise e ->
                            res (check_exif file fs) = Raise e)
                 /\ forall data,
                      piexif_load_Exif block = Return data ->
                      exists b,
                        res (check_exif file fs) = Return b
                        /\ (b = true <->
                            exists tag v,
                              In (tag, v) data /\ field_has_date v).
Proof.
  unfold check_exif, export_exif_data, open_rb, bind, get_fs; simpl.
  destruct (lookup fs (file_path file)) as [[c| |es]|] eqn:Hl; simpl.
  2-4: (split; [reflexivity|]; split;
        [repeat split; intros; (reflexivity || discriminate)|];
        intros c Hc; discriminate).
  destruct (Image_open c) as [im|e] eqn:Ho; simpl.
  2:{ split; [reflexivity|]. split; [repeat split; intros; discriminate|].
      intros c' Hc'. inversion Hc'; subst c'. rewrite Ho.
      split; [intros e' E; now inversion E | intros im E; discriminate]. }
  destruct (image_info_exif im) as [[|b0 block]|] eqn:Hi; simpl.
  1,3: (split; [reflexivity|]; split; [repeat split; intros; discriminate|];
        intros c' Hc'; inversion Hc'; subst c'; rewrite Ho;
        split; [intros e' E; discriminate|];
        intros im' E; inversion E; subst im'; rewrite Hi;
        split; [reflexivity|]; intros block' E' Hne;
        inversion E'; subst; contradiction).
  destruct (piexif_load_Exif (b0 :: block)) as [data|e] eqn:Hp; simpl.
  2:{ split; [reflexivity|]. split; [repeat split; intros; discriminate|].
      intros c' Hc'. inversion Hc'; subst c'. rewrite Ho.
      split; [intros e' E; discriminate|].
      intros im' E; inversion E; subst im'. rewrite Hi.
      split; [intros [E'|E']; discriminate|].
      intros block' E' _. inversion E'; subst block'. rewrite Hp.
      split; [intros e' E2; now inversion E2 | intros d E2; discriminate]. }
  assert (Hscan : exists b,
             res (match data with
                  | [] => ret false
                  | item :: items => scan_items (item :: items)
                  end fs) = Return b
             /\ fs_after (match data with
                          | [] => ret false
                          | item :: items => scan_items (item :: items)
                          end fs) = fs
             /\ (b = true <->
                 exists tag v, In (tag, v) data /\ field_has_date v)).
  { destruct data as [|item items]; [|apply scan_items_spec].
    exists false. split; [reflexivity|]. split; [reflexivity|].
    split; [discriminate | intros [? [? [[] _]]]]. }
  destruct Hscan as [b [Hr [Hf Hb]]].
  split; [rewrite app_nil_r || idtac; assumption|].
  split; [repeat split; intros; discriminate|].
  intros c' Hc'. inversion Hc'; subst c'. rewrite Ho.
  split; [intros e' E; discriminate|].
  intros im' E; inversion E; subst im'. rewrite Hi.
  split; [intros [E'|E']; discriminate|].
  intros block' E' _. inversion E'; subst block'. rewrite Hp.
  split; [intros e' E2; discriminate|].
  intros d E2; inversion E2; subst d. exists b. split; assumption.
Qed.

End PresenceCheck.

Lemma C2_check_exif_witness :
  exists b,
    res (@check_exif Demo.std (Demo.in_file "IMG-20210102-WA0003.jpg" "jpg")
           Demo.fs0) = Return b
    /\ (b = true <->
        exists tag v,
          In (tag, v)
             [(DateTimeOriginal,
               ExifBytes (list_byte_of_string "2021:01:02 03:04:05"))]
          /\ @field_has_date Demo.std v).
Proof.
  destruct (@C2_check_exif Demo.std
              (Demo.in_file "IMG-20210102-WA0003.jpg" "jpg") Demo.fs0)
    as [_ [_ H]].
  destruct (H Demo.dated eq_refl) as [_ H1].
  destruct (H1 (list_byte_of_string "2021:01:02 03:04:05") eq_refl)
    as [_ H2].
  destruct (H2 (list_byte_of_string "2021:01:02 03:04:05") eq_refl)
    as [_ H3]; [discriminate|].
  exact (H3 _ eq_refl).
Defined.

(** C2 as stated fails: a file that the image codec cannot decode makes
    the check raise, and so does a file that cannot be opened *)
Lemma C2_counterexample :
  res (@check_exif Demo.std (Demo.in_file "IMG-20210103-WA0004.jpg" "jpg")
         Demo.fs0)
  = Raise (ExternalError (u "cannot identify image file"))
  /\ res (@check_exif Demo.std (Demo.in_file "gone.jpg" "jpg") Demo.fs0)
     = Raise (FileNotFoundError [u "in"; u "gone.jpg"])
  /\ res (@check_exif Demo.std (Demo.in_file "IMG-20210103-WA0004.jpg" "jpg")
            Demo.fs0)
     <> Return false.
Proof.
  split; [reflexivity|]. split; [reflexivity|]. discriminate.
Qed.

(** ** The file system *)

Section FileSystemFacts.

Lemma str_eqb_eq a b : str_eqb a b = true <-> a = b.
Proof.
  unfold str_eqb. destruct (list_eq_dec N.eq_dec a b); split;
    congruence || auto.
Qed.

Lemma str_eqb_refl a : str_eqb a a = true.
Proof. now apply str_eqb_eq. Qed.

Lemma str_eqb_neq a b : a <> b -> str_eqb a b = false.
Proof.
  intros H. destruct (str_eqb a b) eqn:E; [|reflexivity].
  apply str_eqb_eq in E. contradiction.
Qed.

Lemma assoc_put_entry_same k n es : assoc k (put_entry k n es) = Some n.
Proof.
  induction es as [|[k' n'] es IH]; simpl.
  - now rewrite str_eqb_refl.
  - destruct (str_eqb k k') eqn:E; simpl.
    + now rewrite str_eqb_refl.
    + now rewrite E.
Qed.

Lemma put_entry_local n : local_change (fun k => put_entry k n).
Proof.
  intros k k' es Hne. induction es as [|[k2 n2] es IH]; simpl.
  - now rewrite (str_eqb_neq _ _ Hne).
  - destruct (str_eqb k k2) eqn:E; simpl.
    + apply str_eqb_eq in E. subst k2. now rewrite (str_eqb_neq _ _ Hne).
    + now rewrite IH.
Qed.

Lemma assoc_remove_key_same k es : assoc k (remove_key k es) = None.
Proof.
  induction es as [|[k' n'] es IH]; simpl; [reflexivity|].
  destruct (str_eqb k k') eqn:E; simpl; [assumption|]. now rewrite E.
Qed.

Lemma remove_key_local : local_change remove_key.
Proof.
  intros k k' es Hne. induction es as [|[k2 n2] es IH]; simpl; [reflexivity|].
  destruct (str_eqb k k2) eqn:E; simpl.
  - apply str_eqb_eq in E. subst k2. now rewrite (str_eqb_neq _ _ Hne).
  - now rewrite IH.
Qed.

Lemma put_entry_same k n es : assoc k es = Some n -> put_entry k n es = es.
Proof.
  induction es as [|[k' n'] es IH]; simpl; [discriminate|].
  destruct (str_eqb k k') eqn:E.
  - intros H; inversion H; subst. apply str_eqb_eq in E. now subst.
  - intros H. now rewrite (IH H).
Qed.

Lemma lookup_app t p q :
  lookup t (p ++ q) =
  match lookup t p with
  | Some n => lookup n q
  | None => None
  end.
Proof.
  revert t; induction p as [|k p IH]; intros t; simpl; [reflexivity|].
  destruct t as [c| |es]; try reflexivity.
  destruct (assoc k es); [apply IH | reflexivity].
Qed.

(** what lies above something that exists is a directory *)
Lemma lookup_prefix_dir t p k r n :
  lookup t (p ++ k :: r) = Some n -> exists es, lookup t p = Some (Dir es).
Proof.
  rewrite lookup_app. destruct (lookup t p) as [[c| |es]|]; simpl;
    try discriminate.
  intros _. now exists es.
Qed.

Lemma lookup_parent t p k n :
  lookup t (p ++ [k]) = Some n -> exists es, lookup t p = Some (Dir es).
Proof. apply lookup_prefix_dir. Qed.

Lemma parent_snoc (p : path) k : parent (p ++ [k]) = p.
Proof. apply removelast_last. Qed.

(** a change at [p] is not seen from the files outside [p] *)
Lemma lookup_update_frame f :
  local_change f ->
  forall p t, keeps_outside p t (update f p t).
Proof.
  intros Hf. induction p as [|k p IH]; intros t q n Hnp Hleaf Hl.
  - exfalso. apply Hnp. now exists q.
  - simpl. destruct t as [c| |es]; try assumption.
    destruct q as [|k2 q].
    { simpl in Hl. inversion Hl; subst n. discriminate. }
    simpl in Hl. destruct (assoc k2 es) as [n2|] eqn:Ha; [|discriminate].
    destruct (list_eq_dec N.eq_dec k2 k) as [->|Hne].
    + destruct p as [|k1 p].
      * exfalso. apply Hnp. now exists q.
      * rewrite Ha. simpl lookup. rewrite assoc_put_entry_same.
        apply IH; try assumption.
        intros [r E]. apply Hnp. exists r. simpl. now rewrite E.
    + destruct p as [|k1 p].
      * simpl. now rewrite (Hf k k2 es Hne), Ha.
      * destruct (assoc k es) as [nk|]; simpl.
        -- now rewrite (put_entry_local _ k k2 es Hne), Ha.
        -- now rewrite Ha.
Qed.

Lemma lookup_cons es k p :
  lookup (Dir es) (k :: p) =
  match assoc k es with
  | Some n => lookup n p
  | None => None
  end.
Proof. reflexivity. Qed.

Lemma update_cons_cons f k k1 r es :
  update f (k :: k1 :: r) (Dir es) =
  match assoc k es with
  | Some n => Dir (put_entry k (update f (k1 :: r) n) es)
  | None => Dir es
  end.
Proof. reflexivity. Qed.

Lemma lookup_remove_same p t : p <> [] -> lookup (remove_at p t) p = None.
Proof.
  revert t; induction p as [|k p IH]; intros t Hne; [contradiction|].
  unfold remove_at in *.
  destruct t as [c| |es]; try reflexivity.
  destruct p as [|k1 p].
  - simpl. now rewrite assoc_remove_key_same.
  - rewrite update_cons_cons. destruct (assoc k es) as [nk|] eqn:Ha.
    + rewrite lookup_cons, assoc_put_entry_same. apply IH. discriminate.
    + now rewrite lookup_cons, Ha.
Qed.

Lemma lookup_write_same p k n : forall t es,
  lookup t p = Some (Dir es) ->
  lookup (write_at (p ++ [k]) n t) (p ++ [k]) = Some n.
Proof.
  unfold write_at. induction p as [|k0 p IH]; intros t es Hl.
  - simpl in Hl. inversion Hl; subst t. simpl.
    now rewrite assoc_put_entry_same.
  - simpl in Hl. destruct t as [c| |es0]; try discriminate.
    destruct (assoc k0 es0) as [n0|] eqn:Ha; [|discriminate].
    specialize (IH n0 es Hl).
    change ((k0 :: p) ++ [k]) with (k0 :: (p ++ [k])).
    destruct (p ++ [k]) as [|k1 r] eqn:E.
    { destruct p; discriminate. }
    rewrite update_cons_cons, Ha, lookup_cons, assoc_put_entry_same.
    exact IH.
Qed.

(** a change in a directory leaves it a directory *)
Lemma update_parent_dir f dir k : forall t es,
  lookup t dir = Some (Dir es) ->
  exists es', lookup (update f (dir ++ [k]) t) dir = Some (Dir es').
Proof.
  induction dir as [|k0 dir IH]; intros t es Hl.
  - simpl in Hl. inversion Hl; subst t. simpl. now eexists.
  - simpl in Hl. destruct t as [c| |es0]; try discriminate.
    destruct (assoc k0 es0) as [n0|] eqn:Ha; [|discriminate].
    destruct (IH n0 es Hl) as [es' He'].
    change ((k0 :: dir) ++ [k]) with (k0 :: (dir ++ [k])).
    destruct (dir ++ [k]) as [|k1 r] eqn:E.
    { destruct dir; discriminate. }
    rewrite update_cons_cons, Ha, lookup_cons, assoc_put_entry_same.
    now exists es'.
Qed.

(** [os.makedirs] of a directory that exists changes nothing *)
Lemma mkdirs_existing full : forall p t es,
  lookup t p = Some (Dir es) -> mkdirs full p t = Return t.
Proof.
  induction p as [|k p IH]; intros t es Hl.
  - simpl in Hl. inversion Hl; subst t. reflexivity.
  - simpl in Hl. destruct t as [c| |es0]; try discriminate.
    destruct (assoc k es0) as [n0|] eqn:Ha; [|discriminate].
    simpl. rewrite Ha, (IH n0 es Hl). now rewrite (put_entry_same _ _ _ Ha).
Qed.

(** [os.makedirs] keeps every file *)
Lemma mkdirs_keeps full : forall p t t',
  mkdirs full p t = Return t' -> keeps t t'.
Proof.
  induction p as [|k p IH]; intros t t' H q n Hleaf Hl.
  - destruct t; simpl in H; try discriminate. inversion H; subst. assumption.
  - destruct t as [c| |es]; simpl in H; try discriminate.
    destruct (mkdirs full p
                (match assoc k es with Some n0 => n0 | None => Dir [] end))
      as [n'|e] eqn:Hm; [|discriminate].
    inversion H; subst t'; clear H.
    destruct q as [|k2 q].
    { simpl in Hl. inversion Hl; subst n. discriminate. }
    simpl in Hl |- *.
    destruct (assoc k2 es) as [n2|] eqn:Ha; [|discriminate].
    destruct (list_eq_dec N.eq_dec k2 k) as [->|Hne].
    + rewrite assoc_put_entry_same. rewrite Ha in Hm.
      exact (IH _ _ Hm q n Hleaf Hl).
    + now rewrite (put_entry_local _ k k2 es Hne), Ha.
Qed.

(** after [os.makedirs] the directory is there *)
Lemma mkdirs_made full : forall p t t',
  mkdirs full p t = Return t' -> exists es, lookup t' p = Some (Dir es).
Proof.
  induction p as [|k p IH]; intros t t' H.
  - destruct t as [c| |es]; simpl in H; try discriminate.
    inversion H; subst. now exists es.
  - destruct t as [c| |es]; simpl in H; try discriminate.
    destruct (mkdirs full p
                (match assoc k es with Some n0 => n0 | None => Dir [] end))
      as [n'|e] eqn:Hm; [|discriminate].
    inversion H; subst t'; clear H. simpl.
    rewrite assoc_put_entry_same. exact (IH _ _ Hm).
Qed.

Lemma keeps_refl fs : keeps fs fs.
Proof. intros q n _ H; exact H. Qed.

Lemma keeps_trans a b c : keeps a b -> keeps b c -> keeps a c.
Proof. intros H1 H2 q n Hn Hl. apply H2, H1; assumption. Qed.

Lemma keeps_outside_refl T fs : keeps_outside T fs fs.
Proof. intros q n _ _ H; exact H. Qed.

Lemma keeps_outside_trans T a b c :
  keeps_outside T a b -> keeps_outside T b c -> keeps_outside T a c.
Proof. intros H1 H2 q n Hp Hn Hl. apply H2, H1; assumption. Qed.

Lemma keeps_keeps_outside T a b : keeps a b -> keeps_outside T a b.
Proof. intros H q n _ Hn Hl. now apply H. Qed.

(** where [T] does not exist, keeping the files outside [T] keeps them all *)
Lemma keeps_outside_fresh T a b :
  lookup a T = None -> keeps_outside T a b -> keeps a b.
Proof.
  intros Hnone H q n Hn Hl. apply H; try assumption.
  intros [r E]. subst q. rewrite lookup_app, Hnone in Hl. discriminate.
Qed.

End FileSystemFacts.

(** ** What a computation does to the file system *)

Section Stays.
Context {A : Type} (R : node -> node -> Prop).
Hypothesis R_refl : forall fs, R fs fs.
Hypothesis R_trans : forall a b c, R a b -> R b c -> R a c.

Lemma stays_ret (a : A) : stays R (ret a).
Proof. intros fs. apply R_refl. Qed.

Lemma stays_raise (e : exn) : stays R (@raise A e).
Proof. intros fs. apply R_refl. Qed.

Lemma stays_lift (r : result A) : stays R (lift r).
Proof. destruct r; [apply stays_ret | apply stays_raise]. Qed.

Lemma stays_bind {B : Type} (m : M B) (k : B -> M A) :
  stays R m -> (forall b, stays R (k b)) -> stays R (bind m k).
Proof.
  intros Hm Hk fs. unfold bind. specialize (Hm fs).
  destruct (res (m fs)) as [b|e]; simpl; [|assumption].
  exact (R_trans _ _ _ Hm (Hk b _)).
Qed.

Lemma stays_try_except (m : M A) (h : exn -> M A) :
  stays R m -> (forall e, stays R (h e)) -> stays R (try_except m h).
Proof.
  intros Hm Hh fs. unfold try_except. specialize (Hm fs).
  destruct (res (m fs)) as [a|e]; simpl; [assumption|].
  exact (R_trans _ _ _ Hm (Hh e _)).
Qed.

End Stays.

Section StaysUnit.
Context (R : node -> node -> Prop).
Hypothesis R_refl : forall fs, R fs fs.

Lemma stays_emit (e : event) : stays R (emit e).
Proof. intros fs. apply R_refl. Qed.

Lemma stays_get_fs : stays R get_fs.
Proof. intros fs. apply R_refl. Qed.

End StaysUnit.

Lemma stays_weaken {A} (R R' : node -> node -> Prop) (m : M A) :
  (forall a b, R a b -> R' a b) -> stays R m -> stays R' m.
Proof. intros H Hm fs. apply H, Hm. Qed.

(** reading: the file system is left as it was *)
Lemma stays_eq_fs {A} (m : M A) fs : stays eq m -> fs_after (m fs) = fs.
Proof. intros H. symmetry. apply H. Qed.

Section Primitives.
Context {P : Platform}.

Lemma eq_trans_fs (a b c : node) : a = b -> b = c -> a = c.
Proof. congruence. Qed.

Lemma open_rb_reads p : stays eq (open_rb p).
Proof.
  intros fs. unfold open_rb, bind, get_fs; simpl.
  destruct (lookup fs p) as [[c| |es]|]; reflexivity.
Qed.

Lemma os_path_exists_reads p : stays eq (os_path_exists p).
Proof. intros fs. reflexivity. Qed.

Lemma scan_items_reads items : stays eq (scan_items items).
Proof.
  induction items as [|[tag v] items IH]; simpl.
  - apply stays_ret; reflexivity.
  - destruct v as [b|]; [|assumption].
    destruct (utf8_decode b) as [d|]; [|assumption].
    destruct (re_search exif_date_pattern d); [|assumption].
    intros fs. reflexivity.
Qed.

Lemma export_exif_data_reads file : stays eq (export_exif_data file).
Proof.
  unfold export_exif_data.
  apply stays_bind; [apply eq_trans_fs | apply open_rb_reads | intros c].
  apply stays_bind; [apply eq_trans_fs | now apply stays_lift | intros im].
  destruct (image_info_exif im) as [[|b bs]|]; try (now apply stays_ret).
  apply stays_bind; [apply eq_trans_fs | now apply stays_lift | intros d].
  now apply stays_ret.
Qed.

Lemma check_exif_reads file : stays eq (check_exif file).
Proof.
  unfold check_exif.
  apply stays_bind; [apply eq_trans_fs | apply export_exif_data_reads|].
  intros [[|item items]|]; try (now apply stays_ret).
  apply scan_items_reads.
Qed.

Lemma parse_filename_to_date_reads file :
  stays eq (parse_filename_to_date file).
Proof.
  unfold parse_filename_to_date.
  destruct (re_search REGEX_FILENAME_DATE (filename file));
    intros fs; reflexivity.
Qed.

Lemma new_image_exif_data_reads file : stays eq (new_image_exif_data file).
Proof.
  unfold new_image_exif_data.
  apply stays_bind; [apply eq_trans_fs | | intros enc].
  { destruct (utf8_encode (parsed_date file)); intros fs; reflexivity. }
  apply stays_bind; [apply eq_trans_fs | now apply stays_emit | intros _].
  apply stays_bind; [apply eq_trans_fs | now apply stays_lift | intros b].
  now apply stays_ret.
Qed.

Lemma Image_open_path_reads p : stays eq (Image_open_path p).
Proof.
  unfold Image_open_path.
  apply stays_bind; [apply eq_trans_fs | apply open_rb_reads | intros c].
  now apply stays_lift.
Qed.

Lemma write_file_outside p c : stays (keeps_outside p) (write_file p c).
Proof.
  intros fs. unfold write_file, bind, get_fs; simpl.
  destruct (lookup fs (parent p)) as [[c0| |es]|]; simpl;
    try apply keeps_outside_refl.
  destruct (lookup fs p) as [[c1| |es1]|]; simpl;
    try apply keeps_outside_refl;
    apply lookup_update_frame, put_entry_local.
Qed.

Lemma os_remove_outside p : stays (keeps_outside p) (os_remove p).
Proof.
  intros fs. unfold os_remove, bind, get_fs; simpl.
  destruct (lookup fs p) as [[c1| |es1]|]; simpl;
    try apply keeps_outside_refl;
    apply lookup_update_frame, remove_key_local.
Qed.

Lemma os_makedirs_keeps p : stays keeps (os_makedirs p).
Proof.
  intros fs. unfold os_makedirs, bind, get_fs; simpl.
  destruct (mkdirs p p fs) as [fs'|e] eqn:H; simpl.
  - exact (mkdirs_keeps _ _ _ _ H).
  - apply keeps_refl.
Qed.

Lemma shutil_copy2_outside src dst :
  stays (keeps_outside dst) (shutil_copy2 src dst).
Proof.
  unfold shutil_copy2.
  apply stays_bind; [apply keeps_outside_trans | | intros c].
  - apply (stays_weaken eq); [intros a b ->; apply keeps_outside_refl|].
    apply open_rb_reads.
  - apply write_file_outside.
Qed.

Lemma Image_save_path_outside img p exif :
  stays (keeps_outside p) (Image_save_path img p exif).
Proof.
  unfold Image_save_path. destruct (Image_save img exif) as [c|e partial].
  - apply write_file_outside.
  - apply stays_bind; [apply keeps_outside_trans | | intros _].
    + destruct partial; [apply write_file_outside|].
      apply stays_ret, keeps_outside_refl.
    + apply stays_raise, keeps_outside_refl.
Qed.

Lemma subprocess_run_outside cmd p :
  stays (keeps_outside p) (subprocess_run cmd p).
Proof.
  unfold subprocess_run.
  apply stays_bind; [apply keeps_outside_trans | | intros _].
  { apply stays_emit, keeps_outside_refl. }
  intros fs. unfold bind at 1, get_fs at 1; simpl.
  assert (Hleave : forall c',
    stays (keeps_outside p)
      (match match lookup fs p with
             | Some (RegFile c) => Some c
             | _ => None
             end with
       | Some _ => write_file p c'
       | None => ret tt
       end)).
  { intros c'. destruct (lookup fs p) as [[c| |es]|];
      try apply write_file_outside; apply stays_ret, keeps_outside_refl. }
  destruct (exiftool cmd _) as [c'|stderr c'|e c'].
  - apply Hleave.
  - apply (stays_bind (keeps_outside p) (keeps_outside_trans p));
      [apply Hleave | intros _; apply stays_raise, keeps_outside_refl].
  - apply (stays_bind (keeps_outside p) (keeps_outside_trans p));
      [apply Hleave | intros _; apply stays_raise, keeps_outside_refl].
Qed.

Lemma write_video_outside file T : stays (keeps_outside T) (write_video file T).
Proof.
  unfold write_video.
  apply stays_bind; [apply keeps_outside_trans | | intros _].
  { apply shutil_copy2_outside. }
  apply stays_try_except; [apply keeps_outside_trans | | intros e].
  - apply stays_bind; [apply keeps_outside_trans | | intros _].
    { apply subprocess_run_outside. }
    apply stays_bind; [apply keeps_outside_trans | | intros _].
    { apply stays_emit, keeps_outside_refl. }
    apply stays_ret, keeps_outside_refl.
  - destruct e; try (apply stays_raise, keeps_outside_refl).
    apply stays_bind; [apply keeps_outside_trans | | intros _].
    { apply stays_emit, keeps_outside_refl. }
    apply stays_bind; [apply keeps_outside_trans | | intros _].
    { apply os_remove_outside. }
    apply stays_ret, keeps_outside_refl.
Qed.

Lemma verify_image_reads file T : stays eq (verify_image file T).
Proof.
  unfold verify_image.
  apply stays_bind; [apply eq_trans_fs | apply check_exif_reads | intros v].
  apply stays_bind; [apply eq_trans_fs | | intros _; now apply stays_ret].
  destruct (negb v); [now apply stays_emit | now apply stays_ret].
Qed.

Lemma write_image_outside file img T :
  stays (keeps_outside T) (write_image file img T).
Proof.
  unfold write_image.
  apply stays_bind; [apply keeps_outside_trans | | intros _].
  { apply Image_save_path_outside. }
  apply stays_bind; [apply keeps_outside_trans | | intros _].
  { apply stays_emit, keeps_outside_refl. }
  apply (stays_weaken eq); [intros a b ->; apply keeps_outside_refl|].
  apply verify_image_reads.
Qed.

End Primitives.

(** ** What a computation emits *)

Section Emits.
Context {A : Type} (Q : event -> Prop).

Lemma emits_ret (a : A) : emits Q (ret a).
Proof. intros fs. constructor. Qed.

Lemma emits_raise (e : exn) : emits Q (@raise A e).
Proof. intros fs. constructor. Qed.

Lemma emits_lift (r : result A) : emits Q (lift r).
Proof. destruct r; [apply emits_ret | apply emits_raise]. Qed.

Lemma emits_bind {B : Type} (m : M B) (k : B -> M A) :
  emits Q m -> (forall b, emits Q (k b)) -> emits Q (bind m k).
Proof.
  intros Hm Hk fs. unfold bind. specialize (Hm fs).
  destruct (res (m fs)) as [b|e]; simpl; [|assumption].
  apply Forall_app. split; [assumption | apply Hk].
Qed.

Lemma emits_try_except (m : M A) (h : exn -> M A) :
  emits Q m -> (forall e, emits Q (h e)) -> emits Q (try_except m h).
Proof.
  intros Hm Hh fs. unfold try_except. specialize (Hm fs).
  destruct (res (m fs)) as [a|e]; simpl; [assumption|].
  apply Forall_app. split; [assumption | apply Hh].
Qed.

End Emits.

Lemma emits_emit (Q : event -> Prop) (e : event) : Q e -> emits Q (emit e).
Proof. intros H fs. now repeat constructor. Qed.

Lemma emits_get_fs (Q : event -> Prop) : emits Q get_fs.
Proof. intros fs. constructor. Qed.

(** running [m] first: the value and file system it leaves, then [k] *)
Lemma bind_Return {A B} (m : M A) (k : A -> M B) fs a fs1 tr1 :
  m fs = Run (Return a) fs1 tr1 -> bind m k fs = prepend tr1 (k a fs1).
Proof. intros H. unfold bind, prepend. now rewrite H. Qed.

Lemma bind_Raise {A B} (m : M A) (k : A -> M B) fs e fs1 tr1 :
  m fs = Run (Raise e) fs1 tr1 -> bind m k fs = Run (Raise e) fs1 tr1.
Proof. intros H. unfold bind. now rewrite H. Qed.

Lemma try_Return {A} (m : M A) (h : exn -> M A) fs a fs1 tr1 :
  m fs = Run (Return a) fs1 tr1 -> try_except m h fs = Run (Return a) fs1 tr1.
Proof. intros H. unfold try_except. now rewrite H. Qed.

Lemma try_Raise {A} (m : M A) (h : exn -> M A) fs e fs1 tr1 :
  m fs = Run (Raise e) fs1 tr1 -> try_except m h fs = prepend tr1 (h e fs1).
Proof. intros H. unfold try_except, prepend. now rewrite H. Qed.

Lemma run_eta {A} (r : run A) : r = Run (res r) (fs_after r) (trace r).
Proof. now destruct r. Qed.

Section EmitsQuiet.
Context {P : Platform}.

Ltac below :=
  repeat first
    [ apply emits_ret | apply emits_raise | apply emits_lift
    | apply emits_get_fs | (apply emits_emit; exact I)
    | (apply emits_bind; [|intros ?]) ].

Lemma open_rb_emits p : emits quiet (open_rb p).
Proof.
  intros fs. unfold open_rb, bind, get_fs; simpl.
  destruct (lookup fs p) as [[c| |es]|]; constructor.
Qed.

Lemma write_file_emits p c : emits quiet (write_file p c).
Proof.
  intros fs. unfold write_file, bind, get_fs; simpl.
  destruct (lookup fs (parent p)) as [[c0| |es]|]; simpl; try constructor.
  destruct (lookup fs p) as [[c1| |es1]|]; simpl; repeat constructor.
Qed.

Lemma os_remove_emits p : emits quiet (os_remove p).
Proof.
  intros fs. unfold os_remove, bind, get_fs; simpl.
  destruct (lookup fs p) as [[c1| |es1]|]; simpl; repeat constructor.
Qed.

Lemma os_makedirs_emits p : emits quiet (os_makedirs p).
Proof.
  intros fs. unfold os_makedirs, bind, get_fs; simpl.
  destruct (mkdirs p p fs); simpl; repeat constructor.
Qed.

Lemma scan_items_emits items : emits quiet (scan_items items).
Proof.
  induction items as [|[tag v] items IH]; simpl; [apply emits_ret|].
  destruct v as [b|]; [|assumption].
  destruct (utf8_decode b) as [d|]; [|assumption].
  destruct (re_search exif_date_pattern d); [|assumption].
  below.
Qed.

Lemma check_exif_emits file : emits quiet (check_exif file).
Proof.
  unfold check_exif, export_exif_data.
  apply emits_bind.
  - apply emits_bind; [apply open_rb_emits | intros c].
    apply emits_bind; [apply emits_lift | intros im].
    destruct (image_info_exif im) as [[|b bs]|]; below.
  - intros [[|item items]|]; try apply emits_ret. apply scan_items_emits.
Qed.

Lemma parse_filename_to_date_emits file :
  emits quiet (parse_filename_to_date file).
Proof.
  unfold parse_filename_to_date.
  destruct (re_search REGEX_FILENAME_DATE (filename file)); below.
Qed.

Lemma new_image_exif_data_emits file :
  emits quiet (new_image_exif_data file).
Proof.
  unfold new_image_exif_data.
  apply emits_bind; [destruct (utf8_encode (parsed_date file)); below|].
  intros enc. below.
Qed.

Lemma Image_open_path_emits p : emits quiet (Image_open_path p).
Proof.
  unfold Image_open_path. apply emits_bind; [apply open_rb_emits|].
  intros c. apply emits_lift.
Qed.

Lemma Image_save_path_emits img p exif :
  emits quiet (Image_save_path img p exif).
Proof.
  unfold Image_save_path. destruct (Image_save img exif) as [c|e partial].
  - apply write_file_emits.
  - apply emits_bind; [|intros _; apply emits_raise].
    destruct partial; [apply write_file_emits | apply emits_ret].
Qed.

Lemma subprocess_run_emits cmd p : emits quiet (subprocess_run cmd p).
Proof.
  unfold subprocess_run. apply emits_bind; [apply emits_emit; exact I|].
  intros _ fs. unfold bind at 1, get_fs at 1; simpl.
  assert (Hleave : forall c',
    emits quiet
      (match match lookup fs p with
             | Some (RegFile c) => Some c
             | _ => None
             end with
       | Some _ => write_file p c'
       | None => ret tt
       end)).
  { intros c'. destruct (lookup fs p) as [[c| |es]|];
      try apply write_file_emits; apply emits_ret. }
  destruct (exiftool cmd _) as [c'|stderr c'|e c'].
  - apply Hleave.
  - apply emits_bind; [apply Hleave | intros _; apply emits_raise].
  - apply emits_bind; [apply Hleave | intros _; apply emits_raise].
Qed.

Lemma verify_image_emits file T : emits quiet (verify_image file T).
Proof.
  unfold verify_image.
  apply emits_bind; [apply check_exif_emits | intros v].
  apply emits_bind; [destruct (negb v); below | intros _; apply emits_ret].
Qed.

Lemma write_image_emits file img T : emits quiet (write_image file img T).
Proof.
  unfold write_image.
  apply emits_bind; [apply Image_save_path_emits | intros _].
  apply emits_bind; [apply emits_emit; exact I | intros _].
  apply verify_image_emits.
Qed.

Lemma quiet_below e : quiet e -> below_spinner e.
Proof. destruct e; simpl; tauto. Qed.

Lemma emits_weaken {A} (Q Q' : event -> Prop) (m : M A) :
  (forall e, Q e -> Q' e) -> emits Q m -> emits Q' m.
Proof.
  intros H Hm fs. specialize (Hm fs).
  induction Hm; constructor; auto.
Qed.

Lemma emits_below {A} (m : M A) : emits quiet m -> emits below_spinner m.
Proof. apply emits_weaken, quiet_below. Qed.

Lemma write_video_emits file T : emits below_spinner (write_video file T).
Proof.
  unfold write_video, shutil_copy2.
  apply emits_bind.
  { apply emits_below.
    apply emits_bind; [apply open_rb_emits | intros c; apply write_file_emits]. }
  intros _. apply emits_try_except.
  - apply emits_bind; [apply emits_below, subprocess_run_emits | intros _].
    apply emits_bind; [apply emits_emit; exact I | intros _; apply emits_ret].
  - intros e. destruct e; try apply emits_raise.
    apply emits_bind; [apply emits_emit; exact I | intros _].
    apply emits_bind; [apply emits_below, os_remove_emits|].
    intros _; apply emits_ret.
Qed.

Lemma with_collision_policy_emits file out ow write :
  (forall T, emits below_spinner (write T)) ->
  emits below_spinner (with_collision_policy file out ow write).
Proof.
  intros Hw. unfold with_collision_policy, os_path_exists.
  apply emits_bind; [apply emits_below, os_makedirs_emits | intros _].
  apply emits_bind.
  { apply emits_bind; [apply emits_get_fs | intros ?; apply emits_ret]. }
  intros found. destruct found; [|apply Hw].
  destruct (negb ow).
  - apply emits_bind; [apply emits_emit; exact I | intros _; apply emits_ret].
  - apply emits_bind; [apply emits_below, os_remove_emits | intros _; apply Hw].
Qed.

Lemma save_video_exif_data_emits file out ow :
  emits below_spinner (save_video_exif_data file out ow).
Proof.
  apply with_collision_policy_emits. intros T. apply write_video_emits.
Qed.

Lemma save_exif_data_emits file img out ow :
  emits below_spinner (save_exif_data file img out ow).
Proof.
  apply with_collision_policy_emits. intros T.
  apply emits_below, write_image_emits.
Qed.

End EmitsQuiet.

(** ** The commit engine *)

Section Engine.
Context {P : Platform}.

Lemma write_file_ok dir k c fs es :
  lookup fs dir = Some (Dir es) ->
  (lookup fs (dir ++ [k]) = None
   \/ exists c0, lookup fs (dir ++ [k]) = Some (RegFile c0)) ->
  write_file (dir ++ [k]) c fs
  = Run (Return tt) (write_at (dir ++ [k]) (RegFile c) fs)
        [FsWrite (dir ++ [k])].
Proof.
  intros Hd Ht. unfold write_file, bind, get_fs; simpl.
  rewrite parent_snoc, Hd. destruct Ht as [-> | [c0 ->]]; reflexivity.
Qed.

Lemma write_file_total p c fs :
  write_file p c fs = Run (Return tt) (write_at p (RegFile c) fs) [FsWrite p]
  \/ exists e, write_file p c fs = Run (Raise e) fs [].
Proof.
  unfold write_file, bind, get_fs; simpl.
  destruct (lookup fs (parent p)) as [[c0| |es]|]; simpl;
    try (right; eexists; reflexivity).
  destruct (lookup fs p) as [[c1| |es1]|]; simpl;
    try (right; eexists; reflexivity); now left.
Qed.

Lemma os_remove_ok p n fs :
  lookup fs p = Some n -> is_dir n = false ->
  os_remove p fs = Run (Return tt) (remove_at p fs) [FsRemove p].
Proof.
  intros Hl Hn. unfold os_remove, bind, get_fs; simpl. rewrite Hl.
  destruct n; try discriminate; reflexivity.
Qed.

Lemma os_makedirs_run p fs :
  os_makedirs p fs =
  match mkdirs p p fs with
  | Return s => Run (Return tt) s [FsMakedirs p]
  | Raise e => Run (Raise e) fs []
  end.
Proof.
  unfold os_makedirs, bind, get_fs; simpl. now destruct (mkdirs p p fs).
Qed.

(** [os.makedirs] puts nothing into the directory it makes *)
Lemma mkdirs_child full k : forall p t t',
  mkdirs full p t = Return t' -> lookup t' (p ++ [k]) = lookup t (p ++ [k]).
Proof.
  induction p as [|k0 p IH]; intros t t' H.
  - destruct t; simpl in H; try discriminate. now inversion H.
  - destruct t as [c| |es]; simpl in H; try discriminate.
    destruct (mkdirs full p
                (match assoc k0 es with Some n0 => n0 | None => Dir [] end))
      as [n'|e] eqn:Hm; [|discriminate].
    inversion H; subst t'; clear H.
    change ((k0 :: p) ++ [k]) with (k0 :: (p ++ [k])).
    rewrite !lookup_cons, assoc_put_entry_same, (IH _ _ Hm).
    destruct (assoc k0 es); [reflexivity|].
    destruct p; reflexivity.
Qed.

(** the target exists and overwrite is not requested: nothing is done *)
Lemma policy_skip file out write fs n :
  lookup fs (target_dir_of file out ++ [filename file]) = Some n ->
  with_collision_policy file out false write fs
  = Run (Return None) fs
        [FsMakedirs (target_dir_of file out);
         DebugAlreadyExists (filename file)].
Proof.
  intros Hl. destruct (lookup_parent _ _ _ _ Hl) as [es Hd].
  unfold with_collision_policy.
  rewrite (bind_Return _ _ _ tt fs [FsMakedirs (target_dir_of file out)]).
  2:{ now rewrite os_makedirs_run, (mkdirs_existing _ _ _ _ Hd). }
  unfold os_path_join, os_path_exists, exists_in, bind, get_fs, prepend;
    simpl.
  now rewrite Hl.
Qed.

(** the target is an existing file and overwrite is requested: it is
    removed, and the write starts without it *)
Lemma policy_overwrite file out write fs n :
  lookup fs (target_dir_of file out ++ [filename file]) = Some n ->
  is_dir n = false ->
  with_collision_policy file out true write fs
  = prepend [FsMakedirs (target_dir_of file out);
             FsRemove (target_dir_of file out ++ [filename file])]
      (write (target_dir_of file out ++ [filename file])
         (remove_at (target_dir_of file out ++ [filename file]) fs)).
Proof.
  intros Hl Hn. destruct (lookup_parent _ _ _ _ Hl) as [es Hd].
  unfold with_collision_policy.
  rewrite (bind_Return _ _ _ tt fs [FsMakedirs (target_dir_of file out)]).
  2:{ now rewrite os_makedirs_run, (mkdirs_existing _ _ _ _ Hd). }
  unfold os_path_join.
  rewrite (bind_Return _ _ _ true fs []).
  2:{ unfold os_path_exists, exists_in, bind, get_fs; simpl. now rewrite Hl. }
  cbv beta iota. cbn [negb]. cbv iota.
  rewrite (bind_Return _ _ _ tt _ _ (os_remove_ok _ _ _ Hl Hn)).
  unfold prepend; simpl. reflexivity.
Qed.

(** no target yet: the directories are made and the write starts *)
Lemma policy_fresh file out ow write fs s :
  lookup fs (target_dir_of file out ++ [filename file]) = None ->
  mkdirs (target_dir_of file out) (target_dir_of file out) fs = Return s ->
  with_collision_policy file out ow write fs
  = prepend [FsMakedirs (target_dir_of file out)]
      (write (target_dir_of file out ++ [filename file]) s)
  /\ lookup s (target_dir_of file out ++ [filename file]) = None
  /\ exists es, lookup s (target_dir_of file out) = Some (Dir es).
Proof.
  intros Hl Hm.
  assert (Hs : lookup s (target_dir_of file out ++ [filename file]) = None).
  { now rewrite (mkdirs_child _ _ _ _ _ Hm). }
  split; [|split; [assumption | exact (mkdirs_made _ _ _ _ Hm)]].
  unfold with_collision_policy.
  rewrite (bind_Return _ _ _ tt s [FsMakedirs (target_dir_of file out)]).
  2:{ now rewrite os_makedirs_run, Hm. }
  unfold os_path_join.
  rewrite (bind_Return _ _ _ false s []).
  2:{ unfold os_path_exists, exists_in, bind, get_fs; simpl. now rewrite Hs. }
  unfold prepend; simpl. reflexivity.
Qed.

Lemma policy_no_directory file out ow write fs e :
  mkdirs (target_dir_of file out) (target_dir_of file out) fs = Raise e ->
  with_collision_policy file out ow write fs = Run (Raise e) fs [].
Proof.
  intros Hm. unfold with_collision_policy.
  apply bind_Raise. now rewrite os_makedirs_run, Hm.
Qed.

Lemma policy_target_is_directory file out write fs es :
  lookup fs (target_dir_of file out ++ [filename file]) = Some (Dir es) ->
  with_collision_policy file out true write fs
  = Run (Raise (IsADirectoryError
                  (target_dir_of file out ++ [filename file])))
        fs [FsMakedirs (target_dir_of file out)].
Proof.
  intros Hl. destruct (lookup_parent _ _ _ _ Hl) as [es' Hd].
  unfold with_collision_policy.
  rewrite (bind_Return _ _ _ tt fs [FsMakedirs (target_dir_of file out)]).
  2:{ now rewrite os_makedirs_run, (mkdirs_existing _ _ _ _ Hd). }
  unfold os_path_join.
  rewrite (bind_Return _ _ _ true fs []).
  2:{ unfold os_path_exists, exists_in, bind, get_fs; simpl. now rewrite Hl. }
  cbv beta iota. cbn [negb]. cbv iota.
  rewrite (bind_Raise _ _ _ (IsADirectoryError
             (target_dir_of file out ++ [filename file])) fs []).
  2:{ unfold os_remove, bind, get_fs; simpl. now rewrite Hl. }
  reflexivity.
Qed.

Lemma save_exif_data_policy file img out ow :
  save_exif_data file img out ow
  = with_collision_policy file out ow (write_image file img).
Proof. reflexivity. Qed.

Lemma save_video_exif_data_policy file out ow :
  save_video_exif_data file out ow
  = with_collision_policy file out ow (write_video file).
Proof. reflexivity. Qed.

End Engine.

Section CollisionPolicy.
Context {P : Platform}.

(** C4.  When the target file path exists and overwrite is not requested,
    both save functions return nothing, log that the file exists already
    (the outcome skipped-destination-exists) and leave the file system as
    it was: nothing is written or removed.  When it exists as a file and
    overwrite is requested, both remove it first, and their write starts
    from a file system in which the target is gone.  Both are the same
    collision policy around their own write. *)
Theorem C4_collision_policy (file : File) (img : image) (out : path)
    (fs : node) (n : node) :
  lookup fs (target_dir_of file out ++ [filename file]) = Some n ->
  (save_exif_data file img out false fs
   = Run (Return None) fs
         [FsMakedirs (target_dir_of file out);
          DebugAlreadyExists (filename file)]
   /\ save_video_exif_data file out false fs
      = Run (Return None) fs
            [FsMakedirs (target_dir_of file out);
             DebugAlreadyExists (filename file)]
   /\ outcome_of [FsMakedirs (target_dir_of file out);
                  DebugAlreadyExists (filename file)]
      = Some skipped_destination_exists)
  /\ (is_dir n = false ->
      lookup (remove_at (target_dir_of file out ++ [filename file]) fs)
             (target_dir_of file out ++ [filename file]) = None
      /\ save_exif_data file img out true fs
         = prepend [FsMakedirs (target_dir_of file out);
                    FsRemove (target_dir_of file out ++ [filename file])]
             (write_image file img
                (target_dir_of file out ++ [filename file])
                (remove_at (target_dir_of file out ++ [filename file]) fs))
      /\ save_video_exif_data file out true fs
         = prepend [FsMakedirs (target_dir_of file out);
                    FsRemove (target_dir_of file out ++ [filename file])]
             (write_video file
                (target_dir_of file out ++ [filename file])
                (remove_at (target_dir_of file out ++ [filename file]) fs)))
  /\ (forall ow,
        save_exif_data file img out ow
        = with_collision_policy file out ow (write_image file img)
        /\ save_video_exif_data file out ow
           = with_collision_policy file out ow (write_video file)).
Proof.
  intros Hl. split; [|split].
  - rewrite save_exif_data_policy, save_video_exif_data_policy.
    rewrite !(policy_skip _ _ _ _ _ Hl). now repeat split.
  - intros Hn. split.
    + apply lookup_remove_same. now destruct (target_dir_of file out).
    + rewrite save_exif_data_policy, save_video_exif_data_policy.
      rewrite !(policy_overwrite _ _ _ _ _ Hl Hn). now split.
  - intros ow. split; reflexivity.
Qed.

End CollisionPolicy.

Lemma C4_collision_policy_witness :
  @save_exif_data Demo.std
    (Demo.in_file "IMG-20230415-WA0001.jpg" "jpg") [] [u "out"] false Demo.fs1
  = Run (Return None) Demo.fs1
        [FsMakedirs [u "out"];
         DebugAlreadyExists (u "IMG-20230415-WA0001.jpg")]
  /\ lookup (remove_at [u "out"; u "IMG-20230415-WA0001.jpg"] Demo.fs1)
            [u "out"; u "IMG-20230415-WA0001.jpg"] = None.
Proof.
  destruct (@C4_collision_policy Demo.std
              (Demo.in_file "IMG-20230415-WA0001.jpg" "jpg") [] [u "out"]
              Demo.fs1
              (RegFile (Demo.SOI
                        ++ list_byte_of_string "2023:04:15 00:00:00"))
              eq_refl) as [[H1 _] [H2 _]].
  split; [exact H1|]. exact (proj1 (H2 eq_refl)).
Defined.

(** ** Outcomes *)

Section Outcomes.

Lemma reports_app p a b : reports p (a ++ b) = reports p a || reports p b.
Proof. apply existsb_app. Qed.

Lemma reports_none p (Q : event -> Prop) tr :
  (forall e, Q e -> p e = false) -> Forall Q tr -> reports p tr = false.
Proof.
  intros H F. induction F as [|e tr He _ IH]; [reflexivity|].
  simpl. now rewrite (H e He), IH.
Qed.

Lemma quiet_reports_nothing tr :
  Forall quiet tr ->
  reports is_failure tr = false /\ reports is_success tr = false
  /\ reports is_exists tr = false /\ reports is_no_tool tr = false
  /\ reports is_no_date tr = false /\ reports is_has_metadata tr = false.
Proof.
  intros F.
  repeat split; apply (reports_none _ quiet); try assumption;
    intros e; destruct e; simpl; tauto.
Qed.

Lemma below_spinner_reports tr :
  Forall below_spinner tr ->
  reports is_success tr = false /\ reports is_no_tool tr = false
  /\ reports is_no_date tr = false /\ reports is_has_metadata tr = false.
Proof.
  intros F.
  repeat split; apply (reports_none _ below_spinner); try assumption;
    intros e; destruct e; simpl; tauto.
Qed.

Lemma reports_In p e tr : In e tr -> p e = true -> reports p tr = true.
Proof. intros Hin He. apply existsb_exists. now exists e. Qed.

(** quiet events change no outcome *)
Lemma outcome_of_quiet_l tr tr' :
  Forall quiet tr -> outcome_of (tr ++ tr') = outcome_of tr'.
Proof.
  intros F. destruct (quiet_reports_nothing tr F) as [H1 [H2 [H3 [H4 [H5 H6]]]]].
  unfold outcome_of. rewrite !reports_app, H1, H2, H3, H4, H5, H6.
  reflexivity.
Qed.

Lemma outcome_of_quiet_r tr tr' :
  Forall quiet tr' -> outcome_of (tr ++ tr') = outcome_of tr.
Proof.
  intros F. destruct (quiet_reports_nothing tr' F) as [H1 [H2 [H3 [H4 [H5 H6]]]]].
  unfold outcome_of. rewrite !reports_app, H1, H2, H3, H4, H5, H6.
  now rewrite !orb_false_r.
Qed.

Lemma outcome_of_cons_quiet e tr :
  quiet e -> outcome_of (e :: tr) = outcome_of tr.
Proof.
  intros He. apply (outcome_of_quiet_l [e] tr). now repeat constructor.
Qed.


(** without the success line the outcome is not [written] *)
Lemma outcome_of_not_written tr :
  reports is_success tr = false -> outcome_of tr <> Some written.
Proof.
  intros H. unfold outcome_of. rewrite H.
  repeat match goal with
         | |- context [if ?b then _ else _] => destruct b
         end; discriminate.
Qed.

Lemma outcome_of_written tr :
  outcome_of tr = Some written ->
  reports is_failure tr = false /\ reports is_success tr = true.
Proof.
  unfold outcome_of. destruct (reports is_failure tr); [discriminate|].
  destruct (reports is_success tr); [now split|].
  repeat match goal with
         | |- context [if ?b then _ else _] => destruct b
         end; discriminate.
Qed.

End Outcomes.

(** ** The two writes *)

Section Writes.
Context {P : Platform}.

(** a write succeeds exactly where the parent is a directory and the path is
    free or a regular file; otherwise it raises and changes nothing *)
Lemma write_file_cases p c fs :
  (exists dir k es,
     p = dir ++ [k] /\ lookup fs dir = Some (Dir es)
     /\ (lookup fs p = None \/ exists c0, lookup fs p = Some (RegFile c0))
     /\ write_file p c fs
        = Run (Return tt) (write_at p (RegFile c) fs) [FsWrite p])
  \/ exists e, write_file p c fs = Run (Raise e) fs [].
Proof.
  destruct p as [|k0 p0] using rev_ind.
  - right. unfold write_file, bind, get_fs; simpl.
    destruct fs; eexists; reflexivity.
  - clear IHp0. unfold write_file, bind, get_fs; simpl.
    rewrite parent_snoc.
    destruct (lookup fs p0) as [[c0| |es]|] eqn:Hd; simpl;
      try (right; eexists; reflexivity).
    destruct (lookup fs (p0 ++ [k0])) as [[c1| |es1]|] eqn:Ht; simpl;
      try (right; eexists; reflexivity); left; exists p0, k0, es.
    + split; [reflexivity|]. split; [assumption|].
      split; [right; now exists c1 | reflexivity].
    + split; [reflexivity|]. split; [assumption|].
      split; [now left | reflexivity].
Qed.

Lemma open_rb_cases p fs :
  (exists c, lookup fs p = Some (RegFile c)
             /\ open_rb p fs = Run (Return c) fs [])
  \/ exists e, open_rb p fs = Run (Raise e) fs [].
Proof.
  unfold open_rb, bind, get_fs; simpl.
  destruct (lookup fs p) as [[c| |es]|]; simpl;
    try (right; eexists; reflexivity).
  left. now exists c.
Qed.

(** the tool on a copy that is there *)
Lemma subprocess_run_on_copy cmd dir k s1 c :
  lookup s1 (dir ++ [k]) = Some (RegFile c) ->
  subprocess_run cmd (dir ++ [k]) s1 =
  match exiftool cmd (Some c) with
  | ToolOk c' =>
      Run (Return tt) (write_at (dir ++ [k]) (RegFile c') s1)
          [RunTool cmd; FsWrite (dir ++ [k])]
  | ToolExit stderr c' =>
      Run (Raise (CalledProcessError stderr))
          (write_at (dir ++ [k]) (RegFile c') s1)
          [RunTool cmd; FsWrite (dir ++ [k])]
  | ToolError e c' =>
      Run (Raise e) (write_at (dir ++ [k]) (RegFile c') s1)
          [RunTool cmd; FsWrite (dir ++ [k])]
  end.
Proof.
  intros Hl. destruct (lookup_parent _ _ _ _ Hl) as [es Hd].
  assert (Hw : forall c',
            write_file (dir ++ [k]) c' s1
            = Run (Return tt) (write_at (dir ++ [k]) (RegFile c') s1)
                  [FsWrite (dir ++ [k])]).
  { intros c'. apply (write_file_ok _ _ _ _ es Hd). right. now exists c. }
  unfold subprocess_run, bind at 1, emit at 1. simpl. rewrite Hl.
  destruct (exiftool cmd (Some c)) as [c'|stderr c'|e c'].
  - now rewrite Hw.
  - unfold bind. rewrite Hw. reflexivity.
  - unfold bind. rewrite Hw. reflexivity.
Qed.

(** [write_video] where the source is a regular file, the target directory
    is there and the target is free or a regular file *)
Lemma write_video_run file dir k s c es :
  lookup s dir = Some (Dir es) ->
  (lookup s (dir ++ [k]) = None
   \/ exists c0, lookup s (dir ++ [k]) = Some (RegFile c0)) ->
  lookup s (file_path file) = Some (RegFile c) ->
  write_video file (dir ++ [k]) s
  = prepend [FsWrite (dir ++ [k])]
      (after_copy file (dir ++ [k]) c
         (write_at (dir ++ [k]) (RegFile c) s)).
Proof.
  intros Hd Ht Hsrc. unfold write_video.
  rewrite (bind_Return _ _ _ tt (write_at (dir ++ [k]) (RegFile c) s)
             [FsWrite (dir ++ [k])]).
  2:{ unfold shutil_copy2.
      rewrite (bind_Return _ _ _ c s []).
      - unfold prepend. now rewrite (write_file_ok _ _ _ _ es Hd Ht).
      - unfold open_rb, bind, get_fs; simpl. now rewrite Hsrc. }
  f_equal.
  pose proof (lookup_write_same dir k (RegFile c) s es Hd) as H1.
  destruct (lookup_parent _ _ _ _ H1) as [es1 Hd1].
  pose proof (subprocess_run_on_copy (exiftool_cmd file (dir ++ [k]))
                _ _ _ _ H1) as Hsub.
  assert (Hclean : forall (stderr : str) (c' : bytes),
    (emit (ErrorExiftoolFailed stderr) ;;
     os_remove (dir ++ [k]) ;; ret (@None File))
      (write_at (dir ++ [k]) (RegFile c')
         (write_at (dir ++ [k]) (RegFile c) s))
    = Run (Return None)
        (remove_at (dir ++ [k])
           (write_at (dir ++ [k]) (RegFile c')
              (write_at (dir ++ [k]) (RegFile c) s)))
        [ErrorExiftoolFailed stderr; FsRemove (dir ++ [k])]).
  { intros stderr c'.
    pose proof (os_remove_ok (dir ++ [k]) (RegFile c') _
                  (lookup_write_same dir k (RegFile c') _ es1 Hd1) eq_refl)
      as Hr.
    unfold bind, emit. cbn [res fs_after trace]. rewrite Hr. reflexivity. }
  unfold after_copy. revert Hsub.
  destruct (exiftool (exiftool_cmd file (dir ++ [k])) (Some c))
    as [c'|stderr c'|e c']; intros Hsub.
  - apply try_Return. now rewrite (bind_Return _ _ _ _ _ _ Hsub).
  - rewrite (try_Raise _ _ _ _ _ _ (bind_Raise _ _ _ _ _ _ Hsub)).
    now rewrite Hclean.
  - rewrite (try_Raise _ _ _ _ _ _ (bind_Raise _ _ _ _ _ _ Hsub)).
    destruct e; try reflexivity. now rewrite Hclean.
Qed.

(** [write_video] in general: the copy fails and nothing changes, or the
    copy is made and the tool runs on it *)
Lemma write_video_cases file T s :
  (exists e, write_video file T s = Run (Raise e) s [])
  \/ exists c dir k es,
       T = dir ++ [k] /\ lookup s dir = Some (Dir es)
       /\ lookup s (file_path file) = Some (RegFile c)
       /\ write_video file T s
          = prepend [FsWrite T]
              (after_copy file T c (write_at T (RegFile c) s)).
Proof.
  destruct (open_rb_cases (file_path file) s) as [[c [Hsrc Ho]]|[e Ho]].
  2:{ left. exists e. unfold write_video, shutil_copy2.
      apply bind_Raise. now apply bind_Raise. }
  destruct (write_file_cases T c s) as [[dir [k [es [-> [Hd [Ht Hw]]]]]]|[e Hw]].
  - right. exists c, dir, k, es. split; [reflexivity|].
    split; [assumption|]. split; [assumption|].
    now apply (write_video_run file dir k s c es).
  - left. exists e. unfold write_video, shutil_copy2.
    apply bind_Raise. rewrite (bind_Return _ _ _ c s [] Ho).
    unfold prepend. now rewrite Hw.
Qed.

(** the verification, from the answer of the presence check *)
Lemma verify_image_run file T s :
  verify_image file T s =
  let saved := mkFile (filename file) T (Some T) (extension file) [] [] [] in
  let r := check_exif saved s in
  match res r with
  | Return false =>
      Run (Return (Some file)) s (trace r ++ [WarningVerificationFailed T])
  | Return true => Run (Return (Some file)) s (trace r)
  | Raise e => Run (Raise e) s (trace r)
  end.
Proof.
  unfold verify_image. cbv zeta.
  set (saved := mkFile (filename file) T (Some T) (extension file) [] [] []).
  pose proof (stays_eq_fs _ s (check_exif_reads saved)) as Hfs.
  unfold bind at 1. rewrite Hfs.
  destruct (res (check_exif saved s)) as [[|]|e]; simpl.
  - now rewrite app_nil_r.
  - reflexivity.
  - reflexivity.
Qed.

(** [write_image] where the codec saves and the file can be written *)
Lemma write_image_run file img dir k s content es :
  lookup s dir = Some (Dir es) ->
  (lookup s (dir ++ [k]) = None
   \/ exists c0, lookup s (dir ++ [k]) = Some (RegFile c0)) ->
  Image_save img (exif_bytes file) = SaveOk content ->
  write_image file img (dir ++ [k]) s
  = prepend [FsWrite (dir ++ [k]); DebugImageSaved (dir ++ [k])]
      (verify_image (set_new_file_path file (dir ++ [k])) (dir ++ [k])
         (write_at (dir ++ [k]) (RegFile content) s)).
Proof.
  intros Hd Ht Hs. unfold write_image.
  rewrite (bind_Return _ _ _ tt (write_at (dir ++ [k]) (RegFile content) s)
             [FsWrite (dir ++ [k])]).
  2:{ unfold Image_save_path. rewrite Hs.
      now apply (write_file_ok _ _ _ _ es). }
  unfold bind at 1, emit at 1, prepend; simpl. reflexivity.
Qed.

(** [write_image] in general: without the line "Image saved" it raised;
    with it, the codec saved and the file was written *)
Lemma write_image_cases file img T s :
  (exists e s' tr,
     write_image file img T s = Run (Raise e) s' tr
     /\ (forall p, ~ In (DebugImageSaved p) tr) /\ keeps_outside T s s')
  \/ exists content dir k es,
       T = dir ++ [k] /\ lookup s dir = Some (Dir es)
       /\ Image_save img (exif_bytes file) = SaveOk content
       /\ write_image file img T s
          = prepend [FsWrite T; DebugImageSaved T]
              (verify_image (set_new_file_path file T) T
                 (write_at T (RegFile content) s)).
Proof.
  destruct (Image_save img (exif_bytes file)) as [content|e partial] eqn:Hs.
  - destruct (write_file_cases T content s)
      as [[dir [k [es [-> [Hd [Ht Hw]]]]]]|[e Hw]].
    + right. exists content, dir, k, es. split; [reflexivity|].
      split; [assumption|]. split; [reflexivity|].
      now apply (write_image_run file img dir k s content es).
    + left. exists e, s, []. split; [|split; [intros p [] |]].
      * unfold write_image. apply bind_Raise.
        unfold Image_save_path. now rewrite Hs.
      * apply keeps_outside_refl.
  - left. unfold write_image, Image_save_path. rewrite Hs.
    destruct partial as [c|].
    + destruct (write_file_cases T c s)
        as [[dir [k [es [-> [Hd [Ht Hw]]]]]]|[e' Hw]].
      * exists e, (write_at (dir ++ [k]) (RegFile c) s), [FsWrite (dir ++ [k])].
        split; [|split].
        -- apply bind_Raise. unfold bind. rewrite Hw. reflexivity.
        -- intros p [H|[]]. discriminate.
        -- apply lookup_update_frame, put_entry_local.
      * exists e', s, []. split; [|split; [intros p [] |]].
        -- apply bind_Raise. apply bind_Raise. exact Hw.
        -- apply keeps_outside_refl.
    + exists e, s, []. split; [|split; [intros p [] |]].
      * reflexivity.
      * apply keeps_outside_refl.
Qed.

End Writes.

(** ** One file through the pipeline *)

Section ProcessFile.
Context {P : Platform}.

(** the parser always returns, reads nothing, and keeps the other fields *)
Lemma parse_run file :
  exists file' tr,
    (forall fs, parse_filename_to_date file fs = Run (Return file') fs tr)
    /\ Forall quiet tr
    /\ (forall e, In e tr -> exists d, e = DebugParsedDate d)
    /\ filename file' = filename file
    /\ extension file' = extension file
    /\ file_path file' = file_path file
    /\ relative_dir file' = relative_dir file.
Proof.
  unfold parse_filename_to_date.
  destruct (re_search REGEX_FILENAME_DATE (filename file)) as [dm|].
  - eexists _, [_]. split; [intros fs; reflexivity|].
    split; [repeat constructor|].
    split; [intros e [<-|[]]; now eexists|]. now repeat split.
  - exists file, []. split; [intros fs; reflexivity|].
    split; [constructor|]. split; [intros e []|]. now repeat split.
Qed.

(** the synthesizer reads nothing *)
Lemma new_image_exif_data_run file :
  exists r tr,
    (forall fs, new_image_exif_data file fs = Run r fs tr)
    /\ Forall quiet tr
    /\ (forall e, In e tr -> exists d, e = DebugExifDataCreated d)
    /\ forall fe, r = Return fe ->
         filename (fst fe) = filename file
         /\ relative_dir (fst fe) = relative_dir file
         /\ parsed_date (fst fe) = parsed_date file
         /\ extension (fst fe) = extension file.
Proof.
  unfold new_image_exif_data.
  destruct (utf8_encode (parsed_date file)) as [enc|].
  - destruct (piexif_dump_Exif
                [(DateTimeOriginal, ExifBytes enc);
                 (DateTimeDigitized, ExifBytes enc)]) as [b|e] eqn:Hd.
    + exists (Return (set_exif_bytes file b, b)),
             [DebugExifDataCreated (parsed_date file)].
      split.
      { intros fs. unfold bind, emit, ret, lift; simpl. rewrite Hd.
        reflexivity. }
      split; [repeat constructor|].
      split; [intros e [<-|[]]; now eexists|].
      intros fe E. inversion E; subst fe. now repeat split.
    + exists (Raise e), [DebugExifDataCreated (parsed_date file)].
      split.
      { intros fs. unfold bind, emit, ret, lift; simpl. rewrite Hd.
        reflexivity. }
      split; [repeat constructor|].
      split; [intros e' [<-|[]]; now eexists|].
      intros fe E. discriminate.
  - exists (Raise (UnicodeEncodeError (parsed_date file))), [].
    split; [intros fs; reflexivity|].
    split; [constructor|]. split; [intros e []|].
    intros fe E. discriminate.
Qed.

(** the presence check logs only the dates it finds *)
Lemma scan_items_found items :
  emits (fun e => exists v, e = DebugFoundExifDate v) (scan_items items).
Proof.
  induction items as [|[tag v] items IH]; simpl; [apply emits_ret|].
  destruct v as [b|]; [|assumption].
  destruct (utf8_decode b) as [d|]; [|assumption].
  destruct (re_search exif_date_pattern d); [|assumption].
  apply emits_bind; [apply emits_emit; now eexists|].
  intros _. apply emits_ret.
Qed.

Lemma check_exif_found file fs e :
  In e (trace (check_exif file fs)) -> exists v, e = DebugFoundExifDate v.
Proof.
  assert (H : emits (fun e => exists v, e = DebugFoundExifDate v)
                    (check_exif file)).
  { unfold check_exif, export_exif_data.
    apply emits_bind.
    - apply emits_bind.
      { intros s. unfold open_rb, bind, get_fs; simpl.
        destruct (lookup s (file_path file)) as [[c| |es]|]; constructor. }
      intros c. apply emits_bind; [apply emits_lift | intros im].
      destruct (image_info_exif im) as [[|b bs]|]; try apply emits_ret.
      apply emits_bind; [apply emits_lift | intros d; apply emits_ret].
    - intros [[|item items]|]; try apply emits_ret. apply scan_items_found. }
  specialize (H fs). rewrite Forall_forall in H. apply H.
Qed.

(** the presence check sees the file system only through the file *)
Lemma scan_items_same items a b :
  res (scan_items items a) = res (scan_items items b)
  /\ trace (scan_items items a) = trace (scan_items items b).
Proof.
  induction items as [|[tag v] items IH]; simpl; [now split|].
  destruct v as [bs|]; [|assumption].
  destruct (utf8_decode bs) as [d|]; [|assumption].
  destruct (re_search exif_date_pattern d); [now split | assumption].
Qed.

Lemma check_exif_same file a b :
  lookup a (file_path file) = lookup b (file_path file) ->
  res (check_exif file a) = res (check_exif file b)
  /\ trace (check_exif file a) = trace (check_exif file b).
Proof.
  intros H. unfold check_exif, export_exif_data, open_rb, bind, get_fs; simpl.
  rewrite H. destruct (lookup b (file_path file)) as [[c| |es]|]; simpl;
    try now split.
  destruct (Image_open c) as [im|e]; simpl; [|now split].
  destruct (image_info_exif im) as [[|b0 bl]|]; simpl; try now split.
  destruct (piexif_load_Exif (b0 :: bl)) as [[|item items]|e]; simpl;
    try now split.
  exact (scan_items_same (item :: items) a b).
Qed.

Lemma check_exif_run file fs :
  check_exif file fs
  = Run (res (check_exif file fs)) fs (trace (check_exif file fs)).
Proof.
  rewrite (run_eta (check_exif file fs)) at 1.
  now rewrite (stays_eq_fs _ fs (check_exif_reads file)).
Qed.

(** a video through [process_file] *)
Lemma process_video file args fs file' tr :
  str_in (extension file) VIDEO_EXT = true ->
  (forall s, parse_filename_to_date file s = Run (Return file') s tr) ->
  process_file file args fs =
  match parsed_date file' with
  | [] => Run (Return tt) fs (tr ++ [WarnNoDate (filename file')])
  | _ :: _ =>
      if which_exiftool
      then prepend tr
             (bind (save_video_exif_data file' (output_path args)
                      (overwrite args))
                   (report file') fs)
      else Run (Return tt) fs (tr ++ [FailNoExiftool (filename file')])
  end.
Proof.
  intros Hv Hp. unfold process_file. rewrite Hv. simpl negb. cbv iota.
  rewrite (bind_Return _ _ _ false fs []); [|reflexivity].
  cbv beta iota.
  rewrite (bind_Return _ _ _ _ _ _ (Hp fs)).
  unfold check_exiftool.
  destruct (parsed_date file') as [|d0 d]; [reflexivity|].
  destruct which_exiftool; reflexivity.
Qed.

(** an image through [process_file], as far as the save function *)
Lemma process_image file args fs file' tr :
  str_in (extension file) VIDEO_EXT = false ->
  (forall s, parse_filename_to_date file s = Run (Return file') s tr) ->
  process_file file args fs =
  let rc := check_exif file fs in
  match res rc with
  | Raise e => Run (Raise e) fs (trace rc)
  | Return true =>
      Run (Return tt) fs (trace rc ++ [InfoHasExifDate (filename file)])
  | Return false =>
      match parsed_date file' with
      | [] =>
          Run (Return tt) fs
              (trace rc ++ tr ++ [WarnNoDate (filename file')])
      | _ :: _ =>
          prepend (trace rc ++ tr)
            (bind (Image_open_path (file_path file'))
               (fun im =>
                  bind (new_image_exif_data file')
                    (fun fe =>
                       bind (save_exif_data (fst fe) im (output_path args)
                               (overwrite args))
                            (report (fst fe)))) fs)
      end
  end.
Proof.
  intros Hv Hp. unfold process_file. rewrite Hv. simpl negb. cbv iota zeta.
  pose proof (check_exif_run file fs) as Hc.
  destruct (res (check_exif file fs)) as [[|]|e].
  - now rewrite (bind_Return _ _ _ _ _ _ Hc).
  - rewrite (bind_Return _ _ _ _ _ _ Hc). cbv beta iota.
    rewrite (bind_Return _ _ _ _ _ _ (Hp fs)).
    destruct (parsed_date file') as [|d0 d].
    + unfold prepend, emit. cbn [res fs_after trace]. reflexivity.
    + unfold prepend. cbn [res fs_after trace]. now rewrite app_assoc.
  - now rewrite (bind_Raise _ _ _ _ _ _ Hc).
Qed.

End ProcessFile.

(** ** The save functions, case by case *)

Section SaveCases.
Context {P : Platform}.

(** the ways through the collision policy *)
Lemma policy_cases file out ow write fs :
  (exists e tr,
     with_collision_policy file out ow write fs = Run (Raise e) fs tr
     /\ (tr = [] \/ tr = [FsMakedirs (target_dir_of file out)]))
  \/ (ow = false
      /\ (exists n,
            lookup fs (target_dir_of file out ++ [filename file]) = Some n)
      /\ with_collision_policy file out ow write fs
         = Run (Return None) fs
               [FsMakedirs (target_dir_of file out);
                DebugAlreadyExists (filename file)])
  \/ (ow = true
      /\ (exists n,
            lookup fs (target_dir_of file out ++ [filename file]) = Some n
            /\ is_dir n = false)
      /\ with_collision_policy file out ow write fs
         = prepend [FsMakedirs (target_dir_of file out);
                    FsRemove (target_dir_of file out ++ [filename file])]
             (write (target_dir_of file out ++ [filename file])
                (remove_at (target_dir_of file out ++ [filename file]) fs)))
  \/ (exists s,
        lookup fs (target_dir_of file out ++ [filename file]) = None
        /\ mkdirs (target_dir_of file out) (target_dir_of file out) fs
           = Return s
        /\ lookup s (target_dir_of file out ++ [filename file]) = None
        /\ (exists es, lookup s (target_dir_of file out) = Some (Dir es))
        /\ with_collision_policy file out ow write fs
           = prepend [FsMakedirs (target_dir_of file out)]
               (write (target_dir_of file out ++ [filename file]) s)).
Proof.
  destruct (lookup fs (target_dir_of file out ++ [filename file]))
    as [n|] eqn:Hl.
  - destruct ow.
    + destruct (is_dir n) eqn:Hn.
      * left. destruct n as [c| |es]; try discriminate.
        eexists _, _. split;
          [exact (policy_target_is_directory _ _ _ _ _ Hl) | now right].
      * right. right. left. split; [reflexivity|].
        split; [now exists n|]. exact (policy_overwrite _ _ _ _ _ Hl Hn).
    + right. left. split; [reflexivity|]. split; [now exists n|].
      exact (policy_skip _ _ _ _ _ Hl).
  - destruct (mkdirs (target_dir_of file out) (target_dir_of file out) fs)
      as [s|e] eqn:Hm.
    + right. right. right. exists s.
      destruct (policy_fresh file out ow write fs s Hl Hm) as [H1 [H2 H3]].
      now repeat split.
    + left. exists e, []. split; [|now left].
      exact (policy_no_directory _ _ _ _ _ _ Hm).
Qed.

Lemma after_copy_Some file T c s1 f2 :
  res (after_copy file T c s1) = Return (Some f2) ->
  exists c',
    exiftool (exiftool_cmd file T) (Some c) = ToolOk c'
    /\ fs_after (after_copy file T c s1) = write_at T (RegFile c') s1.
Proof.
  unfold after_copy.
  destruct (exiftool (exiftool_cmd file T) (Some c)) as [c'|stderr c'|e c'];
    simpl; try discriminate.
  - intros _. now exists c'.
  - destruct e; simpl; discriminate.
Qed.

(** the save function for videos: the tool is not run and no file is
    reported, or the copy is made and the tool runs on it *)
Lemma save_video_cases file out ow fs :
  (exists rr s' tr,
     save_video_exif_data file out ow fs = Run rr s' tr
     /\ (forall f2, rr <> Return (Some f2))
     /\ forall cmd, ~ In (RunTool cmd) tr)
  \/ exists s c pre,
       (pre = [FsMakedirs (target_dir_of file out)]
        /\ lookup fs (target_dir_of file out ++ [filename file]) = None
        \/ pre = [FsMakedirs (target_dir_of file out);
                  FsRemove (target_dir_of file out ++ [filename file])]
           /\ ow = true)
       /\ lookup s (target_dir_of file out ++ [filename file]) = None
       /\ (exists es, lookup s (target_dir_of file out) = Some (Dir es))
       /\ lookup s (file_path file) = Some (RegFile c)
       /\ (forall c0, lookup fs (file_path file) = Some (RegFile c0) -> c0 = c)
       /\ save_video_exif_data file out ow fs
          = prepend (pre ++ [FsWrite (target_dir_of file out
                                     ++ [filename file])])
              (after_copy file (target_dir_of file out ++ [filename file]) c
                 (write_at (target_dir_of file out ++ [filename file])
                    (RegFile c) s)).
Proof.
  rewrite save_video_exif_data_policy.
  set (T := target_dir_of file out ++ [filename file]).
  assert (Hstart : forall s pre,
    lookup s T = None ->
    (exists es, lookup s (target_dir_of file out) = Some (Dir es)) ->
    keeps_outside T fs s ->
    (pre = [FsMakedirs (target_dir_of file out)] /\ lookup fs T = None
     \/ pre = [FsMakedirs (target_dir_of file out); FsRemove T]
        /\ ow = true) ->
    with_collision_policy file out ow (write_video file) fs
    = prepend pre (write_video file T s) ->
    (exists rr s' tr,
       with_collision_policy file out ow (write_video file) fs
       = Run rr s' tr
       /\ (forall f2, rr <> Return (Some f2))
       /\ forall cmd, ~ In (RunTool cmd) tr)
    \/ exists s c pre,
         (pre = [FsMakedirs (target_dir_of file out)] /\ lookup fs T = None
          \/ pre = [FsMakedirs (target_dir_of file out); FsRemove T]
             /\ ow = true)
         /\ lookup s T = None
         /\ (exists es, lookup s (target_dir_of file out) = Some (Dir es))
         /\ lookup s (file_path file) = Some (RegFile c)
         /\ (forall c0,
               lookup fs (file_path file) = Some (RegFile c0) -> c0 = c)
         /\ with_collision_policy file out ow (write_video file) fs
            = prepend (pre ++ [FsWrite T])
                (after_copy file T c (write_at T (RegFile c) s))).
  { intros s pre HsT Hsd Hkeep Hpre Hrun.
    destruct (write_video_cases file T s)
      as [[e Hw]|[c [dir [k [es [ET [Hd [Hsrc Hw]]]]]]]].
    - left. exists (Raise e), s, pre. rewrite Hrun, Hw.
      split; [unfold prepend; simpl; now rewrite app_nil_r|].
      split; [discriminate|].
      intros cmd Hin. destruct Hpre as [[-> _]|[-> _]];
        simpl in Hin; intuition discriminate.
    - right. exists s, c, pre. split; [assumption|].
      split; [assumption|]. split; [assumption|]. split; [assumption|].
      split.
      + intros c0 H0.
        assert (Hnp : ~ is_prefix T (file_path file)).
        { intros [r Er]. rewrite Er, lookup_app, HsT in Hsrc. discriminate. }
        pose proof (Hkeep _ (RegFile c0) Hnp eq_refl H0) as H1.
        rewrite Hsrc in H1. now inversion H1.
      + rewrite Hrun, Hw. unfold prepend; simpl. now rewrite <- app_assoc. }
  destruct (policy_cases file out ow (write_video file) fs)
    as [[e [tr [Hr Htr]]]|[[Hov [_ Hr]]|[[Hov [[n [Hl Hn]] Hr]]
       |[s [Hl [Hm [HsT [Hsd Hr]]]]]]]].
  - left. exists (Raise e), fs, tr. split; [assumption|].
    split; [discriminate|]. intros cmd Hin.
    destruct Htr as [->| ->]; simpl in Hin; intuition discriminate.
  - left. eexists _, _, _. split; [exact Hr|]. split; [discriminate|].
    intros cmd Hin. simpl in Hin. intuition discriminate.
  - apply (Hstart (remove_at T fs)
             [FsMakedirs (target_dir_of file out); FsRemove T]).
    + apply lookup_remove_same. unfold T.
      now destruct (target_dir_of file out).
    + destruct (lookup_parent _ _ _ _ Hl) as [es Hd].
      exact (update_parent_dir remove_key _ (filename file) fs es Hd).
    + apply lookup_update_frame, remove_key_local.
    + now right.
    + exact Hr.
  - apply (Hstart s [FsMakedirs (target_dir_of file out)]).
    + assumption.
    + assumption.
    + apply keeps_keeps_outside. exact (mkdirs_keeps _ _ _ _ Hm).
    + now left.
    + exact Hr.
Qed.

End SaveCases.

Section SaveImageCases.
Context {P : Platform}.

(** the save function for images: the line "Image saved" is not logged and
    no file is reported, or the codec saved, the file was written and the
    verification runs on the file system that the write left *)
Lemma save_image_cases file img out ow fs :
  (exists rr s' tr,
     save_exif_data file img out ow fs = Run rr s' tr
     /\ (forall f2, rr <> Return (Some f2))
     /\ forall p, ~ In (DebugImageSaved p) tr)
  \/ exists s content pre es,
       (pre = [FsMakedirs (target_dir_of file out)]
        /\ lookup fs (target_dir_of file out ++ [filename file]) = None
        \/ pre = [FsMakedirs (target_dir_of file out);
                  FsRemove (target_dir_of file out ++ [filename file])]
           /\ ow = true)
       /\ lookup s (target_dir_of file out) = Some (Dir es)
       /\ Image_save img (exif_bytes file) = SaveOk content
       /\ save_exif_data file img out ow fs
          = prepend (pre ++ [FsWrite (target_dir_of file out
                                     ++ [filename file]);
                             DebugImageSaved (target_dir_of file out
                                              ++ [filename file])])
              (verify_image
                 (set_new_file_path file
                    (target_dir_of file out ++ [filename file]))
                 (target_dir_of file out ++ [filename file])
                 (write_at (target_dir_of file out ++ [filename file])
                    (RegFile content) s)).
Proof.
  rewrite save_exif_data_policy.
  set (T := target_dir_of file out ++ [filename file]).
  assert (Hstart : forall s pre,
    (pre = [FsMakedirs (target_dir_of file out)] /\ lookup fs T = None
     \/ pre = [FsMakedirs (target_dir_of file out); FsRemove T]
        /\ ow = true) ->
    with_collision_policy file out ow (write_image file img) fs
    = prepend pre (write_image file img T s) ->
    (exists rr s' tr,
       with_collision_policy file out ow (write_image file img) fs
       = Run rr s' tr
       /\ (forall f2, rr <> Return (Some f2))
       /\ forall p, ~ In (DebugImageSaved p) tr)
    \/ exists s content pre es,
         (pre = [FsMakedirs (target_dir_of file out)] /\ lookup fs T = None
          \/ pre = [FsMakedirs (target_dir_of file out); FsRemove T]
             /\ ow = true)
         /\ lookup s (target_dir_of file out) = Some (Dir es)
         /\ Image_save img (exif_bytes file) = SaveOk content
         /\ with_collision_policy file out ow (write_image file img) fs
            = prepend (pre ++ [FsWrite T; DebugImageSaved T])
                (verify_image (set_new_file_path file T) T
                   (write_at T (RegFile content) s))).
  { intros s pre Hpre Hrun.
    destruct (write_image_cases file img T s)
      as [[e [s' [tr [Hw [Hno _]]]]]|[content [dir [k [es [ET [Hd [Hs Hw]]]]]]]].
    - left. exists (Raise e), s', (pre ++ tr). rewrite Hrun, Hw.
      split; [reflexivity|]. split; [discriminate|].
      intros p Hin. apply in_app_or in Hin. destruct Hin as [Hin|Hin].
      + destruct Hpre as [[-> _]|[-> _]]; simpl in Hin; intuition discriminate.
      + exact (Hno p Hin).
    - right. exists s, content, pre. subst T.
      assert (Ed : dir = target_dir_of file out).
      { apply app_inj_tail in ET. now destruct ET. }
      subst dir. exists es. split; [assumption|].
      split; [assumption|]. split; [assumption|].
      rewrite Hrun, Hw. unfold prepend; simpl. now rewrite <- app_assoc. }
  destruct (policy_cases file out ow (write_image file img) fs)
    as [[e [tr [Hr Htr]]]|[[Hov [_ Hr]]|[[Hov [[n [Hl Hn]] Hr]]
       |[s [Hl [Hm [HsT [Hsd Hr]]]]]]]].
  - left. exists (Raise e), fs, tr. split; [assumption|].
    split; [discriminate|]. intros p Hin.
    destruct Htr as [->| ->]; simpl in Hin; intuition discriminate.
  - left. eexists _, _, _. split; [exact Hr|]. split; [discriminate|].
    intros p Hin. simpl in Hin. intuition discriminate.
  - apply (Hstart (remove_at T fs)
             [FsMakedirs (target_dir_of file out); FsRemove T]);
      [now right | exact Hr].
  - apply (Hstart s [FsMakedirs (target_dir_of file out)]);
      [now left | exact Hr].
Qed.

End SaveImageCases.

(** ** Videos: the tool is missing, the tool fails *)

Section VideoClaims.
Context {P : Platform}.

Lemma target_dir_of_eq file file' out :
  relative_dir file' = relative_dir file ->
  target_dir_of file' out = target_dir_of file out.
Proof. intros H. unfold target_dir_of. now rewrite H. Qed.

(** C6.  Without the external tool, a video file whose filename gave a
    date gets the line "exiftool not installed" (the outcome
    skipped-tool-unavailable); [process_file] returns, the file system is
    as it was, nothing is made, written or removed, and so nothing is at
    the target path that was not there. *)
Theorem C6_tool_unavailable (file : File) (args : Args) (fs : node)
    (file' : File) :
  which_exiftool = false ->
  str_in (extension file) VIDEO_EXT = true ->
  res (parse_filename_to_date file fs) = Return file' ->
  parsed_date file' <> [] ->
  res (process_file file args fs) = Return tt
  /\ outcome_of (trace (process_file file args fs))
     = Some skipped_tool_unavailable
  /\ In (FailNoExiftool (filename file)) (trace (process_file file args fs))
  /\ fs_after (process_file file args fs) = fs
  /\ (forall p,
        ~ In (FsWrite p) (trace (process_file file args fs))
        /\ ~ In (FsMakedirs p) (trace (process_file file args fs))
        /\ ~ In (FsRemove p) (trace (process_file file args fs)))
  /\ lookup (fs_after (process_file file args fs)) (target_of file args)
     = lookup fs (target_of file args).
Proof.
  intros Htool Hv Hres Hdate.
  destruct (parse_run file) as [f2 [tr [Hp [Hq [Htr [Hn _]]]]]].
  rewrite Hp in Hres. simpl in Hres. inversion Hres; subst f2; clear Hres.
  rewrite (process_video file args fs file' tr Hv Hp).
  destruct (parsed_date file') as [|d0 d]; [contradiction|].
  rewrite Htool, Hn. simpl.
  split; [reflexivity|]. split; [|split; [|split; [reflexivity|split]]].
  - now rewrite (outcome_of_quiet_l _ _ Hq).
  - apply in_or_app. right. now left.
  - intros p. repeat split; intros Hin; apply in_app_or in Hin;
      destruct Hin as [Hin|[Hin|[]]]; try discriminate;
      destruct (Htr _ Hin); discriminate.
  - reflexivity.
Qed.


End VideoClaims.

Lemma C6_tool_unavailable_witness :
  res (@process_file (Demo.platform false false true)
         (Demo.in_file "VID-20230416-WA0002.mp4" "mp4")
         (Demo.args0 true false) Demo.fs0) = Return tt
  /\ outcome_of
       (trace (@process_file (Demo.platform false false true)
                 (Demo.in_file "VID-20230416-WA0002.mp4" "mp4")
                 (Demo.args0 true false) Demo.fs0))
     = Some skipped_tool_unavailable
  /\ fs_after (@process_file (Demo.platform false false true)
                 (Demo.in_file "VID-20230416-WA0002.mp4" "mp4")
                 (Demo.args0 true false) Demo.fs0) = Demo.fs0.
Proof.
  destruct (@C6_tool_unavailable (Demo.platform false false true)
              (Demo.in_file "VID-20230416-WA0002.mp4" "mp4")
              (Demo.args0 true false) Demo.fs0
              (set_parsed_date (Demo.in_file "VID-20230416-WA0002.mp4" "mp4")
                 (u "2023:04:16 00:00:00"))
              eq_refl eq_refl eq_refl ltac:(discriminate))
    as [H1 [H2 [_ [H3 _]]]].
  split; [exact H1|]. split; [exact H2 | exact H3].
Defined.



(** ** Images: the verification *)

Section ImageClaims.
Context {P : Platform}.

Lemma Image_open_path_cases p fs :
  (exists im, Image_open_path p fs = Run (Return im) fs [])
  \/ exists e, Image_open_path p fs = Run (Raise e) fs [].
Proof.
  unfold Image_open_path.
  destruct (open_rb_cases p fs) as [[c [_ Ho]]|[e Ho]].
  - rewrite (bind_Return _ _ _ _ _ _ Ho).
    destruct (Image_open c) as [im|e]; [left; now exists im|].
    right. now exists e.
  - right. exists e. now apply bind_Raise.
Qed.

(** the verification, whatever the presence check answers *)
Lemma verify_image_cases file T s1 :
  exists rr post,
    verify_image file T s1
    = Run rr s1
        (trace (check_exif (mkFile (filename file) T (Some T)
                              (extension file) [] [] []) s1) ++ post)
    /\ (res (check_exif (mkFile (filename file) T (Some T)
                           (extension file) [] [] []) s1) = Return false
        /\ rr = Return (Some file) /\ post = [WarningVerificationFailed T]
        \/ res (check_exif (mkFile (filename file) T (Some T)
                              (extension file) [] [] []) s1) = Return true
           /\ rr = Return (Some file) /\ post = []
        \/ exists e,
             res (check_exif (mkFile (filename file) T (Some T)
                                (extension file) [] [] []) s1) = Raise e
             /\ rr = Raise e /\ post = []).
Proof.
  rewrite verify_image_run. cbv zeta.
  destruct (res (check_exif _ s1)) as [[|]|e].
  - exists (Return (Some file)), []. rewrite app_nil_r.
    split; [reflexivity|]. right. left. now repeat split.
  - exists (Return (Some file)), [WarningVerificationFailed T].
    split; [reflexivity|]. left. now repeat split.
  - exists (Raise e), []. rewrite app_nil_r.
    split; [reflexivity|]. right. right. exists e. now repeat split.
Qed.

(** an image through [process_file]: the line "Image saved" is not logged
    and there is no success line, or the file was written and verified *)
Lemma process_image_cases file args fs :
  str_in (extension file) VIDEO_EXT = false ->
  (reports is_success (trace (process_file file args fs)) = false
   /\ forall p, ~ In (DebugImageSaved p) (trace (process_file file args fs)))
  \/ exists s content es before rr post csrc,
       (lookup fs (target_of file args) = None \/ overwrite args = true)
       /\ lookup s (target_dir_of file (output_path args)) = Some (Dir es)
       /\ Forall quiet before
       /\ lookup fs (file_path file) = Some (RegFile csrc)
       /\ res (check_exif file fs) = Return false
       /\ process_file file args fs
          = Run rr (write_at (target_of file args) (RegFile content) s)
              (before
               ++ [FsWrite (target_of file args);
                   DebugImageSaved (target_of file args)]
               ++ trace (check_exif
                           (mkFile (filename file) (target_of file args)
                              (Some (target_of file args))
                              (extension file) [] [] [])
                           (write_at (target_of file args)
                              (RegFile content) s))
               ++ post)
       /\ (res (check_exif
                  (mkFile (filename file) (target_of file args)
                     (Some (target_of file args)) (extension file) [] [] [])
                  (write_at (target_of file args) (RegFile content) s))
           = Return false
           /\ rr = Return tt
           /\ (exists d,
                 post = [WarningVerificationFailed (target_of file args);
                         Succeed (filename file) d])
           \/ res (check_exif
                     (mkFile (filename file) (target_of file args)
                        (Some (target_of file args)) (extension file)
                        [] [] [])
                     (write_at (target_of file args) (RegFile content) s))
              = Return true
              /\ rr = Return tt
              /\ (exists d, post = [Succeed (filename file) d])
           \/ exists e,
                res (check_exif
                       (mkFile (filename file) (target_of file args)
                          (Some (target_of file args)) (extension file)
                          [] [] [])
                       (write_at (target_of file args) (RegFile content) s))
                = Raise e
                /\ rr = Raise e /\ post = [])
       /\ exists file' tr im fe trn,
            (forall s0, parse_filename_to_date file s0
                        = Run (Return file') s0 tr)
            /\ parsed_date file' <> []
            /\ Image_open csrc = Return im
            /\ (forall s0, new_image_exif_data file' s0
                           = Run (Return fe) s0 trn).
Proof.
  intros Hv.
  destruct (parse_run file) as [file' [tr [Hp [Hq [Htr [Hn [He [Hfp Hrd]]]]]]]].
  rewrite (process_image file args fs file' tr Hv Hp). cbv zeta.
  pose proof (fun e => check_exif_found file fs e) as Hfound.
  assert (Hqc : Forall quiet (trace (check_exif file fs)))
    by apply check_exif_emits.
  destruct (res (check_exif file fs)) as [[|]|e] eqn:Hrc.
  - left. cbn [trace]. split.
    + rewrite reports_app.
      destruct (quiet_reports_nothing _ Hqc) as [_ [-> _]]. reflexivity.
    + intros p Hin. apply in_app_or in Hin.
      destruct Hin as [Hin|[Hin|[]]]; [|discriminate].
      destruct (Hfound _ Hin); discriminate.
  - destruct (parsed_date file') as [|d0 d] eqn:Hdate.
    { left. cbn [trace]. split.
      - rewrite !reports_app.
        destruct (quiet_reports_nothing _ Hqc) as [_ [-> _]].
        destruct (quiet_reports_nothing _ Hq) as [_ [-> _]]. reflexivity.
      - intros p Hin. apply in_app_or in Hin. destruct Hin as [Hin|Hin].
        { destruct (Hfound _ Hin); discriminate. }
        apply in_app_or in Hin. destruct Hin as [Hin|[Hin|[]]];
          [|discriminate].
        destruct (Htr _ Hin); discriminate. }
    assert (Hearly : forall r : run unit,
      reports is_success (trace r) = false ->
      (forall p, ~ In (DebugImageSaved p) (trace r)) ->
      reports is_success
        (trace (prepend (trace (check_exif file fs) ++ tr) r)) = false
      /\ forall p,
           ~ In (DebugImageSaved p)
                (trace (prepend (trace (check_exif file fs) ++ tr) r))).
    { intros r H1 H2. cbn [prepend trace]. split.
      - rewrite !reports_app, H1.
        destruct (quiet_reports_nothing _ Hqc) as [_ [-> _]].
        destruct (quiet_reports_nothing _ Hq) as [_ [-> _]]. reflexivity.
      - intros p Hin. apply in_app_or in Hin. destruct Hin as [Hin|Hin];
          [|exact (H2 p Hin)].
        apply in_app_or in Hin. destruct Hin as [Hin|Hin].
        + destruct (Hfound _ Hin); discriminate.
        + destruct (Htr _ Hin); discriminate. }
    destruct (Image_open_path_cases (file_path file') fs)
      as [[im Ho]|[e Ho]].
    2:{ left. rewrite (bind_Raise _ _ _ _ _ _ Ho).
        apply Hearly; [reflexivity | intros p []]. }
    rewrite (bind_Return _ _ _ _ _ _ Ho).
    destruct (new_image_exif_data_run file')
      as [r0 [trn [Hnew [Hqn [Htrn Hfe]]]]].
    destruct r0 as [fe|e].
    2:{ left. rewrite (bind_Raise _ _ _ _ _ _ (Hnew fs)).
        apply Hearly.
        - cbn [prepend app trace].
          now destruct (quiet_reports_nothing _ Hqn) as [_ [-> _]].
        - intros p Hin. cbn [prepend app trace] in Hin.
          destruct (Htrn _ Hin); discriminate. }
    rewrite (bind_Return _ _ _ _ _ _ (Hnew fs)).
    destruct (Hfe fe eq_refl) as [Hfn [Hfr [Hfd Hfx]]].
    assert (HT : target_dir_of (fst fe) (output_path args)
                 ++ [filename (fst fe)] = target_of file args).
    { unfold target_of, os_path_join.
      rewrite (target_dir_of_eq file (fst fe)); [|congruence].
      now rewrite Hfn, Hn. }
    assert (HD : target_dir_of (fst fe) (output_path args)
                 = target_dir_of file (output_path args)).
    { apply target_dir_of_eq. congruence. }
    destruct (save_image_cases (fst fe) im (output_path args)
                (overwrite args) fs)
      as [[rr [s' [tr2 [Hs [Hrr Hno]]]]]
         |[s [content [pre [es [Hpre [Hsd [Hsave Hs]]]]]]]].
    + left. apply Hearly.
      * cbn [prepend app trace]. rewrite reports_app.
        destruct (quiet_reports_nothing _ Hqn) as [_ [-> _]].
        unfold bind. rewrite Hs. cbn [res fs_after trace].
        pose proof (save_exif_data_emits (fst fe) im (output_path args)
                      (overwrite args) fs) as Hb.
        rewrite Hs in Hb. cbn [trace] in Hb.
        destruct (below_spinner_reports _ Hb) as [Hsucc _].
        destruct rr as [[f2|]|e]; cbn [res fs_after trace report].
        -- now destruct (Hrr f2).
        -- now rewrite reports_app, Hsucc.
        -- exact Hsucc.
      * intros p Hin. cbn [prepend app trace] in Hin.
        apply in_app_or in Hin. destruct Hin as [Hin|Hin].
        { destruct (Htrn _ Hin); discriminate. }
        unfold bind in Hin. rewrite Hs in Hin. cbn [res fs_after trace] in Hin.
        destruct rr as [[f2|]|e]; cbn [res fs_after trace report] in Hin.
        -- now destruct (Hrr f2).
        -- rewrite app_nil_r in Hin. exact (Hno p Hin).
        -- exact (Hno p Hin).
    + right. rewrite HT, HD in *.
      destruct (verify_image_cases
                  (set_new_file_path (fst fe) (target_of file args))
                  (target_of file args)
                  (write_at (target_of file args) (RegFile content) s))
        as [rr [post [Hver Hcases]]].
      cbn [filename extension set_new_file_path] in Hver, Hcases.
      rewrite Hfn, Hfx, Hn, He in Hver, Hcases.
      rewrite Hver in Hs.
      destruct (open_rb_cases (file_path file') fs) as [[csrc [Hsrc _]]|[e Hoe]].
      2:{ unfold Image_open_path in Ho.
          rewrite (bind_Raise _ _ _ _ _ _ Hoe) in Ho. discriminate. }
      rewrite Hfp in Hsrc.
      exists s, content, es,
        (trace (check_exif file fs) ++ tr ++ trn ++ pre).
      assert (Hb1 :
        Forall quiet (trace (check_exif file fs) ++ tr ++ trn ++ pre)).
      { assert (Hpq : Forall quiet pre).
        { destruct Hpre as [[-> _]|[-> _]]; now repeat constructor. }
        repeat (apply Forall_app; split); assumption. }
      assert (Hfacts : exists file' tr im fe trn,
                (forall s0, parse_filename_to_date file s0
                            = Run (Return file') s0 tr)
                /\ parsed_date file' <> []
                /\ Image_open csrc = Return im
                /\ (forall s0, new_image_exif_data file' s0
                               = Run (Return fe) s0 trn)).
      { exists file', tr, im, fe, trn. split; [assumption|].
        split; [rewrite Hdate; discriminate|]. split; [|assumption].
        unfold Image_open_path in Ho.
        assert (Hopen : open_rb (file_path file') fs
                        = Run (Return csrc) fs []).
        { unfold open_rb, bind, get_fs; simpl. rewrite Hfp, Hsrc.
          reflexivity. }
        rewrite (bind_Return _ _ _ _ _ _ Hopen) in Ho.
        destruct (Image_open csrc) as [im'|e']; [|discriminate].
        unfold prepend in Ho; simpl in Ho. now inversion Ho. }
      destruct Hcases as [[Hc [-> ->]]|[[Hc [-> ->]]|[e [Hc [-> ->]]]]].
      * exists (Return tt),
          [WarningVerificationFailed (target_of file args);
           Succeed (filename file) (parsed_date (fst fe))], csrc.
        split; [destruct Hpre as [[_ H]|[_ H]]; [now left | now right]|].
        split; [assumption|]. split; [assumption|].
        split; [assumption|]. split; [reflexivity|]. split.
        -- unfold prepend, bind. rewrite Hs.
           cbn [res fs_after trace report prepend emit].
           rewrite Hfn, Hn. f_equal.
           rewrite <- !app_assoc. cbn [app]. reflexivity.
        -- split; [|exact Hfacts].
           left. split; [assumption|]. split; [reflexivity|]. now eexists.
      * exists (Return tt),
          [Succeed (filename file) (parsed_date (fst fe))], csrc.
        split; [destruct Hpre as [[_ H]|[_ H]]; [now left | now right]|].
        split; [assumption|]. split; [assumption|].
        split; [assumption|]. split; [reflexivity|]. split.
        -- unfold prepend, bind. rewrite Hs.
           cbn [res fs_after trace report prepend emit].
           rewrite Hfn, Hn. f_equal.
           rewrite <- !app_assoc. cbn [app]. rewrite ?app_nil_r. reflexivity.
        -- split; [|exact Hfacts].
           right. left. split; [assumption|]. split; [reflexivity|].
           now eexists.
      * exists (Raise e), [], csrc.
        split; [destruct Hpre as [[_ H]|[_ H]]; [now left | now right]|].
        split; [assumption|]. split; [assumption|].
        split; [assumption|]. split; [reflexivity|]. split.
        -- unfold prepend, bind. rewrite Hs.
           cbn [res fs_after trace report prepend emit].
           f_equal. rewrite <- !app_assoc. cbn [app].
           rewrite ?app_nil_r. reflexivity.
        -- split; [|exact Hfacts].
           right. right. exists e. now repeat split.
  - left. cbn [trace]. split.
    + now destruct (quiet_reports_nothing _ Hqc) as [_ [-> _]].
    + intros p Hin. destruct (Hfound _ Hin); discriminate.
Qed.

End ImageClaims.

Section Verification.
Context {P : Platform}.

(** C8.  For an image file whose save is logged ("Image saved"), the new
    file is at the target path, and the events show the write, the line
    and then the presence check run on a file of that path in the file
    system that the write left; nothing is removed afterwards.  When that
    check answers false, the warning is logged, [process_file] returns
    with the success line (the outcome written), and the file stays. *)
Theorem C8_verification_warns_only (file : File) (args : Args) (fs : node) :
  str_in (extension file) VIDEO_EXT = false ->
  In (DebugImageSaved (target_of file args))
     (trace (process_file file args fs)) ->
  (exists content,
     lookup (fs_after (process_file file args fs)) (target_of file args)
     = Some (RegFile content))
  /\ (exists before post,
        trace (process_file file args fs)
        = before
          ++ [FsWrite (target_of file args);
              DebugImageSaved (target_of file args)]
          ++ trace (check_exif
                      (mkFile (filename file) (target_of file args)
                         (Some (target_of file args)) (extension file)
                         [] [] [])
                      (fs_after (process_file file args fs)))
          ++ post
        /\ forall p, ~ In (FsRemove p) post /\ ~ In (FsWrite p) post)
  /\ (res (check_exif
             (mkFile (filename file) (target_of file args)
                (Some (target_of file args)) (extension file) [] [] [])
             (fs_after (process_file file args fs))) = Return false ->
      res (process_file file args fs) = Return tt
      /\ In (WarningVerificationFailed (target_of file args))
            (trace (process_file file args fs))
      /\ outcome_of (trace (process_file file args fs)) = Some written).
Proof.
  intros Hv Hin.
  destruct (process_image_cases file args fs Hv)
    as [[_ Hno]|[s [content [es [before [rr [post [csrc
         [_ [Hsd [Hq [_ [_ [Hrun [Hcases _]]]]]]]]]]]]]]].
  { exfalso. exact (Hno _ Hin). }
  rewrite Hrun. cbn [res fs_after trace].
  assert (Hl : lookup (write_at (target_of file args) (RegFile content) s)
                 (target_of file args) = Some (RegFile content)).
  { unfold target_of, os_path_join.
    exact (lookup_write_same _ _ _ _ es Hsd). }
  split; [now exists content|]. split.
  - exists before, post. split; [reflexivity|].
    intros p.
    destruct Hcases as [[_ [_ [d ->]]]|[[_ [_ [d ->]]]|[e [_ [_ ->]]]]];
      split; simpl; intuition discriminate.
  - intros Hfalse.
    destruct Hcases as [[_ [-> [d ->]]]|[[Hc _]|[e [Hc _]]]];
      [|congruence|congruence].
    split; [reflexivity|]. split.
    + apply in_or_app. right. apply in_or_app. right.
      apply in_or_app. right. now left.
    + rewrite (outcome_of_quiet_l _ _ Hq).
      rewrite (outcome_of_quiet_l [_; _]); [|now repeat constructor].
      rewrite outcome_of_quiet_l; [reflexivity|].
      eapply Forall_impl; [|apply check_exif_emits]. auto.
Qed.

End Verification.

Lemma C8_verification_warns_only_witness :
  In (WarningVerificationFailed [u "out"; u "IMG-20230415-WA0001.jpg"])
     (trace (@process_file (Demo.platform true true false)
               (Demo.in_file "IMG-20230415-WA0001.jpg" "jpg")
               (Demo.args0 true false) Demo.fs0))
  /\ outcome_of
       (trace (@process_file (Demo.platform true true false)
                 (Demo.in_file "IMG-20230415-WA0001.jpg" "jpg")
                 (Demo.args0 true false) Demo.fs0))
     = Some written.
Proof.
  destruct (@C8_verification_warns_only (Demo.platform true true false)
              (Demo.in_file "IMG-20230415-WA0001.jpg" "jpg")
              (Demo.args0 true false) Demo.fs0 eq_refl
              ltac:(simpl; repeat (first [left; reflexivity | right])))
    as [_ [_ H]].
  destruct (H eq_refl) as [_ [H1 H2]]. split; [exact H1 | exact H2].
Defined.

(** ** The batch *)

Section Batch.
Context {P : Platform}.

(** without overwrite the collision policy keeps every file, whatever the
    write does at the target *)
Lemma policy_keeps file out write :
  (forall T, stays (keeps_outside T) (write T)) ->
  stays keeps (with_collision_policy file out false write).
Proof.
  intros Hw fs.
  destruct (policy_cases file out false write fs)
    as [[e [tr [Hr _]]]|[[_ [_ Hr]]|[[Hov _]|[s [Hl [Hm [HsT [_ Hr]]]]]]]].
  - rewrite Hr. apply keeps_refl.
  - rewrite Hr. apply keeps_refl.
  - discriminate.
  - rewrite Hr. cbn [prepend fs_after].
    apply (keeps_trans _ s); [exact (mkdirs_keeps _ _ _ _ Hm)|].
    apply (keeps_outside_fresh _ _ _ HsT). apply Hw.
Qed.

Lemma report_reads file result : stays eq (report file result).
Proof. destruct result; intros fs; reflexivity. Qed.

Lemma stays_eq_keeps {A} (m : M A) : stays eq m -> stays keeps m.
Proof. apply stays_weaken. intros a b ->. apply keeps_refl. Qed.

Lemma process_file_keeps file args :
  overwrite args = false -> stays keeps (process_file file args).
Proof.
  intros Hov. unfold process_file. rewrite Hov.
  apply stays_bind; [apply keeps_trans | | intros has].
  { destruct (negb (str_in (extension file) VIDEO_EXT));
      [apply stays_eq_keeps, check_exif_reads | apply stays_ret, keeps_refl]. }
  destruct has; [apply stays_emit, keeps_refl|].
  apply stays_bind; [apply keeps_trans | | intros file'].
  { apply stays_eq_keeps, parse_filename_to_date_reads. }
  destruct (parsed_date file'); [apply stays_emit, keeps_refl|].
  destruct (str_in (extension file) VIDEO_EXT).
  - destruct (negb check_exiftool); [apply stays_emit, keeps_refl|].
    apply stays_bind; [apply keeps_trans | | intros result].
    + rewrite save_video_exif_data_policy. apply policy_keeps.
      intros T. apply write_video_outside.
    + apply stays_eq_keeps, report_reads.
  - apply stays_bind; [apply keeps_trans | | intros im].
    { apply stays_eq_keeps, Image_open_path_reads. }
    apply stays_bind; [apply keeps_trans | | intros fe].
    { apply stays_eq_keeps, new_image_exif_data_reads. }
    apply stays_bind; [apply keeps_trans | | intros result].
    + rewrite save_exif_data_policy. apply policy_keeps.
      intros T. apply write_image_outside.
    + apply stays_eq_keeps, report_reads.
Qed.

Lemma attempt_keeps file args :
  overwrite args = false -> stays keeps (attempt file args).
Proof.
  intros Hov. unfold attempt.
  apply stays_bind; [apply keeps_trans | apply stays_emit, keeps_refl|].
  intros _. apply stays_try_except; [apply keeps_trans | |].
  - now apply process_file_keeps.
  - intros e. apply stays_emit, keeps_refl.
Qed.

Lemma for_files_keeps files args :
  overwrite args = false -> stays keeps (for_files files args).
Proof.
  intros Hov. induction files as [|file rest IH]; simpl.
  - apply stays_ret, keeps_refl.
  - apply stays_bind; [apply keeps_trans | now apply attempt_keeps|].
    intros _. exact IH.
Qed.

(** the loop body catches what [process_file] raises *)
Lemma attempt_run file args fs :
  attempt file args fs =
  let r := process_file file args fs in
  Run (Return tt) (fs_after r)
      (SpinnerText (filename file)
       :: trace r ++ match res r with
                     | Raise e => [InfoErrorOccurred e]
                     | Return _ => []
                     end).
Proof.
  unfold attempt, bind at 1, emit at 1, try_except. cbv zeta. simpl.
  destruct (res (process_file file args fs)) as [[]|e] eqn:Hr; simpl;
    rewrite ?Hr, ?app_nil_r; reflexivity.
Qed.

(** the loop is its bodies in a row, and never raises *)
Lemma for_files_run files args : forall fs,
  res (for_files files args fs) = Return tt
  /\ trace (for_files files args fs)
     = concat (map (@trace unit) (attempts files args fs)).
Proof.
  induction files as [|file rest IH]; intros fs; [now repeat split|].
  destruct (IH (fs_after (attempt file args fs))) as [H1 H2].
  cbn [for_files attempts map concat]. unfold bind.
  rewrite (attempt_run file args fs) in *. cbv zeta in *.
  cbn [res fs_after trace] in *.
  split; [assumption|]. now rewrite H2.
Qed.


(** the run of the [i]-th file: a run of the loop body, from a file system
    that the loop reached from the first and leads to the last *)
Lemma attempts_nth (R : node -> node -> Prop) files args :
  (forall fs, R fs fs) -> (forall a b c, R a b -> R b c -> R a c) ->
  (forall file, stays R (attempt file args)) ->
  forall i fs file,
    nth_error files i = Some file ->
    exists s,
      nth_error (attempts files args fs) i = Some (attempt file args s)
      /\ R fs s
      /\ R (fs_after (attempt file args s))
           (fs_after (for_files files args fs)).
Proof.
  intros Rrefl Rtrans Hstay.
  assert (Hfor : forall files fs, R fs (fs_after (for_files files args fs))).
  { intros fl. induction fl as [|f rest IH]; intros fs; simpl.
    - apply Rrefl.
    - unfold bind. destruct (res (attempt f args fs)) eqn:Hr.
      + simpl. apply (Rtrans _ (fs_after (attempt f args fs)));
          [apply Hstay | apply IH].
      + simpl. apply Hstay. }
  induction files as [|f rest IH]; intros i fs file Hn.
  - destruct i; discriminate.
  - assert (Hres : res (attempt f args fs) = Return tt)
      by (now rewrite attempt_run).
    destruct i as [|i]; simpl in Hn.
    + inversion Hn; subst f. exists fs. split; [reflexivity|].
      split; [apply Rrefl|].
      simpl. unfold bind. rewrite Hres. simpl. apply Hfor.
    + destruct (IH i (fs_after (attempt f args fs)) file Hn)
        as [s [H1 [H2 H3]]].
      exists s. split; [exact H1|]. split.
      * apply (Rtrans _ (fs_after (attempt f args fs)));
          [apply Hstay | exact H2].
      * simpl. unfold bind. rewrite Hres. simpl. exact H3.
Qed.

Lemma outcome_of_SpinnerText name tr :
  outcome_of (SpinnerText name :: tr) = outcome_of tr.
Proof. reflexivity. Qed.

(** the inventory reads the file system and emits nothing *)
Lemma get_files_from_path_run top rec out fs :
  get_files_from_path top rec out fs
  = Run (res (get_files_from_path top rec out fs)) fs [].
Proof.
  unfold get_files_from_path, os_walk, os_listdir, bind, get_fs, ret;
    simpl.
  destruct rec; simpl.
  - destruct (lookup fs top); reflexivity.
  - destruct (lookup fs top) as [[c| |es]|]; reflexivity.
Qed.

(** [main] is the inventory, then the loop, then the last line *)
Lemma main_run args fs :
  main args fs =
  match res (get_files_from_path (input_path args) (recursive args) None fs)
  with
  | Return files =>
      Run (Return tt) (fs_after (for_files files args fs))
          (SpinnerStart :: trace (for_files files args fs)
           ++ [SucceedRunComplete])
  | Raise e => Run (Raise e) fs [SpinnerStart]
  end.
Proof.
  unfold main.
  rewrite (bind_Return _ _ fs tt fs [SpinnerStart]); [|reflexivity].
  pose proof (get_files_from_path_run (input_path args) (recursive args)
                None fs) as Hg.
  destruct (res (get_files_from_path (input_path args) (recursive args)
                   None fs)) as [files|e].
  - rewrite (bind_Return _ _ _ _ _ _ Hg).
    destruct (for_files_run files args fs) as [Hr _].
    pose proof (run_eta (for_files files args fs)) as Hf. rewrite Hr in Hf.
    rewrite (bind_Return _ _ _ _ _ _ Hf).
    unfold prepend, emit. cbn [res fs_after trace app]. reflexivity.
  - now rewrite (bind_Raise _ _ _ _ _ _ Hg).
Qed.

End Batch.

Section Orchestrator.
Context {P : Platform}.


End Orchestrator.


(** ** Running the batch again *)

Section SecondRun.
Context {P : Platform}.

(** what follows a success line of [process_file] for a video, without
    overwrite: the target is a regular file afterwards, and processing the
    file again later, with the target there, skips it and changes nothing *)
Lemma video_written file args s :
  overwrite args = false ->
  str_in (extension file) VIDEO_EXT = true ->
  reports is_success (trace (process_file file args s)) = true ->
  (exists c,
     lookup (fs_after (process_file file args s)) (target_of file args)
     = Some (RegFile c))
  /\ forall s' n,
       lookup s' (target_of file args) = Some n ->
       exists tr',
         process_file file args s' = Run (Return tt) s' tr'
         /\ outcome_of tr' = Some skipped_destination_exists.
Proof.
  intros Hov Hv Hsucc.
  destruct (parse_run file) as [file' [tr [Hp [Hq [Htr [Hn [_ [Hfp Hrd]]]]]]]].
  assert (HT : target_dir_of file' (output_path args) ++ [filename file']
               = target_of file args).
  { unfold target_of, os_path_join.
    now rewrite (target_dir_of_eq _ _ _ Hrd), Hn. }
  destruct (quiet_reports_nothing tr Hq) as [_ [Hqs _]].
  rewrite (process_video file args s file' tr Hv Hp) in Hsucc |- *.
  destruct (parsed_date file') as [|d0 d] eqn:Hdate.
  { exfalso. cbn [trace] in Hsucc. rewrite reports_app, Hqs in Hsucc.
    discriminate. }
  destruct which_exiftool eqn:Htool.
  2:{ exfalso. cbn [trace] in Hsucc. rewrite reports_app, Hqs in Hsucc.
      discriminate. }
  split.
  - destruct (save_video_cases file' (output_path args) (overwrite args) s)
      as [[rr [s1 [tr2 [Hs [Hrr Hno]]]]]
         |[s0 [c [pre [Hpre [HsT [[es Hsd] [Hsrc [_ Hs]]]]]]]]].
    + exfalso.
      pose proof (save_video_exif_data_emits file' (output_path args)
                    (overwrite args) s) as Hb.
      rewrite Hs in Hb. cbn [trace] in Hb.
      destruct (below_spinner_reports _ Hb) as [Hb1 _].
      unfold prepend, bind in Hsucc. rewrite Hs in Hsucc.
      cbn [res fs_after trace] in Hsucc.
      rewrite reports_app, Hqs in Hsucc.
      destruct rr as [[f2|]|e]; cbn [res fs_after trace report] in Hsucc.
      * now destruct (Hrr f2).
      * rewrite reports_app, Hb1 in Hsucc. discriminate.
      * rewrite Hb1 in Hsucc. discriminate.
    + rewrite HT in *.
      pose proof (lookup_write_same _ (filename file') (RegFile c) s0 es Hsd)
        as Hw1. rewrite HT in Hw1.
      destruct (lookup_parent _ _ _ _
                  (eq_ind_r (fun p => lookup _ p = _) Hw1 HT))
        as [es1 Hd1].
      unfold prepend, bind in Hsucc |- *. rewrite Hs in Hsucc |- *.
      cbn [res fs_after trace] in Hsucc |- *.
      unfold after_copy in Hsucc |- *.
      destruct (exiftool (exiftool_cmd file' (target_of file args)) (Some c))
        as [c'|stderr c'|e c'].
      * exists c'. cbn [res fs_after trace report emit].
        pose proof (lookup_write_same _ (filename file') (RegFile c')
                      _ es1 Hd1) as Hw2.
        now rewrite HT in Hw2.
      * exfalso. cbn [res fs_after trace report ret] in Hsucc.
        rewrite !reports_app, Hqs in Hsucc.
        destruct Hpre as [[-> _]|[-> _]]; discriminate.
      * exfalso.
        destruct e; cbn [res fs_after trace report ret] in Hsucc;
          rewrite !reports_app, Hqs in Hsucc;
          destruct Hpre as [[-> _]|[-> _]]; discriminate.
  - intros s' n Hl. rewrite <- HT in Hl.
    rewrite (process_video file args s' file' tr Hv Hp), Hdate, Htool.
    rewrite save_video_exif_data_policy, Hov.
    unfold prepend, bind.
    rewrite (policy_skip file' (output_path args) (write_video file') s' n Hl).
    cbn [res fs_after trace report ret]. eexists. split; [reflexivity|].
    rewrite app_nil_r, (outcome_of_quiet_l _ _ Hq). reflexivity.
Qed.

(** the same for an image; the source file has to be as it was *)
Lemma image_written file args s :
  overwrite args = false ->
  str_in (extension file) VIDEO_EXT = false ->
  reports is_success (trace (process_file file args s)) = true ->
  (exists c,
     lookup (fs_after (process_file file args s)) (target_of file args)
     = Some (RegFile c))
  /\ forall s' n,
       keeps s s' ->
       lookup s' (target_of file args) = Some n ->
       exists tr',
         process_file file args s' = Run (Return tt) s' tr'
         /\ outcome_of tr' = Some skipped_destination_exists.
Proof.
  intros Hov Hv Hsucc.
  destruct (process_image_cases file args s Hv) as [[Hno _]|H].
  { rewrite Hno in Hsucc. discriminate. }
  destruct H as (s0 & content & es & before & rr & post & csrc & _ & Hsd
                 & _ & Hsrc & Hcheck & Hrun & _ & file' & tr & im & fe & trn
                 & Hp & Hdate & Him & Hnew).
  split.
  - exists content. rewrite Hrun. cbn [fs_after].
    unfold target_of, os_path_join.
    exact (lookup_write_same _ _ _ _ es Hsd).
  - intros s' n Hkeep Hl.
    pose proof (Hkeep _ (RegFile csrc) eq_refl Hsrc) as Hsrc'.
    destruct (check_exif_same file s s') as [Hr1 Hr2];
      [now rewrite Hsrc, Hsrc'|].
    destruct (parse_run file) as [f2 [tr2 [Hp2 [Hq [_ [Hn [_ [Hfp Hrd]]]]]]]].
    pose proof (Hp s) as E. rewrite Hp2 in E. inversion E; subst f2 tr2.
    clear E.
    destruct (new_image_exif_data_run file')
      as [r0 [trn2 [Hnew2 [Hqn [_ Hfe]]]]].
    pose proof (Hnew s) as E. rewrite Hnew2 in E. inversion E; subst r0 trn2.
    clear E. destruct (Hfe fe eq_refl) as [Hfn [Hfr _]].
    assert (HT : target_dir_of (fst fe) (output_path args)
                 ++ [filename (fst fe)] = target_of file args).
    { unfold target_of, os_path_join.
      rewrite (target_dir_of_eq file (fst fe)); [|congruence].
      now rewrite Hfn, Hn. }
    rewrite <- HT in Hl.
    rewrite (process_image file args s' file' tr Hv Hp). cbv zeta.
    rewrite <- Hr1, Hcheck.
    destruct (parsed_date file') as [|d0 d]; [contradiction|].
    assert (Hopen : Image_open_path (file_path file') s'
                    = Run (Return im) s' []).
    { unfold Image_open_path, open_rb, bind, get_fs; simpl.
      rewrite Hfp, Hsrc'. simpl. rewrite Him. reflexivity. }
    rewrite (bind_Return _ _ _ _ _ _ Hopen).
    rewrite (bind_Return _ _ _ _ _ _ (Hnew s')).
    rewrite save_exif_data_policy, Hov.
    unfold prepend, bind.
    rewrite (policy_skip (fst fe) (output_path args)
               (write_image (fst fe) im) s' n Hl).
    cbn [res fs_after trace report ret app]. eexists.
    split; [reflexivity|].
    rewrite ?app_nil_r.
    rewrite outcome_of_quiet_l.
    + rewrite (outcome_of_quiet_l _ _ Hqn). reflexivity.
    + apply Forall_app. split; [apply check_exif_emits | exact Hq].
Qed.

End SecondRun.

Section Idempotence.
Context {P : Platform}.

Lemma written_attempt file args s :
  outcome_of (trace (attempt file args s)) = Some written ->
  reports is_success (trace (process_file file args s)) = true
  /\ fs_after (attempt file args s) = fs_after (process_file file args s).
Proof.
  rewrite attempt_run. cbv zeta. cbn [trace fs_after].
  rewrite outcome_of_SpinnerText. intros H.
  apply outcome_of_written in H. destruct H as [Hf Hs].
  rewrite reports_app in Hf, Hs. apply orb_false_iff in Hf.
  destruct Hf as [_ Hf].
  destruct (res (process_file file args s)) as [[]|e]; [|discriminate].
  simpl in Hs. rewrite orb_false_r in Hs. now split.
Qed.

Lemma skipped_attempt file args s tr :
  process_file file args s = Run (Return tt) s tr ->
  outcome_of tr = Some skipped_destination_exists ->
  outcome_of (trace (attempt file args s)) = Some skipped_destination_exists.
Proof.
  intros Hrun Ho. rewrite attempt_run. cbv zeta. rewrite Hrun.
  cbn [res trace]. now rewrite outcome_of_SpinnerText, app_nil_r.
Qed.

(** C5.  With overwrite disabled, when the batch is run a second time on
    the file system that the first run left, every file whose outcome was
    written in the first run has the outcome skipped-destination-exists
    wherever the second inventory has it: its target is a regular file
    after the first run, and after the second run the target is what it
    was before it. *)
Theorem C5_second_run_skips (args : Args) (fs : node)
    (files files2 : list File) :
  overwrite args = false ->
  res (get_files_from_path (input_path args) (recursive args) None fs)
  = Return files ->
  res (get_files_from_path (input_path args) (recursive args) None
         (fs_after (main args fs)))
  = Return files2 ->
  forall i file,
    nth_error files i = Some file ->
    nth_error (outcomes files args fs) i = Some (Some written) ->
    (exists c,
       lookup (fs_after (main args fs)) (target_of file args)
       = Some (RegFile c))
    /\ lookup (fs_after (main args (fs_after (main args fs))))
              (target_of file args)
       = lookup (fs_after (main args fs)) (target_of file args)
    /\ forall j,
         nth_error files2 j = Some file ->
         nth_error (outcomes files2 args (fs_after (main args fs))) j
         = Some (Some skipped_destination_exists).
Proof.
  intros Hov Hg1 Hg2 i file Hn Hw.
  assert (E1 : fs_after (main args fs) = fs_after (for_files files args fs)).
  { now rewrite main_run, Hg1. }
  assert (E2 : fs_after (main args (fs_after (main args fs)))
               = fs_after (for_files files2 args (fs_after (main args fs)))).
  { now rewrite (main_run args (fs_after (main args fs))), Hg2. }
  rewrite E2. rewrite E1 in *. clear E1 E2 Hg1 Hg2.
  set (fs1 := fs_after (for_files files args fs)) in *.
  destruct (attempts_nth keeps files args keeps_refl keeps_trans
              (fun f => attempt_keeps f args Hov) i fs file Hn)
    as [s [Hs [_ Hk1]]].
  fold fs1 in Hk1.
  unfold outcomes in Hw. rewrite nth_error_map, Hs in Hw.
  simpl in Hw. inversion Hw as [Hw']; clear Hw.
  destruct (written_attempt file args s Hw') as [Hsucc Hfs].
  rewrite Hfs in Hk1.
  assert (Hboth :
    (exists c,
       lookup (fs_after (process_file file args s)) (target_of file args)
       = Some (RegFile c))
    /\ forall s' n,
         keeps s s' ->
         lookup s' (target_of file args) = Some n ->
         exists tr',
           process_file file args s' = Run (Return tt) s' tr'
           /\ outcome_of tr' = Some skipped_destination_exists).
  { destruct (str_in (extension file) VIDEO_EXT) eqn:Hv.
    - destruct (video_written file args s Hov Hv Hsucc) as [H1 H2].
      split; [exact H1|]. intros s' n _. apply H2.
    - exact (image_written file args s Hov Hv Hsucc). }
  destruct Hboth as [[c Hc] Hreplay].
  pose proof (Hk1 _ (RegFile c) eq_refl Hc) as Hc1.
  split; [now exists c|]. split.
  - rewrite Hc1.
    exact (for_files_keeps files2 args Hov fs1 _ (RegFile c) eq_refl Hc1).
  - intros j Hj.
    destruct (attempts_nth keeps files2 args keeps_refl keeps_trans
                (fun f => attempt_keeps f args Hov) j fs1 file Hj)
      as [s' [Hs' [Hk2 _]]].
    assert (Hss' : keeps s s').
    { apply (keeps_trans _ fs1); [|exact Hk2].
      apply (keeps_trans _ (fs_after (process_file file args s)));
        [|exact Hk1].
      now apply process_file_keeps. }
    destruct (Hreplay s' (RegFile c) Hss' (Hk2 _ (RegFile c) eq_refl Hc1))
      as [tr' [Hrun Hout]].
    unfold outcomes. rewrite nth_error_map, Hs'. cbn [option_map].
    now rewrite (skipped_attempt file args s' tr' Hrun Hout).
Qed.

End Idempotence.

Lemma C5_second_run_skips_witness :
  nth_error (@outcomes Demo.std Demo.files0 (Demo.args0 true false) Demo.fs1)
            0
  = Some (Some skipped_destination_exists)
  /\ lookup (fs_after (@main Demo.std (Demo.args0 true false) Demo.fs1))
            [u "out"; u "IMG-20230415-WA0001.jpg"]
     = lookup Demo.fs1 [u "out"; u "IMG-20230415-WA0001.jpg"].
Proof.
  destruct (@C5_second_run_skips Demo.std (Demo.args0 true false) Demo.fs0
              Demo.files0 Demo.files0 eq_refl eq_refl eq_refl 0
              (Demo.in_file "IMG-20230415-WA0001.jpg" "jpg")
              eq_refl eq_refl) as [_ [H2 H1]].
  split; [exact (H1 0 eq_refl) | exact H2].
Defined.

(** ** The inventory *)

Section Inventory.
Context {P : Platform}.

Lemma str_in_In k ks : str_in k ks = true <-> In k ks.
Proof.
  unfold str_in. rewrite existsb_exists. split.
  - intros [x [Hin Hx]]. apply str_eqb_eq in Hx. now subst.
  - intros Hin. exists k. split; [assumption | apply str_eqb_refl].
Qed.

(** in a directory without two entries of one name, an entry is what its
    name is bound to *)
Lemma distinct_assoc es k n :
  distinct (map fst es) = true -> In (k, n) es -> assoc k es = Some n.
Proof.
  induction es as [|[k' n'] es IH]; simpl; [intros _ []|].
  intros Hd [E|Hin].
  - inversion E; subst. now rewrite str_eqb_refl.
  - apply andb_prop in Hd. destruct Hd as [Hnot Hd].
    destruct (str_eqb k k') eqn:Ek.
    + apply str_eqb_eq in Ek. subst k'. exfalso.
      apply negb_true_iff in Hnot.
      assert (Hk : str_in k (map fst es) = true).
      { apply str_in_In. apply in_map_iff. now exists (k, n). }
      congruence.
    + now apply IH.
Qed.

Lemma assoc_In es k n : assoc k es = Some n -> In (k, n) es.
Proof.
  induction es as [|[k' n'] es IH]; simpl; [discriminate|].
  destruct (str_eqb k k') eqn:Ek.
  - intros E; inversion E; subst. apply str_eqb_eq in Ek. subst. now left.
  - intros E. right. now apply IH.
Qed.

Lemma wf_entry es k n :
  wf (Dir es) = true -> In (k, n) es ->
  assoc k es = Some n /\ valid_name k = true /\ wf n = true.
Proof.
  simpl. intros Hw Hin. apply andb_prop in Hw. destruct Hw as [Hd Hall].
  rewrite forallb_forall in Hall. specialize (Hall _ Hin). simpl in Hall.
  apply andb_prop in Hall. destruct Hall as [Hv Hwn].
  split; [now apply distinct_assoc | now split].
Qed.

(** what is found in a well-formed tree is well-formed, along valid names *)
Lemma wf_lookup : forall p t n,
  wf t = true -> lookup t p = Some n ->
  wf n = true /\ Forall (fun k => valid_name k = true) p.
Proof.
  induction p as [|k p IH]; intros t n Hw Hl.
  - simpl in Hl. inversion Hl; subst. now split.
  - simpl in Hl. destruct t as [c| |es]; try discriminate.
    destruct (assoc k es) as [n0|] eqn:Ha; [|discriminate].
    destruct (wf_entry es k n0 Hw (assoc_In _ _ _ Ha)) as [_ [Hv Hw0]].
    destruct (IH n0 n Hw0 Hl) as [H1 H2]. split; [assumption|].
    now constructor.
Qed.

Lemma commonprefix_app top rel : commonprefix top (top ++ rel) = top.
Proof.
  induction top as [|k top IH]; simpl; [reflexivity|].
  now rewrite str_eqb_refl, IH.
Qed.

(** [os.path.relpath] of a directory below the root *)
Lemma relpath_below top rel :
  os_path_relpath (top ++ rel) top =
  match rel with
  | [] => [curdir]
  | _ :: _ => rel
  end.
Proof.
  unfold os_path_relpath.
  rewrite commonprefix_app, Nat.sub_diag, skipn_app, Nat.sub_diag, skipn_all.
  simpl. now destruct rel.
Qed.

(** the loop body of the inventory for the entry [name] of [top ++ rel] *)
Lemma candidate_below top out rel name :
  Forall (fun k => valid_name k = true) rel ->
  candidate top out (os_path_join (top ++ rel) [name], top ++ rel) =
  if str_in (extension_of name) FILES_EXT
  then [candidate_file top out rel name]
  else [].
Proof.
  intros Hrel. unfold candidate, os_path_join, os_path_basename.
  rewrite last_last. fold (extension_of name).
  destruct (str_in (extension_of name) FILES_EXT); [|reflexivity].
  rewrite relpath_below. unfold candidate_file.
  assert (Hr : (if path_eqb match rel with [] => [curdir] | _ :: _ => rel end
                            [curdir]
                then [] else match rel with [] => [curdir] | _ :: _ => rel end)
               = rel).
  { destruct rel as [|k rel]; [reflexivity|].
    unfold path_eqb.
    destruct (list_eq_dec (list_eq_dec N.eq_dec) (k :: rel) [curdir])
      as [E|_]; [|reflexivity].
    inversion E; subst. inversion Hrel; subst. discriminate. }
  repeat match goal with
         | |- context [if ?c then ?a else ?b] =>
             replace (if c then a else b) with rel by (symmetry; exact Hr)
         end.
  destruct out as [o|]; [|now rewrite app_assoc].
  now rewrite !app_assoc.
Qed.

(** every triple of [os.walk] is a directory below the top *)
Lemma walk_sound : forall t top x,
  wf t = true -> In x (walk top t) ->
  exists rel es,
    fst (fst x) = top ++ rel /\ lookup t rel = Some (Dir es)
    /\ snd x = map fst (filter (fun kn => negb (is_dir (snd kn))) es).
Proof.
  induction t as [c| |es IH] using node_rect'; intros top x Hw Hin;
    try contradiction.
  simpl in Hin. destruct Hin as [<-|Hin].
  - exists [], es. simpl. now rewrite app_nil_r.
  - apply in_flat_map in Hin. destruct Hin as [[k n] [Hkn Hin]].
    rewrite Forall_forall in IH.
    destruct (wf_entry es k n Hw Hkn) as [Ha [_ Hwn]].
    destruct (IH (k, n) Hkn (top ++ [k]) x Hwn Hin) as [rel [es' [E [Hl Hs]]]].
    exists (k :: rel), es'. simpl in *. rewrite Ha.
    split; [now rewrite E, <- app_assoc|]. now split.
Qed.



Lemma lookup_snoc t p name :
  lookup t (p ++ [name]) =
  match lookup t p with
  | Some (Dir es) => assoc name es
  | _ => None
  end.
Proof.
  rewrite lookup_app. destruct (lookup t p) as [[c| |es]|]; try reflexivity.
  simpl. now destruct (assoc name es).
Qed.

End Inventory.

Section InventoryClaim.
Context {P : Platform}.

Lemma get_files_nonrecursive top out fs es :
  lookup fs top = Some (Dir es) ->
  res (get_files_from_path top false out fs)
  = Return
      (flat_map (candidate top out)
         (map (fun file => (os_path_join top [file], top))
            (filter (fun file => isfile_in fs (os_path_join top [file]))
               (map fst es)))).
Proof.
  intros Hl. unfold get_files_from_path, os_listdir, bind, get_fs, ret.
  simpl. rewrite Hl. reflexivity.
Qed.

Lemma get_files_recursive top out fs :
  res (get_files_from_path top true out fs)
  = Return
      (flat_map (candidate top out)
         (flat_map
            (fun t : path * list str * list str =>
               let '(root, _, files_in_dir) := t in
               map (fun file => (os_path_join root [file], root))
                   files_in_dir)
            match lookup fs top with
            | Some n => walk top n
            | None => []
            end)).
Proof.
  unfold get_files_from_path, os_walk, bind, get_fs, ret. simpl.
  destruct (lookup fs top); reflexivity.
Qed.


End InventoryClaim.



(* ================================================================== *)
(** * Part III: further properties of main.py                          *)
(* ================================================================== *)

(** ** UTF-8: what is encoded decodes *)

Ltac Zify.zify_post_hook ::= Z.to_euclidean_division_equations.

Lemma to_N_byte_of n : (n < 256)%N -> Byte.to_N (byte_of n) = n.
Proof.
  intros H. unfold byte_of. destruct (Byte.of_N n) as [b|] eqn:E.
  - now apply Byte.to_of_N.
  - apply Byte.of_N_None_iff in E. lia.
Qed.

Lemma byte_in_byte_of lo hi n :
  (n < 256)%N -> byte_in lo hi (byte_of n) = ((lo <=? n)%N && (n <=? hi)%N).
Proof. intros H. unfold byte_in. now rewrite to_N_byte_of. Qed.

Lemma cont_byte_of n : (n < 256)%N -> cont (byte_of n) = (n - 128)%N.
Proof. intros H. unfold cont. now rewrite to_N_byte_of. Qed.

Ltac decide_tests :=
  repeat match goal with
         | |- context [(?a <=? ?b)%N] =>
             lazymatch constr:((a, b)) with
             | context [N.leb] => fail
             | _ => destruct (N.leb_spec a b); try lia; cbn [andb]
             end
         end.

(** the bytes of one code point, named so that no arithmetic is unfolded *)
Ltac name_bytes :=
  repeat match goal with
         | |- context [byte_of ?n] =>
             tryif is_var n then fail
             else (let x := fresh "n" in
                   let E := fresh "E" in
                   remember n as x eqn:E;
                   assert (x < 256)%N by lia)
         end.

Lemma utf8_decode_encode_char c bc rest :
  utf8_encode_char c = Some bc ->
  utf8_decode (bc ++ rest) = option_map (cons c) (utf8_decode rest).
Proof.
  unfold utf8_encode_char.
  destruct (N.ltb_spec c 128).
  { intros [= <-]. cbn [app utf8_decode].
    rewrite byte_in_byte_of by lia. decide_tests.
    rewrite to_N_byte_of by lia. reflexivity. }
  destruct (N.ltb_spec c 2048).
  { name_bytes. intros [= <-]. cbn [app utf8_decode].
    rewrite !byte_in_byte_of by assumption. decide_tests.
    rewrite !cont_byte_of, !to_N_byte_of by assumption.
    f_equal. f_equal. lia. }
  destruct (N.ltb_spec c 65536).
  { destruct (N.leb_spec 55296 c); destruct (N.leb_spec c 57343);
      cbn [andb]; try discriminate;
      (name_bytes; intros [= <-]; cbn [app utf8_decode];
       rewrite !byte_in_byte_of by assumption; decide_tests;
       rewrite !cont_byte_of, !to_N_byte_of by assumption;
       f_equal; f_equal; lia). }
  destruct (N.ltb_spec c 1114112); [|discriminate].
  name_bytes. intros [= <-]. cbn [app utf8_decode].
  rewrite !byte_in_byte_of by assumption. decide_tests;
    rewrite !cont_byte_of, !to_N_byte_of by assumption;
    f_equal; f_equal; lia.
Qed.

(** what [str.encode] gives, [bytes.decode] reads back *)
Lemma utf8_decode_encode s : forall b,
  utf8_encode s = Some b -> utf8_decode b = Some s.
Proof.
  induction s as [|c s IH]; intros b E; simpl in E.
  - now inversion E.
  - destruct (utf8_encode_char c) as [bc|] eqn:Ec; [|discriminate].
    destruct (utf8_encode s) as [bs|]; [|discriminate].
    inversion E; subst b.
    now rewrite (utf8_decode_encode_char _ _ _ Ec), (IH _ eq_refl).
Qed.

Ltac Zify.zify_post_hook ::= idtac.

(** ** The parser and the synthesizer *)

Section ParserMore.
Context {P : Platform}.

(** the text of a date match and of a time match, in groups *)
Lemma date_match_groups dm :
  matches REGEX_FILENAME_DATE (m_text dm) ->
  digits 4 (group dm 0 4) /\ digits 2 (group dm 4 2) /\ digits 2 (group dm 6 2).
Proof.
  intros Hm. apply date_pattern_matches in Hm.
  destruct Hm as [y [mo [d [E [Hy [Hmo Hd]]]]]].
  destruct dm as [i t]. cbn [m_text] in E. subst t.
  destruct (date_groups i y mo d Hy Hmo Hd) as [-> [-> ->]].
  split; [|split]; assumption.
Qed.

Lemma time_match_groups tm :
  matches REGEX_FILENAME_TIME (m_text tm) ->
  digits 2 (group tm 3 2) /\ digits 2 (group tm 6 2) /\ digits 2 (group tm 9 2).
Proof.
  intros Hm. apply time_pattern_matches in Hm.
  destruct Hm as [h [mi [se [E [Hh [Hmi Hse]]]]]].
  destruct tm as [i t]. cbn [m_text] in E. subst t.
  destruct (time_groups i h mi se Hh Hmi Hse) as [-> [-> ->]].
  split; [|split]; assumption.
Qed.

(** X1.  Whenever the filename has a date, the capture timestamp that the
    parser sets has, as a whole, the shape that the presence check looks
    for: four digits, colon, two digits, colon, two digits, space, two
    digits, colon, two digits, colon, two digits; it is 19 characters
    long. *)
Theorem parsed_date_has_exif_shape (file file' : File) (fs : node) :
  res (parse_filename_to_date file fs) = Return file' ->
  some_occurrence date_pattern (filename file) ->
  exif_date_shape (parsed_date file') /\ length (parsed_date file') = 19.
Proof.
  intros Hres Hocc.
  apply (search_some_occurrence _ _ _ date_pattern_matches) in Hocc.
  destruct Hocc as [dm Hd].
  destruct (re_search_Some _ _ _ Hd) as [_ [Hm _]].
  destruct (date_match_groups dm Hm) as [Hy [Hmo Hdd]].
  assert (Hshape : forall h mi se,
             digits 2 h -> digits 2 mi -> digits 2 se ->
             let d := (group dm 0 4 ++ u ":" ++ group dm 4 2 ++ u ":"
                       ++ group dm 6 2)
                      ++ u " " ++ h ++ u ":" ++ mi ++ u ":" ++ se in
             exif_date_shape d /\ length d = 19).
  { intros h mi se Hh Hmi Hse d. subst d. split.
    - exists (group dm 0 4), (group dm 4 2), (group dm 6 2), h, mi, se.
      split; [now rewrite <- !app_assoc|]. tauto.
    - destruct Hy as [Ly _], Hmo as [Lmo _], Hdd as [Ld _], Hh as [Lh _],
        Hmi as [Lmi _], Hse as [Lse _].
      rewrite !length_app, Ly, Lmo, Ld, Lh, Lmi, Lse. reflexivity. }
  unfold parse_filename_to_date in Hres. rewrite Hd in Hres.
  apply (f_equal (fun r => match r with
                           | Return f => parsed_date f
                           | Raise _ => []
                           end)) in Hres.
  cbn [res bind emit ret fs_after parsed_date set_parsed_date] in Hres.
  rewrite <- Hres.
  destruct (re_search REGEX_FILENAME_TIME (filename file)) as [tm|] eqn:Ht.
  - destruct (re_search_Some _ _ _ Ht) as [_ [Hmt _]].
    destruct (time_match_groups tm Hmt) as [Hh [Hmi Hse]].
    exact (Hshape _ _ _ Hh Hmi Hse).
  - apply (Hshape (u "00") (u "00") (u "00"));
      (split; [reflexivity | repeat constructor]).
Qed.

(** X2.  The parser touches nothing but the capture timestamp, and parsing
    its result again gives the same file: the date is a function of the
    filename, which stays. *)
Theorem parse_filename_to_date_idempotent (file : File) (fs : node) :
  exists file',
    res (parse_filename_to_date file fs) = Return file'
    /\ file' = set_parsed_date file (parsed_date file')
    /\ res (parse_filename_to_date file' fs) = Return file'.
Proof.
  unfold parse_filename_to_date.
  destruct (re_search REGEX_FILENAME_DATE (filename file)) as [dm|] eqn:Hd.
  - eexists. split; [reflexivity|]. split; [reflexivity|].
    cbn [filename set_parsed_date]. rewrite Hd. reflexivity.
  - exists file. split; [reflexivity|]. split; [now destruct file|].
    rewrite Hd. reflexivity.
Qed.

End ParserMore.

Lemma parsed_date_has_exif_shape_witness :
  @exif_date_shape Demo.std (u "2023:04:15 14:05:09")
  /\ length (u "2023:04:15 14:05:09") = 19.
Proof.
  apply (@parsed_date_has_exif_shape Demo.std
           (mkFile (u "IMG-20230415 at 14.05.09.jpg") [] None (u "jpg")
                   [] [] [])
           (mkFile (u "IMG-20230415 at 14.05.09.jpg") [] None (u "jpg")
                   (u "2023:04:15 14:05:09") [] [])
           Demo.fs0 eq_refl).
  exists (u "IMG-"), (u "20230415"). split.
  - now exists (u " at 14.05.09.jpg").
  - exists (u "2023"), (u "04"), (u "15").
    repeat split; try reflexivity; repeat constructor.
Defined.

Section Synthesizer.
Context {P : Platform}.

(** X3.  The two tags that the synthesizer builds from a capture timestamp
    carry its UTF-8 bytes, which decode back to the timestamp; the scan of
    the presence check, run on these tags, answers true at the first of
    them.  What [new_image_exif_data] returns is the codec's serialization
    of these tags. *)
Theorem built_tags_are_recognised (file : File) (fs : node) (b : bytes) :
  exif_date_shape (parsed_date file) ->
  utf8_encode (parsed_date file) = Some b ->
  res (new_image_exif_data file fs)
  = match piexif_dump_Exif [(DateTimeOriginal, ExifBytes b);
                            (DateTimeDigitized, ExifBytes b)] with
    | Return e => Return (set_exif_bytes file e, e)
    | Raise x => Raise x
    end
  /\ utf8_decode b = Some (parsed_date file)
  /\ scan_items [(DateTimeOriginal, ExifBytes b);
                 (DateTimeDigitized, ExifBytes b)] fs
     = Run (Return true) fs [DebugFoundExifDate (parsed_date file)].
Proof.
  intros Hshape Henc.
  pose proof (utf8_decode_encode _ _ Henc) as Hdec.
  split; [|split; [exact Hdec|]].
  - unfold new_image_exif_data. rewrite Henc.
    unfold bind, ret, emit, lift; cbn [res fs_after trace].
    destruct (piexif_dump_Exif _); reflexivity.
  - cbn [scan_items]. rewrite Hdec.
    assert (Hs : exists mo,
               re_search exif_date_pattern (parsed_date file) = Some mo).
    { apply (search_some_occurrence _ _ _ exif_date_shape_matches).
      exists [], (parsed_date file). split; [|exact Hshape].
      exists []. now rewrite app_nil_r. }
    destruct Hs as [mo ->]. reflexivity.
Qed.

End Synthesizer.

Lemma built_tags_are_recognised_witness :
  @scan_items Demo.std
    [(DateTimeOriginal, ExifBytes (list_byte_of_string "2023:04:15 00:00:00"));
     (DateTimeDigitized, ExifBytes (list_byte_of_string "2023:04:15 00:00:00"))]
    Demo.fs0
  = Run (Return true) Demo.fs0 [DebugFoundExifDate (u "2023:04:15 00:00:00")].
Proof.
  apply (@built_tags_are_recognised Demo.std
           (mkFile (u "IMG-20230415-WA0001.jpg") [] None (u "jpg")
                   (u "2023:04:15 00:00:00") [] [])
           Demo.fs0 (list_byte_of_string "2023:04:15 00:00:00")).
  - exists (u "2023"), (u "04"), (u "15"), (u "00"), (u "00"), (u "00").
    repeat split; try reflexivity; repeat constructor.
  - reflexivity.
Defined.

Section Skips.
Context {P : Platform}.

(** what [parse_filename_to_date] returned is what it returns from any file
    system, with the same events *)
Lemma parse_anywhere file fs file' :
  res (parse_filename_to_date file fs) = Return file' ->
  exists tr,
    (forall s, parse_filename_to_date file s = Run (Return file') s tr)
    /\ Forall quiet tr
    /\ (forall e, In e tr -> exists d, e = DebugParsedDate d)
    /\ filename file' = filename file
    /\ extension file' = extension file
    /\ file_path file' = file_path file
    /\ relative_dir file' = relative_dir file.
Proof.
  intros Hres.
  destruct (parse_run file) as [f2 [tr [Hp [Hq [Htr [Hn [He [Hfp Hrd]]]]]]]].
  rewrite Hp in Hres. cbn [res] in Hres. injection Hres as ->.
  exists tr. now repeat split.
Qed.

(** X4.  An image in which the presence check finds a capture date is
    left alone: [process_file] prints "already has EXIF date" and returns;
    the filename is not parsed, and the file system is as it was. *)
Theorem dated_image_is_skipped (file : File) (args : Args) (fs : node) :
  str_in (extension file) VIDEO_EXT = false ->
  res (check_exif file fs) = Return true ->
  process_file file args fs
  = Run (Return tt) fs
        (trace (check_exif file fs) ++ [InfoHasExifDate (filename file)])
  /\ outcome_of (trace (process_file file args fs))
     = Some skipped_has_metadata
  /\ forall d, ~ In (DebugParsedDate d) (trace (process_file file args fs)).
Proof.
  intros Hv Hc.
  destruct (parse_run file) as [f2 [tr [Hp _]]].
  rewrite (process_image file args fs f2 tr Hv Hp). cbv zeta. rewrite Hc.
  split; [reflexivity|]. cbn [trace]. split.
  - rewrite outcome_of_quiet_l; [reflexivity | apply check_exif_emits].
  - intros d Hin. apply in_app_or in Hin. destruct Hin as [Hin|[Hin|[]]].
    + destruct (check_exif_found _ _ _ Hin). discriminate.
    + discriminate.
Qed.

(** X5.  A file whose name has no date (and no timestamp yet) is skipped
    with "no date found in filename": a video without its source being
    read at all, an image after the presence check said no.  The file
    system is as it was. *)
Theorem undated_file_is_skipped (file : File) (args : Args) (fs : node) :
  no_occurrence date_pattern (filename file) ->
  parsed_date file = [] ->
  (str_in (extension file) VIDEO_EXT = true
   \/ res (check_exif file fs) = Return false) ->
  res (process_file file args fs) = Return tt
  /\ fs_after (process_file file args fs) = fs
  /\ outcome_of (trace (process_file file args fs))
     = Some skipped_no_date_found
  /\ last (trace (process_file file args fs)) SpinnerStart
     = WarnNoDate (filename file).
Proof.
  intros Hno Hd Hcase.
  assert (Hp : forall s, parse_filename_to_date file s = Run (Return file) s []).
  { intros s. unfold parse_filename_to_date.
    now rewrite (search_no_occurrence _ _ _ date_pattern_matches Hno). }
  destruct (str_in (extension file) VIDEO_EXT) eqn:Hv.
  - rewrite (process_video file args fs file [] Hv Hp), Hd. now repeat split.
  - destruct Hcase as [Hcase|Hc]; [discriminate|].
    rewrite (process_image file args fs file [] Hv Hp). cbv zeta.
    rewrite Hc, Hd. cbn [res fs_after trace app].
    split; [reflexivity|]. split; [reflexivity|]. split.
    + rewrite outcome_of_quiet_l; [reflexivity | apply check_exif_emits].
    + apply last_last.
Qed.

End Skips.

Lemma dated_image_is_skipped_witness :
  @process_file Demo.std (Demo.in_file "IMG-20210102-WA0003.jpg" "jpg")
    (Demo.args0 true false) Demo.fs0
  = Run (Return tt) Demo.fs0
        [DebugFoundExifDate (u "2021:01:02 03:04:05");
         InfoHasExifDate (u "IMG-20210102-WA0003.jpg")].
Proof.
  exact (proj1 (@dated_image_is_skipped Demo.std
                  (Demo.in_file "IMG-20210102-WA0003.jpg" "jpg")
                  (Demo.args0 true false) Demo.fs0 eq_refl eq_refl)).
Defined.

Lemma undated_file_is_skipped_witness :
  outcome_of (trace (@process_file Demo.std
                       (mkFile (u "holiday.mp4") [u "in"; u "holiday.mp4"]
                               None (u "mp4") [] [] [])
                       (Demo.args0 true false) Demo.fs0))
  = Some skipped_no_date_found.
Proof.
  refine (proj1 (proj2 (proj2
            (@undated_file_is_skipped Demo.std
               (mkFile (u "holiday.mp4") [u "in"; u "holiday.mp4"]
                       None (u "mp4") [] [] [])
               (Demo.args0 true false) Demo.fs0 _ eq_refl
               (or_introl eq_refl))))).
  apply (@not_found_no_occurrence Demo.std _ REGEX_FILENAME_DATE).
  - apply date_pattern_matches.
  - reflexivity.
Defined.

(** ** Videos: the copy, the tool, what is left *)

Section VideoRuns.
Context {P : Platform}.

Lemma bind_prepend {A B} (m : M A) (k : A -> M B) fs tr0 (r : run A) :
  m fs = prepend tr0 r ->
  bind m k fs = prepend tr0 (bind (fun _ => r) k fs).
Proof.
  intros H. unfold bind. rewrite H. unfold prepend. cbn [res fs_after trace].
  destruct (res r); cbn [res fs_after trace]; now rewrite ?app_assoc.
Qed.

Lemma prepend_prepend {A} tr1 tr2 (r : run A) :
  prepend tr1 (prepend tr2 r) = prepend (tr1 ++ tr2) r.
Proof. unfold prepend. cbn [res fs_after trace]. now rewrite app_assoc. Qed.

Lemma target_of_parsed file file' args :
  filename file' = filename file ->
  relative_dir file' = relative_dir file ->
  target_dir_of file' (output_path args) ++ [filename file']
  = target_of file args.
Proof.
  intros Hn Hrd. unfold target_of, os_path_join.
  now rewrite (target_dir_of_eq _ _ _ Hrd), Hn.
Qed.

Lemma target_of_snoc file args :
  target_of file args
  = target_dir_of file (output_path args) ++ [filename file].
Proof. reflexivity. Qed.

Lemma target_of_not_root file args : target_of file args <> [].
Proof.
  rewrite target_of_snoc.
  now destruct (target_dir_of file (output_path args)).
Qed.

(** what [os.makedirs] makes that was not there is an empty directory *)
Lemma mkdirs_fresh full : forall p t t',
  lookup t p = None -> mkdirs full p t = Return t' ->
  lookup t' p = Some (Dir []).
Proof.
  induction p as [|k p IH]; intros t t' Hl Hm; [discriminate|].
  destruct t as [c| |es]; simpl in Hm; try discriminate.
  rewrite lookup_cons in Hl.
  destruct (mkdirs full p
              (match assoc k es with Some n0 => n0 | None => Dir [] end))
    as [n'|e] eqn:Hm'; [|discriminate].
  injection Hm as <-. rewrite lookup_cons, assoc_put_entry_same.
  destruct (assoc k es) as [n0|].
  - exact (IH _ _ Hl Hm').
  - destruct p as [|k1 p1].
    + simpl in Hm'. injection Hm' as <-. reflexivity.
    + exact (IH (Dir []) _ eq_refl Hm').
Qed.

(** the entries of the directory in which [update] works *)
Lemma lookup_update_dir f dir k : forall t es,
  lookup t dir = Some (Dir es) ->
  lookup (update f (dir ++ [k]) t) dir = Some (Dir (f k es)).
Proof.
  induction dir as [|k0 dir IH]; intros t es Hl.
  - simpl in Hl. injection Hl as ->. reflexivity.
  - simpl in Hl. destruct t as [c| |es0]; try discriminate.
    destruct (assoc k0 es0) as [n0|] eqn:Ha; [|discriminate].
    change ((k0 :: dir) ++ [k]) with (k0 :: (dir ++ [k])).
    destruct (dir ++ [k]) as [|k1 r] eqn:E.
    { destruct dir; discriminate. }
    rewrite update_cons_cons, Ha, lookup_cons, assoc_put_entry_same.
    exact (IH n0 es Hl).
Qed.

(** a video whose target is free, once the copy is made *)
Lemma video_copy_run file args fs file' c s :
  str_in (extension file) VIDEO_EXT = true ->
  which_exiftool = true ->
  res (parse_filename_to_date file fs) = Return file' ->
  parsed_date file' <> [] ->
  lookup fs (target_of file args) = None ->
  mkdirs (target_dir_of file (output_path args))
         (target_dir_of file (output_path args)) fs = Return s ->
  lookup fs (file_path file) = Some (RegFile c) ->
  exists tr,
    Forall quiet tr
    /\ (forall e, In e tr -> exists d, e = DebugParsedDate d)
    /\ process_file file args fs
       = prepend (tr ++ [FsMakedirs (target_dir_of file (output_path args));
                         FsWrite (target_of file args)])
           (bind (fun _ => after_copy file' (target_of file args) c
                             (write_at (target_of file args) (RegFile c) s))
                 (report file') fs)
    /\ lookup s (target_of file args) = None
    /\ (exists es,
          lookup s (target_dir_of file (output_path args)) = Some (Dir es))
    /\ lookup s (file_path file) = Some (RegFile c)
    /\ filename file' = filename file.
Proof.
  intros Hv Htool Hres Hdate HT0 Hmk Hsrc.
  destruct (parse_anywhere file fs file' Hres)
    as [tr [Hp [Hq [Htr [Hn [_ [Hfp Hrd]]]]]]].
  pose proof (target_of_parsed file file' args Hn Hrd) as HT.
  pose proof (target_dir_of_eq file file' (output_path args) Hrd) as Hdir.
  exists tr. split; [exact Hq|]. split; [exact Htr|].
  rewrite (process_video file args fs file' tr Hv Hp), Htool.
  destruct (parsed_date file') as [|d0 d] eqn:Hd; [contradiction|].
  rewrite save_video_exif_data_policy.
  destruct (policy_fresh file' (output_path args) (overwrite args)
              (write_video file') fs s) as [Hrun [HsT [es Hsd]]].
  { now rewrite HT. }
  { now rewrite Hdir. }
  assert (Hs : lookup s (file_path file) = Some (RegFile c)).
  { apply (mkdirs_keeps _ _ _ _ Hmk _ (RegFile c) eq_refl Hsrc). }
  rewrite (write_video_run file' _ _ s c es Hsd (or_introl HsT)) in Hrun
    by now rewrite Hfp.
  rewrite prepend_prepend, HT, Hdir in Hrun.
  rewrite (bind_prepend _ _ _ _ _ Hrun), prepend_prepend.
  rewrite HT in HsT. rewrite Hdir in Hsd.
  split; [reflexivity|]. split; [exact HsT|].
  split; [now exists es|]. now split.
Qed.

(** writing twice at a fresh path keeps every file that was there *)
Lemma writes_keep T n1 n2 s :
  lookup s T = None ->
  keeps s (write_at T n2 (write_at T n1 s)).
Proof.
  intros HT. apply (keeps_outside_fresh T _ _ HT).
  apply (keeps_outside_trans _ _ (write_at T n1 s));
    apply lookup_update_frame, put_entry_local.
Qed.

(** X6.  A video whose target path is free, with the tool installed and
    [subprocess.run] returning (the tool exits with status zero and its
    output decodes): the source is copied to the target, the tool rewrites
    the copy, and [process_file] prints the success line with the
    timestamp.  The target holds what the tool left; the source is as it
    was. *)
Theorem video_is_written (file file' : File) (args : Args) (fs s : node)
    (c c' : bytes) :
  str_in (extension file) VIDEO_EXT = true ->
  which_exiftool = true ->
  res (parse_filename_to_date file fs) = Return file' ->
  parsed_date file' <> [] ->
  lookup fs (target_of file args) = None ->
  mkdirs (target_dir_of file (output_path args))
         (target_dir_of file (output_path args)) fs = Return s ->
  lookup fs (file_path file) = Some (RegFile c) ->
  exiftool (exiftool_cmd file' (target_of file args)) (Some c) = ToolOk c' ->
  res (process_file file args fs) = Return tt
  /\ lookup (fs_after (process_file file args fs)) (target_of file args)
     = Some (RegFile c')
  /\ lookup (fs_after (process_file file args fs)) (file_path file)
     = Some (RegFile c)
  /\ keeps fs (fs_after (process_file file args fs))
  /\ last (trace (process_file file args fs)) SpinnerStart
     = Succeed (filename file) (parsed_date file')
  /\ outcome_of (trace (process_file file args fs)) = Some written.
Proof.
  intros Hv Htool Hres Hdate HT0 Hmk Hsrc Hok.
  destruct (video_copy_run file args fs file' c s Hv Htool Hres Hdate HT0
              Hmk Hsrc) as [tr [Hq [Htr [Hrun [HsT [[es Hsd] [Hs Hn]]]]]]].
  rewrite Hrun. unfold prepend, bind, after_copy. rewrite Hok.
  cbn [res fs_after trace report emit]. rewrite Hn.
  pose proof (writes_keep (target_of file args) (RegFile c) (RegFile c') s HsT)
    as Hk.
  split; [reflexivity|]. split; [|split; [|split; [|split]]].
  - rewrite target_of_snoc.
    destruct (update_parent_dir (fun k => put_entry k (RegFile c))
                _ (filename file) s es Hsd) as [es1 Hd1].
    exact (lookup_write_same _ _ _ _ es1 Hd1).
  - exact (Hk _ (RegFile c) eq_refl Hs).
  - apply (keeps_trans _ s); [exact (mkdirs_keeps _ _ _ _ Hmk) | exact Hk].
  - rewrite !app_assoc. apply last_last.
  - rewrite <- app_assoc, (outcome_of_quiet_l _ _ Hq). reflexivity.
Qed.

(** X7.  When [subprocess.run] ends in an exception that is not
    [CalledProcessError] (the output of the tool does not decode, say),
    nothing is cleaned up: the exception leaves [process_file], and the
    copy stays at the target path as the tool left it, without a success
    line. *)
Theorem other_tool_error_leaves_copy (file file' : File) (args : Args)
    (fs s : node) (c c' : bytes) (e : exn) :
  str_in (extension file) VIDEO_EXT = true ->
  which_exiftool = true ->
  res (parse_filename_to_date file fs) = Return file' ->
  parsed_date file' <> [] ->
  lookup fs (target_of file args) = None ->
  mkdirs (target_dir_of file (output_path args))
         (target_dir_of file (output_path args)) fs = Return s ->
  lookup fs (file_path file) = Some (RegFile c) ->
  exiftool (exiftool_cmd file' (target_of file args)) (Some c)
  = ToolError e c' ->
  (forall stderr, e <> CalledProcessError stderr) ->
  res (process_file file args fs) = Raise e
  /\ lookup (fs_after (process_file file args fs)) (target_of file args)
     = Some (RegFile c')
  /\ (forall p, ~ In (FsRemove p) (trace (process_file file args fs)))
  /\ reports is_success (trace (process_file file args fs)) = false.
Proof.
  intros Hv Htool Hres Hdate HT0 Hmk Hsrc Herr Hne.
  destruct (video_copy_run file args fs file' c s Hv Htool Hres Hdate HT0
              Hmk Hsrc) as [tr [Hq [Htr [Hrun [HsT [[es Hsd] [Hs Hn]]]]]]].
  rewrite Hrun. unfold prepend, bind, after_copy. rewrite Herr.
  assert (E : match e with
              | CalledProcessError stderr =>
                  Run (Return None)
                    (remove_at (target_of file args)
                       (write_at (target_of file args) (RegFile c')
                          (write_at (target_of file args) (RegFile c) s)))
                    [RunTool (exiftool_cmd file' (target_of file args));
                     FsWrite (target_of file args);
                     ErrorExiftoolFailed stderr;
                     FsRemove (target_of file args)]
              | _ =>
                  Run (@Raise (option File) e)
                    (write_at (target_of file args) (RegFile c')
                       (write_at (target_of file args) (RegFile c) s))
                    [RunTool (exiftool_cmd file' (target_of file args));
                     FsWrite (target_of file args)]
              end
              = Run (Raise e)
                  (write_at (target_of file args) (RegFile c')
                     (write_at (target_of file args) (RegFile c) s))
                  [RunTool (exiftool_cmd file' (target_of file args));
                   FsWrite (target_of file args)]).
  { destruct e; try reflexivity. now destruct (Hne stderr). }
  rewrite E. cbn [res fs_after trace].
  split; [reflexivity|]. split; [|split].
  - rewrite target_of_snoc.
    destruct (update_parent_dir (fun k => put_entry k (RegFile c))
                _ (filename file) s es Hsd) as [es1 Hd1].
    exact (lookup_write_same _ _ _ _ es1 Hd1).
  - intros p Hin. apply in_app_or in Hin. destruct Hin as [Hin|Hin].
    + apply in_app_or in Hin. destruct Hin as [Hin|Hin].
      * destruct (Htr _ Hin). discriminate.
      * destruct Hin as [Hin|[Hin|[]]]; discriminate.
    + destruct Hin as [Hin|[Hin|[]]]; discriminate.
  - rewrite !reports_app.
    destruct (quiet_reports_nothing tr Hq) as [_ [-> _]]. reflexivity.
Qed.

(** X8.  The cleanup after [CalledProcessError] (a non-zero exit of the
    tool whose output decodes) removes the copy and nothing else: the
    directory that was made for the target stays, and when this run made
    it, it is left behind empty. *)
Theorem failed_video_leaves_directory (file file' : File) (args : Args)
    (fs s : node) (c c' : bytes) (stderr : str) :
  str_in (extension file) VIDEO_EXT = true ->
  which_exiftool = true ->
  res (parse_filename_to_date file fs) = Return file' ->
  parsed_date file' <> [] ->
  lookup fs (target_of file args) = None ->
  mkdirs (target_dir_of file (output_path args))
         (target_dir_of file (output_path args)) fs = Return s ->
  lookup fs (file_path file) = Some (RegFile c) ->
  exiftool (exiftool_cmd file' (target_of file args)) (Some c)
  = ToolExit stderr c' ->
  lookup (fs_after (process_file file args fs)) (target_of file args) = None
  /\ (exists es,
        lookup (fs_after (process_file file args fs))
               (target_dir_of file (output_path args)) = Some (Dir es))
  /\ (lookup fs (target_dir_of file (output_path args)) = None ->
      lookup (fs_after (process_file file args fs))
             (target_dir_of file (output_path args)) = Some (Dir [])).
Proof.
  intros Hv Htool Hres Hdate HT0 Hmk Hsrc Hexit.
  destruct (video_copy_run file args fs file' c s Hv Htool Hres Hdate HT0
              Hmk Hsrc) as [tr [Hq [Htr [Hrun [HsT [[es Hsd] [Hs Hn]]]]]]].
  rewrite Hrun. unfold prepend, bind, after_copy. rewrite Hexit.
  cbn [res fs_after trace report ret].
  split; [apply lookup_remove_same, target_of_not_root|].
  rewrite target_of_snoc. unfold remove_at, write_at.
  rewrite (lookup_update_dir _ _ _ _ _
             (lookup_update_dir _ _ _ _ _
                (lookup_update_dir _ _ _ _ _ Hsd))).
  split; [now eexists|].
  intros Hnew. rewrite (mkdirs_fresh _ _ _ _ Hnew Hmk) in Hsd.
  injection Hsd as <-. cbn [put_entry].
  rewrite str_eqb_refl. cbn [remove_key]. now rewrite str_eqb_refl.
Qed.

(** X9.  With overwrite requested and the target path being the path of
    the source itself (the output directory is the input directory), a
    video loses its file: the "existing target" is removed, and the copy
    that follows finds no source.  [process_file] raises
    [FileNotFoundError]. *)
Theorem overwrite_onto_source_removes_video (file file' : File)
    (args : Args) (fs : node) (c : bytes) :
  str_in (extension file) VIDEO_EXT = true ->
  which_exiftool = true ->
  res (parse_filename_to_date file fs) = Return file' ->
  parsed_date file' <> [] ->
  overwrite args = true ->
  target_of file args = file_path file ->
  lookup fs (file_path file) = Some (RegFile c) ->
  res (process_file file args fs) = Raise (FileNotFoundError (file_path file))
  /\ fs_after (process_file file args fs) = remove_at (file_path file) fs
  /\ lookup (fs_after (process_file file args fs)) (file_path file) = None.
Proof.
  intros Hv Htool Hres Hdate Hov Hsame Hsrc.
  destruct (parse_anywhere file fs file' Hres)
    as [tr [Hp [Hq [Htr [Hn [_ [Hfp Hrd]]]]]]].
  pose proof (target_of_parsed file file' args Hn Hrd) as HT.
  rewrite (process_video file args fs file' tr Hv Hp), Htool.
  destruct (parsed_date file') as [|d0 d] eqn:Hd; [contradiction|].
  rewrite save_video_exif_data_policy, Hov.
  assert (Hrun : with_collision_policy file' (output_path args) true
                   (write_video file') fs
                 = Run (Raise (FileNotFoundError (file_path file)))
                       (remove_at (file_path file) fs)
                       [FsMakedirs (target_dir_of file' (output_path args));
                        FsRemove (file_path file)]).
  { rewrite (policy_overwrite file' (output_path args) (write_video file')
               fs (RegFile c)); [|now rewrite HT, Hsame | reflexivity].
    rewrite HT, Hsame. unfold write_video, shutil_copy2.
    assert (Hgone : open_rb (file_path file')
                      (remove_at (file_path file) fs)
                    = Run (Raise (FileNotFoundError (file_path file)))
                          (remove_at (file_path file) fs) []).
    { unfold open_rb, bind, get_fs. cbn [res fs_after trace]. rewrite Hfp.
      rewrite lookup_remove_same; [reflexivity|].
      rewrite <- Hsame. apply target_of_not_root. }
    rewrite (bind_Raise _ _ _ _ _ _
               (bind_Raise _ _ _ _ _ _ Hgone)).
    reflexivity. }
  rewrite (bind_Raise _ _ _ _ _ _ Hrun). cbn [prepend res fs_after trace].
  split; [reflexivity|]. split; [reflexivity|].
  apply lookup_remove_same. rewrite <- Hsame. apply target_of_not_root.
Qed.

(** [os.makedirs] of a path that holds something that is no directory *)
Lemma mkdirs_blocked full : forall p t n,
  lookup t p = Some n -> is_dir n = false ->
  mkdirs full p t = Raise (FileExistsError full).
Proof.
  induction p as [|k p IH]; intros t n Hl Hn.
  - simpl in Hl. injection Hl as ->. now destruct n.
  - destruct t as [c| |es]; try discriminate.
    rewrite lookup_cons in Hl. simpl.
    destruct (assoc k es) as [n0|]; [|discriminate].
    now rewrite (IH n0 n Hl Hn).
Qed.

(** X10.  With overwrite requested, a directory at the target path is not
    removed: both save functions raise [IsADirectoryError] from
    [os.remove], and the file system is as it was. *)
Theorem directory_at_target_is_kept (file : File) (img : image) (out : path)
    (fs : node) (es : list (str * node)) :
  lookup fs (target_dir_of file out ++ [filename file]) = Some (Dir es) ->
  save_exif_data file img out true fs
  = Run (Raise (IsADirectoryError (target_dir_of file out ++ [filename file])))
        fs [FsMakedirs (target_dir_of file out)]
  /\ save_video_exif_data file out true fs
     = Run (Raise (IsADirectoryError
                     (target_dir_of file out ++ [filename file])))
           fs [FsMakedirs (target_dir_of file out)].
Proof.
  intros Hl. rewrite save_exif_data_policy, save_video_exif_data_policy.
  now rewrite !(policy_target_is_directory _ _ _ _ _ Hl).
Qed.

(** X11.  When something that is no directory has the name of the target
    directory (the output path is a file, say), both save functions raise
    [FileExistsError] from [os.makedirs], whatever the overwrite flag, and
    nothing is written. *)
Theorem target_directory_blocked (file : File) (img : image) (out : path)
    (ow : bool) (fs n : node) :
  lookup fs (target_dir_of file out) = Some n ->
  is_dir n = false ->
  save_exif_data file img out ow fs
  = Run (Raise (FileExistsError (target_dir_of file out))) fs []
  /\ save_video_exif_data file out ow fs
     = Run (Raise (FileExistsError (target_dir_of file out))) fs [].
Proof.
  intros Hl Hn. rewrite save_exif_data_policy, save_video_exif_data_policy.
  pose proof (mkdirs_blocked (target_dir_of file out) _ _ _ Hl Hn) as Hm.
  now rewrite !(policy_no_directory _ _ _ _ _ _ Hm).
Qed.

End VideoRuns.

Lemma video_is_written_witness :
  lookup (fs_after (@process_file Demo.std
                      (Demo.in_file "VID-20230416-WA0002.mp4" "mp4")
                      (Demo.args0 true false) Demo.fs0))
         [u "out"; u "VID-20230416-WA0002.mp4"]
  = Some (RegFile [x00; x00; x01])
  /\ outcome_of (trace (@process_file Demo.std
                          (Demo.in_file "VID-20230416-WA0002.mp4" "mp4")
                          (Demo.args0 true false) Demo.fs0))
     = Some written.
Proof.
  destruct (@video_is_written Demo.std
              (Demo.in_file "VID-20230416-WA0002.mp4" "mp4")
              (set_parsed_date (Demo.in_file "VID-20230416-WA0002.mp4" "mp4")
                 (u "2023:04:16 00:00:00"))
              (Demo.args0 true false) Demo.fs0 Demo.fs0
              [x00; x00] [x00; x00; x01]
              eq_refl eq_refl eq_refl ltac:(discriminate) eq_refl eq_refl
              eq_refl eq_refl)
    as [_ [H1 [_ [_ [_ H2]]]]].
  split; [exact H1 | exact H2].
Defined.

Lemma other_tool_error_leaves_copy_witness :
  res (@process_file Faulty.garbled_tool
         (Demo.in_file "VID-20230416-WA0002.mp4" "mp4")
         (Demo.args0 true false) Demo.fs0)
  = Raise (UnicodeDecodeError [xff; xfe])
  /\ lookup (fs_after (@process_file Faulty.garbled_tool
                         (Demo.in_file "VID-20230416-WA0002.mp4" "mp4")
                         (Demo.args0 true false) Demo.fs0))
            [u "out"; u "VID-20230416-WA0002.mp4"]
     = Some (RegFile [x00; x00; x01]).
Proof.
  destruct (@other_tool_error_leaves_copy Faulty.garbled_tool
              (Demo.in_file "VID-20230416-WA0002.mp4" "mp4")
              (set_parsed_date (Demo.in_file "VID-20230416-WA0002.mp4" "mp4")
                 (u "2023:04:16 00:00:00"))
              (Demo.args0 true false) Demo.fs0 Demo.fs0
              [x00; x00] [x00; x00; x01]
              (UnicodeDecodeError [xff; xfe])
              eq_refl eq_refl eq_refl ltac:(discriminate) eq_refl eq_refl
              eq_refl eq_refl ltac:(discriminate))
    as [H1 [H2 _]].
  split; [exact H1 | exact H2].
Defined.

Lemma failed_video_leaves_directory_witness :
  lookup (fs_after (@process_file (Demo.platform true false true)
                      (mkFile (u "VID-20230416-WA0002.mp4")
                              [u "in"; u "VID-20230416-WA0002.mp4"] None
                              (u "mp4") [] [] [u "2023"])
                      (Demo.args0 true false) Demo.fs0))
         [u "out"; u "2023"]
  = Some (Dir []).
Proof.
  destruct (@failed_video_leaves_directory (Demo.platform true false true)
              (mkFile (u "VID-20230416-WA0002.mp4")
                      [u "in"; u "VID-20230416-WA0002.mp4"] None
                      (u "mp4") [] [] [u "2023"])
              (mkFile (u "VID-20230416-WA0002.mp4")
                      [u "in"; u "VID-20230416-WA0002.mp4"] None
                      (u "mp4") (u "2023:04:16 00:00:00") [] [u "2023"])
              (Demo.args0 true false) Demo.fs0
              (Dir [(u "in", Dir [(u "IMG-20230415-WA0001.jpg",
                                   RegFile Demo.bare);
                                  (u "VID-20230416-WA0002.mp4",
                                   RegFile [x00; x00]);
                                  (u "IMG-20210102-WA0003.jpg",
                                   RegFile Demo.dated);
                                  (u "IMG-20210103-WA0004.jpg",
                                   RegFile [x00]);
                                  (u "notes.txt", RegFile []);
                                  (u "sock.JPG", Special);
                                  (u "sub", Dir [(u "photo.jpeg",
                                                  RegFile Demo.bare)])]);
                    (u "out", Dir [(u "2023", Dir [])])])
              [x00; x00] [x00; x00; x00] (u "Error: not a valid MP4")
              eq_refl eq_refl eq_refl ltac:(discriminate) eq_refl eq_refl
              eq_refl eq_refl)
    as [_ [_ H]].
  exact (H eq_refl).
Defined.

Lemma overwrite_onto_source_removes_video_witness :
  res (@process_file Demo.std
         (Demo.in_file "VID-20230416-WA0002.mp4" "mp4")
         (mkArgs [u "in"] [u "in"] false true) Demo.fs0)
  = Raise (FileNotFoundError [u "in"; u "VID-20230416-WA0002.mp4"])
  /\ lookup (fs_after (@process_file Demo.std
                         (Demo.in_file "VID-20230416-WA0002.mp4" "mp4")
                         (mkArgs [u "in"] [u "in"] false true) Demo.fs0))
            [u "in"; u "VID-20230416-WA0002.mp4"]
     = None.
Proof.
  destruct (@overwrite_onto_source_removes_video Demo.std
              (Demo.in_file "VID-20230416-WA0002.mp4" "mp4")
              (set_parsed_date (Demo.in_file "VID-20230416-WA0002.mp4" "mp4")
                 (u "2023:04:16 00:00:00"))
              (mkArgs [u "in"] [u "in"] false true) Demo.fs0 [x00; x00]
              eq_refl eq_refl eq_refl ltac:(discriminate) eq_refl eq_refl
              eq_refl)
    as [H1 [_ H2]].
  split; [exact H1 | exact H2].
Defined.

Lemma directory_at_target_is_kept_witness :
  @save_video_exif_data Demo.std
    (Demo.in_file "VID-20230416-WA0002.mp4" "mp4") [u "out"] true
    Faulty.fs_dir_target
  = Run (Raise (IsADirectoryError [u "out"; u "VID-20230416-WA0002.mp4"]))
        Faulty.fs_dir_target [FsMakedirs [u "out"]].
Proof.
  exact (proj2 (@directory_at_target_is_kept Demo.std
                  (Demo.in_file "VID-20230416-WA0002.mp4" "mp4") []
                  [u "out"] Faulty.fs_dir_target [] eq_refl)).
Defined.

Lemma target_directory_blocked_witness :
  @save_video_exif_data Demo.std
    (Demo.in_file "VID-20230416-WA0002.mp4" "mp4") [u "out"] false
    Faulty.fs_blocked
  = Run (Raise (FileExistsError [u "out"])) Faulty.fs_blocked [].
Proof.
  exact (proj2 (@target_directory_blocked Demo.std
                  (Demo.in_file "VID-20230416-WA0002.mp4" "mp4") []
                  [u "out"] false Faulty.fs_blocked (RegFile [])
                  eq_refl eq_refl)).
Defined.

(** ** Images: the write *)

Section ImageRuns.
Context {P : Platform}.

(** what [new_image_exif_data] returned is what it returns from any file
    system; the file it returns carries the bytes it returns *)
Lemma new_image_anywhere file fs fe :
  res (new_image_exif_data file fs) = Return fe ->
  exists trn,
    (forall s, new_image_exif_data file s = Run (Return fe) s trn)
    /\ Forall quiet trn
    /\ (forall e, In e trn -> exists d, e = DebugExifDataCreated d)
    /\ filename (fst fe) = filename file
    /\ relative_dir (fst fe) = relative_dir file
    /\ parsed_date (fst fe) = parsed_date file
    /\ exif_bytes (fst fe) = snd fe.
Proof.
  unfold new_image_exif_data.
  destruct (utf8_encode (parsed_date file)) as [enc|]; [|discriminate].
  unfold bind, emit, ret, lift; cbn [res fs_after trace].
  destruct (piexif_dump_Exif _) as [b|e]; cbn [res fs_after trace];
    [|discriminate].
  intros [= <-]. exists [DebugExifDataCreated (parsed_date file)].
  split; [reflexivity|]. split; [repeat constructor|].
  split; [intros e [<-|[]]; now eexists|]. now repeat split.
Qed.

(** an image whose target is free, as far as the write *)
Lemma image_reaches_write file args fs file' c im fe s :
  str_in (extension file) VIDEO_EXT = false ->
  res (check_exif file fs) = Return false ->
  res (parse_filename_to_date file fs) = Return file' ->
  parsed_date file' <> [] ->
  lookup fs (file_path file) = Some (RegFile c) ->
  Image_open c = Return im ->
  res (new_image_exif_data file' fs) = Return fe ->
  lookup fs (target_of file args) = None ->
  mkdirs (target_dir_of file (output_path args))
         (target_dir_of file (output_path args)) fs = Return s ->
  exists before,
    Forall quiet before
    /\ (forall p, ~ In (FsRemove p) before)
    /\ process_file file args fs
       = prepend (before
                  ++ [FsMakedirs (target_dir_of file (output_path args))])
           (bind (fun _ => write_image (fst fe) im (target_of file args) s)
                 (report (fst fe)) fs)
    /\ lookup s (target_of file args) = None
    /\ (exists es,
          lookup s (target_dir_of file (output_path args)) = Some (Dir es))
    /\ filename (fst fe) = filename file
    /\ parsed_date (fst fe) = parsed_date file'
    /\ exif_bytes (fst fe) = snd fe.
Proof.
  intros Hv Hc Hres Hdate Hsrc Him Hnew HT0 Hmk.
  destruct (parse_anywhere file fs file' Hres)
    as [tr [Hp [Hq [Htr [Hn [_ [Hfp Hrd]]]]]]].
  destruct (new_image_anywhere file' fs fe Hnew)
    as [trn [Hpn [Hqn [Htrn [Hfn [Hfr [Hfd Hfb]]]]]]].
  assert (HT : target_dir_of (fst fe) (output_path args)
               ++ [filename (fst fe)] = target_of file args).
  { apply target_of_parsed; congruence. }
  assert (Hdir : target_dir_of (fst fe) (output_path args)
                 = target_dir_of file (output_path args)).
  { apply target_dir_of_eq. congruence. }
  exists (trace (check_exif file fs) ++ tr ++ trn).
  split.
  { apply Forall_app. split; [apply check_exif_emits|].
    apply Forall_app. now split. }
  split.
  { intros p Hin. apply in_app_or in Hin. destruct Hin as [Hin|Hin].
    - destruct (check_exif_found _ _ _ Hin). discriminate.
    - apply in_app_or in Hin. destruct Hin as [Hin|Hin].
      + destruct (Htr _ Hin). discriminate.
      + destruct (Htrn _ Hin). discriminate. }
  rewrite (process_image file args fs file' tr Hv Hp). cbv zeta. rewrite Hc.
  destruct (parsed_date file') as [|d0 d] eqn:Hd; [contradiction|].
  assert (Hopen : Image_open_path (file_path file') fs
                  = Run (Return im) fs []).
  { unfold Image_open_path, open_rb, bind, get_fs; simpl.
    rewrite Hfp, Hsrc. simpl. rewrite Him. reflexivity. }
  rewrite (bind_Return _ _ _ _ _ _ Hopen).
  rewrite (bind_Return _ _ _ _ _ _ (Hpn fs)).
  rewrite save_exif_data_policy.
  destruct (policy_fresh (fst fe) (output_path args) (overwrite args)
              (write_image (fst fe) im) fs s) as [Hrun [HsT [es Hsd]]].
  { now rewrite HT. }
  { now rewrite Hdir. }
  rewrite HT, Hdir in Hrun. rewrite HT in HsT. rewrite Hdir in Hsd.
  rewrite (bind_prepend _ _ _ _ _ Hrun), !prepend_prepend.
  rewrite <- !app_assoc.
  split; [reflexivity|]. split; [exact HsT|]. split; [now exists es|].
  split; [congruence|]. split; [congruence | exact Hfb].
Qed.

(** X12.  An image without a capture date, whose filename gives one and
    whose target path is free: the target holds what [Image.save] wrote
    for the synthesized bytes, whatever the verification says afterwards;
    every file that was there is as it was.  When the verification
    returns, [process_file] prints the success line with the timestamp. *)
Theorem image_is_written (file file' : File) (args : Args) (fs s : node)
    (c content : bytes) (im : image) (fe : File * bytes) :
  str_in (extension file) VIDEO_EXT = false ->
  res (check_exif file fs) = Return false ->
  res (parse_filename_to_date file fs) = Return file' ->
  parsed_date file' <> [] ->
  lookup fs (file_path file) = Some (RegFile c) ->
  Image_open c = Return im ->
  res (new_image_exif_data file' fs) = Return fe ->
  lookup fs (target_of file args) = None ->
  mkdirs (target_dir_of file (output_path args))
         (target_dir_of file (output_path args)) fs = Return s ->
  Image_save im (snd fe) = SaveOk content ->
  fs_after (process_file file args fs)
  = write_at (target_of file args) (RegFile content) s
  /\ lookup (fs_after (process_file file args fs)) (target_of file args)
     = Some (RegFile content)
  /\ keeps fs (fs_after (process_file file args fs))
  /\ forall b,
       res (check_exif
              (mkFile (filename file) (target_of file args)
                 (Some (target_of file args)) (extension file) [] [] [])
              (fs_after (process_file file args fs))) = Return b ->
       res (process_file file args fs) = Return tt
       /\ last (trace (process_file file args fs)) SpinnerStart
          = Succeed (filename file) (parsed_date file')
       /\ outcome_of (trace (process_file file args fs)) = Some written.
Proof.
  intros Hv Hc Hres Hdate Hsrc Him Hnew HT0 Hmk Hsave.
  destruct (image_reaches_write file args fs file' c im fe s Hv Hc Hres
              Hdate Hsrc Him Hnew HT0 Hmk)
    as [before [Hq [_ [Hrun [HsT [[es Hsd] [Hfn [Hfd Hfb]]]]]]]].
  rewrite <- Hfb in Hsave.
  pose proof (write_image_run (fst fe) im _ (filename file) s content es Hsd
                (or_introl HsT) Hsave) as Hw.
  rewrite <- target_of_snoc in Hw.
  rewrite verify_image_run in Hw. cbv zeta in Hw.
  cbn [filename extension set_new_file_path] in Hw.
  destruct (parse_anywhere file fs file' Hres) as [_ [_ [_ [_ [_ [He _]]]]]].
  destruct (new_image_exif_data_run file')
    as [r0 [tr0 [Hp0 [_ [_ Hfe]]]]].
  assert (Hext : extension (fst fe) = extension file).
  { pose proof (Hp0 fs) as E. rewrite E in Hnew. cbn [res] in Hnew.
    destruct (Hfe fe Hnew) as [_ [_ [_ Hx]]]. congruence. }
  rewrite Hfn, Hext in Hw.
  set (s1 := write_at (target_of file args) (RegFile content) s) in *.
  set (saved := mkFile (filename file) (target_of file args)
                  (Some (target_of file args)) (extension file) [] [] [])
    in *.
  assert (Hfs : fs_after (process_file file args fs) = s1).
  { rewrite Hrun, Hw. unfold prepend, bind.
    destruct (res (check_exif saved s1)) as [[|]|e]; reflexivity. }
  rewrite Hfs.
  assert (Hl : lookup s1 (target_of file args) = Some (RegFile content)).
  { unfold s1. rewrite target_of_snoc.
    exact (lookup_write_same _ _ _ _ es Hsd). }
  split; [reflexivity|]. split; [exact Hl|]. split.
  { apply (keeps_trans _ s); [exact (mkdirs_keeps _ _ _ _ Hmk)|].
    apply (keeps_outside_fresh _ _ _ HsT).
    apply lookup_update_frame, put_entry_local. }
  intros b Hb. rewrite Hrun, Hw, Hb. unfold prepend, bind.
  assert (Hqc : Forall quiet (trace (check_exif saved s1)))
    by apply check_exif_emits.
  destruct b; cbn [res fs_after trace report emit]; rewrite Hfn, Hfd;
    (split; [reflexivity|]; split;
     [rewrite ?app_assoc; apply last_last|]).
  - rewrite <- !app_assoc, (outcome_of_quiet_l _ _ Hq).
    cbn [app]. rewrite !outcome_of_cons_quiet by exact I.
    now rewrite (outcome_of_quiet_l _ _ Hqc).
  - rewrite <- !app_assoc, (outcome_of_quiet_l _ _ Hq).
    cbn [app]. rewrite !outcome_of_cons_quiet by exact I.
    now rewrite (outcome_of_quiet_l _ _ Hqc).
Qed.

(** X13.  When [Image.save] raises, nothing is cleaned up (the cleanup
    after a failure is the video path's only): what the codec left at the
    target path stays there, the exception leaves [process_file], and
    there is no success line. *)
Theorem failed_image_save_is_not_cleaned (file file' : File) (args : Args)
    (fs s : node) (c : bytes) (im : image) (fe : File * bytes) (e : exn)
    (partial : option bytes) :
  str_in (extension file) VIDEO_EXT = false ->
  res (check_exif file fs) = Return false ->
  res (parse_filename_to_date file fs) = Return file' ->
  parsed_date file' <> [] ->
  lookup fs (file_path file) = Some (RegFile c) ->
  Image_open c = Return im ->
  res (new_image_exif_data file' fs) = Return fe ->
  lookup fs (target_of file args) = None ->
  mkdirs (target_dir_of file (output_path args))
         (target_dir_of file (output_path args)) fs = Return s ->
  Image_save im (snd fe) = SaveFails e partial ->
  res (process_file file args fs) = Raise e
  /\ lookup (fs_after (process_file file args fs)) (target_of file args)
     = option_map RegFile partial
  /\ (forall p, ~ In (FsRemove p) (trace (process_file file args fs)))
  /\ reports is_success (trace (process_file file args fs)) = false.
Proof.
  intros Hv Hc Hres Hdate Hsrc Him Hnew HT0 Hmk Hsave.
  destruct (image_reaches_write file args fs file' c im fe s Hv Hc Hres
              Hdate Hsrc Him Hnew HT0 Hmk)
    as [before [Hq [Hnr [Hrun [HsT [[es Hsd] [Hfn [Hfd Hfb]]]]]]]].
  rewrite <- Hfb in Hsave.
  assert (Hw : write_image (fst fe) im (target_of file args) s
               = match partial with
                 | Some cp =>
                     Run (Raise e)
                       (write_at (target_of file args) (RegFile cp) s)
                       [FsWrite (target_of file args)]
                 | None => Run (Raise e) s []
                 end).
  { unfold write_image, Image_save_path. rewrite Hsave.
    destruct partial as [cp|].
    - pose proof (write_file_ok _ (filename file) cp s es Hsd
                    (or_introl HsT)) as Hwf.
      rewrite <- target_of_snoc in Hwf.
      rewrite (bind_Raise _ _ s e
                 (write_at (target_of file args) (RegFile cp) s)
                 [FsWrite (target_of file args)]); [reflexivity|].
      now rewrite (bind_Return _ _ _ _ _ _ Hwf).
    - now rewrite (bind_Raise _ _ s e s []). }
  rewrite Hrun. unfold prepend, bind. rewrite Hw.
  destruct (quiet_reports_nothing before Hq) as [_ [Hqs _]].
  destruct partial as [cp|]; cbn [res fs_after trace option_map].
  - split; [reflexivity|]. split; [|split].
    + rewrite target_of_snoc. exact (lookup_write_same _ _ _ _ es Hsd).
    + intros p Hin. apply in_app_or in Hin. destruct Hin as [Hin|Hin].
      * apply in_app_or in Hin. destruct Hin as [Hin|[Hin|[]]];
          [exact (Hnr _ Hin) | discriminate].
      * destruct Hin as [Hin|[]]. discriminate.
    + now rewrite !reports_app, Hqs.
  - split; [reflexivity|]. split; [exact HsT|]. split.
    + intros p Hin. rewrite app_nil_r in Hin. apply in_app_or in Hin.
      destruct Hin as [Hin|[Hin|[]]]; [exact (Hnr _ Hin) | discriminate].
    + now rewrite !reports_app, Hqs.
Qed.

End ImageRuns.

Lemma image_is_written_witness :
  lookup (fs_after (@process_file Demo.std
                      (Demo.in_file "IMG-20230415-WA0001.jpg" "jpg")
                      (Demo.args0 true false) Demo.fs0))
         [u "out"; u "IMG-20230415-WA0001.jpg"]
  = Some (RegFile (Demo.SOI ++ list_byte_of_string "2023:04:15 00:00:00")).
Proof.
  destruct (@image_is_written Demo.std
              (Demo.in_file "IMG-20230415-WA0001.jpg" "jpg")
              (set_parsed_date (Demo.in_file "IMG-20230415-WA0001.jpg" "jpg")
                 (u "2023:04:15 00:00:00"))
              (Demo.args0 true false) Demo.fs0 Demo.fs0 Demo.bare
              (Demo.SOI ++ list_byte_of_string "2023:04:15 00:00:00")
              []
              (set_exif_bytes
                 (set_parsed_date
                    (Demo.in_file "IMG-20230415-WA0001.jpg" "jpg")
                    (u "2023:04:15 00:00:00"))
                 (list_byte_of_string "2023:04:15 00:00:00"),
               list_byte_of_string "2023:04:15 00:00:00")
              eq_refl eq_refl eq_refl ltac:(discriminate) eq_refl eq_refl
              eq_refl eq_refl eq_refl eq_refl)
    as [_ [H _]].
  exact H.
Defined.

Lemma failed_image_save_is_not_cleaned_witness :
  res (@process_file Faulty.broken_save
         (Demo.in_file "IMG-20230415-WA0001.jpg" "jpg")
         (Demo.args0 true false) Demo.fs0)
  = Raise (ExternalError (u "encoder error -2"))
  /\ lookup (fs_after (@process_file Faulty.broken_save
                         (Demo.in_file "IMG-20230415-WA0001.jpg" "jpg")
                         (Demo.args0 true false) Demo.fs0))
            [u "out"; u "IMG-20230415-WA0001.jpg"]
     = Some (RegFile Demo.SOI).
Proof.
  destruct (@failed_image_save_is_not_cleaned Faulty.broken_save
              (Demo.in_file "IMG-20230415-WA0001.jpg" "jpg")
              (set_parsed_date (Demo.in_file "IMG-20230415-WA0001.jpg" "jpg")
                 (u "2023:04:15 00:00:00"))
              (Demo.args0 true false) Demo.fs0 Demo.fs0 Demo.bare
              []
              (set_exif_bytes
                 (set_parsed_date
                    (Demo.in_file "IMG-20230415-WA0001.jpg" "jpg")
                    (u "2023:04:15 00:00:00"))
                 (list_byte_of_string "2023:04:15 00:00:00"),
               list_byte_of_string "2023:04:15 00:00:00")
              (ExternalError (u "encoder error -2")) (Some Demo.SOI)
              eq_refl eq_refl eq_refl ltac:(discriminate) eq_refl eq_refl
              eq_refl eq_refl eq_refl eq_refl)
    as [H1 [H2 _]].
  split; [exact H1 | exact H2].
Defined.

(** ** What a run leaves alone, and what it prints *)

Section Frame.
Context {P : Platform}.

Lemma keeps_outside_above out T a b :
  is_prefix out T -> keeps_outside T a b -> keeps_outside out a b.
Proof.
  intros [r ->] H q n Hq. apply H. intros [r' ->]. apply Hq.
  exists (r ++ r'). now rewrite app_assoc.
Qed.

Lemma target_below_output file out :
  is_prefix out (target_dir_of file out ++ [filename file]).
Proof.
  unfold target_dir_of, os_path_join. destruct (relative_dir file).
  - now exists [filename file].
  - eexists. now rewrite <- app_assoc.
Qed.

(** the collision policy changes nothing outside the output directory *)
Lemma policy_outside file out ow write :
  (forall T, stays (keeps_outside T) (write T)) ->
  stays (keeps_outside out) (with_collision_policy file out ow write).
Proof.
  intros Hw. unfold with_collision_policy.
  assert (Hwrite : stays (keeps_outside out)
                     (write (os_path_join (target_dir_of file out)
                                          [filename file]))).
  { eapply stays_weaken; [|apply Hw]. intros a b.
    apply keeps_outside_above, target_below_output. }
  apply stays_bind; [apply keeps_outside_trans | |intros _].
  { eapply stays_weaken; [|apply os_makedirs_keeps].
    intros a b. apply keeps_keeps_outside. }
  apply stays_bind; [apply keeps_outside_trans | |intros found].
  { eapply stays_weaken; [|apply os_path_exists_reads].
    intros a b ->. apply keeps_outside_refl. }
  destruct found; [|exact Hwrite].
  destruct (negb ow).
  - apply stays_bind; [apply keeps_outside_trans | |intros _].
    + apply stays_emit, keeps_outside_refl.
    + apply stays_ret, keeps_outside_refl.
  - apply stays_bind; [apply keeps_outside_trans | |intros _; exact Hwrite].
    eapply stays_weaken; [|apply os_remove_outside]. intros a b.
    apply keeps_outside_above, target_below_output.
Qed.

Lemma stays_eq_outside {A} out (m : M A) :
  stays eq m -> stays (keeps_outside out) m.
Proof. apply stays_weaken. intros a b ->. apply keeps_outside_refl. Qed.

Lemma process_file_outside file args :
  stays (keeps_outside (output_path args)) (process_file file args).
Proof.
  unfold process_file.
  apply stays_bind; [apply keeps_outside_trans | | intros has].
  { destruct (negb (str_in (extension file) VIDEO_EXT));
      [apply stays_eq_outside, check_exif_reads
      | apply stays_ret, keeps_outside_refl]. }
  destruct has; [apply stays_emit, keeps_outside_refl|].
  apply stays_bind; [apply keeps_outside_trans | | intros file'].
  { apply stays_eq_outside, parse_filename_to_date_reads. }
  destruct (parsed_date file'); [apply stays_emit, keeps_outside_refl|].
  destruct (str_in (extension file) VIDEO_EXT).
  - destruct (negb check_exiftool); [apply stays_emit, keeps_outside_refl|].
    apply stays_bind; [apply keeps_outside_trans | | intros result].
    + rewrite save_video_exif_data_policy. apply policy_outside.
      intros T. apply write_video_outside.
    + apply stays_eq_outside, report_reads.
  - apply stays_bind; [apply keeps_outside_trans | | intros im].
    { apply stays_eq_outside, Image_open_path_reads. }
    apply stays_bind; [apply keeps_outside_trans | | intros fe].
    { apply stays_eq_outside, new_image_exif_data_reads. }
    apply stays_bind; [apply keeps_outside_trans | | intros result].
    + rewrite save_exif_data_policy. apply policy_outside.
      intros T. apply write_image_outside.
    + apply stays_eq_outside, report_reads.
Qed.

Lemma for_files_outside files args :
  stays (keeps_outside (output_path args)) (for_files files args).
Proof.
  induction files as [|file rest IH]; simpl.
  - apply stays_ret, keeps_outside_refl.
  - apply stays_bind; [apply keeps_outside_trans | |intros _; exact IH].
    unfold attempt.
    apply stays_bind; [apply keeps_outside_trans | |intros _].
    + apply stays_emit, keeps_outside_refl.
    + apply stays_try_except; [apply keeps_outside_trans | |].
      * apply process_file_outside.
      * intros e. apply stays_emit, keeps_outside_refl.
Qed.

(** X14.  Without the overwrite flag a run of [main] changes or removes
    no file that exists: every entry that is not a directory is, after
    the run, where it was and what it was. *)
Theorem main_without_overwrite_keeps_files (args : Args) (fs : node) :
  overwrite args = false ->
  keeps fs (fs_after (main args fs)).
Proof.
  intros Hov. rewrite main_run.
  destruct (res (get_files_from_path _ _ _ fs)) as [files|e];
    cbn [fs_after]; [|apply keeps_refl].
  now apply for_files_keeps.
Qed.

(** X15.  With or without the overwrite flag, a run of [main] writes and
    removes below the output path only: every file that is not at or
    below the output path is, after the run, where it was and what it
    was.  The input files are read, never changed, unless the output
    path holds them. *)
Theorem main_changes_only_output (args : Args) (fs : node) :
  keeps_outside (output_path args) fs (fs_after (main args fs)).
Proof.
  rewrite main_run.
  destruct (res (get_files_from_path _ _ _ fs)) as [files|e];
    cbn [fs_after]; [|apply keeps_outside_refl].
  apply for_files_outside.
Qed.

End Frame.

Lemma main_without_overwrite_keeps_files_witness :
  lookup (fs_after (@main Demo.std (Demo.args0 true false) Demo.fs1))
         [u "out"; u "IMG-20230415-WA0001.jpg"]
  = Some (RegFile (Demo.SOI ++ list_byte_of_string "2023:04:15 00:00:00")).
Proof.
  exact (@main_without_overwrite_keeps_files Demo.std
           (Demo.args0 true false) Demo.fs1 eq_refl
           [u "out"; u "IMG-20230415-WA0001.jpg"]
           (RegFile (Demo.SOI ++ list_byte_of_string "2023:04:15 00:00:00"))
           eq_refl eq_refl).
Defined.

Section Lines.
Context {P : Platform}.

Lemma below_no_lines tr :
  Forall below_spinner tr -> filter spinner_line tr = [].
Proof.
  induction 1 as [|e tr He _ IH]; [reflexivity|]. simpl. rewrite IH.
  now destruct e.
Qed.

Lemma one_line_nil tr : Forall below_spinner tr -> one_line_at_end tr.
Proof.
  intros F. exists tr, []. rewrite app_nil_r.
  split; [reflexivity|]. split; [now apply below_no_lines|].
  split; [simpl; lia | reflexivity].
Qed.

Lemma one_line_emit e fs :
  spinner_line e = true -> one_line_at_end (trace (emit e fs)).
Proof.
  intros He. exists [], [e]. split; [reflexivity|]. split; [reflexivity|].
  split; [simpl; lia | simpl; now rewrite He].
Qed.

Lemma one_line_bind {A B} (m : M A) (k : A -> M B) :
  emits below_spinner m ->
  (forall a s, one_line_at_end (trace (k a s))) ->
  forall fs, one_line_at_end (trace (bind m k fs)).
Proof.
  intros Hm Hk fs. unfold bind. specialize (Hm fs).
  destruct (res (m fs)) as [a|e]; cbn [trace]; [|now apply one_line_nil].
  destruct (Hk a (fs_after (m fs))) as [before [lines [-> [Hb [Hl Hs]]]]].
  exists (trace (m fs) ++ before), lines.
  split; [now rewrite app_assoc|]. split; [|now split].
  now rewrite filter_app, (below_no_lines _ Hm), Hb.
Qed.

Lemma one_line_report file result fs :
  one_line_at_end (trace (report file result fs)).
Proof.
  destruct result; [now apply one_line_emit|]. now apply one_line_nil.
Qed.

(** X16.  [process_file] prints at most one line for a file (already has
    a date, no date found, exiftool not installed, or the success line),
    and the line is the last thing it does. *)
Theorem process_file_prints_one_line (file : File) (args : Args) (fs : node) :
  one_line_at_end (trace (process_file file args fs)).
Proof.
  revert fs. unfold process_file. apply one_line_bind.
  { destruct (negb (str_in (extension file) VIDEO_EXT));
      [apply emits_below, check_exif_emits | apply emits_ret]. }
  intros has s. destruct has; [now apply one_line_emit|].
  revert s. apply one_line_bind.
  { apply emits_below, parse_filename_to_date_emits. }
  intros file' s.
  destruct (parsed_date file'); [now apply one_line_emit|].
  destruct (str_in (extension file) VIDEO_EXT).
  - destruct (negb check_exiftool); [now apply one_line_emit|].
    revert s. apply one_line_bind; [apply save_video_exif_data_emits|].
    intros result s. apply one_line_report.
  - revert s. apply one_line_bind.
    { apply emits_below, Image_open_path_emits. }
    intros im s. revert s. apply one_line_bind.
    { apply emits_below, new_image_exif_data_emits. }
    intros fe s. revert s.
    apply one_line_bind; [apply save_exif_data_emits|].
    intros result s. apply one_line_report.
Qed.

End Lines.

Section Untouched.
Context {P : Platform}.

(** X17.  Without the overwrite flag, a file whose target path exists is
    never written again: whatever [process_file] does with it (skips it,
    raises), the file system is afterwards exactly as it was, and there
    is no success line. *)
Theorem existing_target_is_left_alone (file : File) (args : Args)
    (fs n : node) :
  overwrite args = false ->
  lookup fs (target_of file args) = Some n ->
  fs_after (process_file file args fs) = fs
  /\ reports is_success (trace (process_file file args fs)) = false.
Proof.
  intros Hov Hl.
  destruct (parse_run file) as [file' [tr [Hp [Hq [_ [Hn [_ [Hfp Hrd]]]]]]]].
  pose proof (target_of_parsed file file' args Hn Hrd) as HT.
  destruct (quiet_reports_nothing tr Hq) as [_ [Hqs _]].
  destruct (str_in (extension file) VIDEO_EXT) eqn:Hv.
  - rewrite (process_video file args fs file' tr Hv Hp).
    destruct (parsed_date file') as [|d0 d].
    { cbn [fs_after trace]. now rewrite reports_app, Hqs. }
    destruct which_exiftool.
    2:{ cbn [fs_after trace]. now rewrite reports_app, Hqs. }
    rewrite save_video_exif_data_policy, Hov.
    rewrite <- HT in Hl.
    rewrite (bind_Return _ _ _ _ _ _
               (policy_skip file' (output_path args) (write_video file')
                  fs n Hl)).
    cbn [prepend res fs_after trace report ret].
    now rewrite !reports_app, Hqs.
  - rewrite (process_image file args fs file' tr Hv Hp). cbv zeta.
    pose proof (check_exif_emits file fs) as Hqc.
    destruct (quiet_reports_nothing _ Hqc) as [_ [Hcs _]].
    destruct (res (check_exif file fs)) as [[|]|e].
    { cbn [fs_after trace]. now rewrite reports_app, Hcs. }
    2:{ cbn [fs_after trace]. now split. }
    destruct (parsed_date file') as [|d0 d].
    { cbn [fs_after trace]. now rewrite !reports_app, Hcs, Hqs. }
    destruct (Image_open_path_cases (file_path file') fs)
      as [[im Him]|[e Him]].
    2:{ rewrite (bind_Raise _ _ _ _ _ _ Him).
        cbn [prepend fs_after trace]. rewrite app_nil_r.
        now rewrite !reports_app, Hcs, Hqs. }
    rewrite (bind_Return _ _ _ _ _ _ Him).
    destruct (new_image_exif_data_run file')
      as [r0 [trn [Hpn [Hqn [_ Hfe]]]]].
    destruct (quiet_reports_nothing trn Hqn) as [_ [Hns _]].
    destruct r0 as [fe|e].
    2:{ rewrite (bind_Raise _ _ _ _ _ _ (Hpn fs)).
        cbn [prepend fs_after trace app].
        now rewrite !reports_app, Hcs, Hqs, Hns. }
    rewrite (bind_Return _ _ _ _ _ _ (Hpn fs)).
    destruct (Hfe fe eq_refl) as [Hfn [Hfr _]].
    assert (HT2 : target_dir_of (fst fe) (output_path args)
                  ++ [filename (fst fe)] = target_of file args).
    { apply target_of_parsed; congruence. }
    rewrite <- HT2 in Hl.
    rewrite save_exif_data_policy, Hov.
    rewrite (bind_Return _ _ _ _ _ _
               (policy_skip (fst fe) (output_path args)
                  (write_image (fst fe) im) fs n Hl)).
    cbn [prepend res fs_after trace report ret app].
    now rewrite !reports_app, Hcs, Hqs, Hns.
Qed.

End Untouched.

Lemma existing_target_is_left_alone_witness :
  fs_after (@process_file Demo.std
              (Demo.in_file "IMG-20230415-WA0001.jpg" "jpg")
              (Demo.args0 true false) Demo.fs1)
  = Demo.fs1.
Proof.
  exact (proj1 (@existing_target_is_left_alone Demo.std
                  (Demo.in_file "IMG-20230415-WA0001.jpg" "jpg")
                  (Demo.args0 true false) Demo.fs1
                  (RegFile (Demo.SOI
                            ++ list_byte_of_string "2023:04:15 00:00:00"))
                  eq_refl eq_refl)).
Defined.

Section ToolRuns.
Context {P : Platform}.

Ltac calm :=
  repeat first
    [ apply emits_ret | apply emits_raise | apply emits_lift
    | apply emits_get_fs | (apply emits_emit; exact I)
    | (apply emits_bind; [|intros ?]) ].

Lemma write_file_no_tool p c : emits no_tool (write_file p c).
Proof.
  intros fs. unfold write_file, bind, get_fs; simpl.
  destruct (lookup fs (parent p)) as [[c0| |es]|]; simpl; try constructor.
  destruct (lookup fs p) as [[c1| |es1]|]; simpl; repeat constructor.
Qed.

Lemma check_exif_no_tool file : emits no_tool (check_exif file).
Proof.
  intros fs. apply Forall_forall. intros e Hin.
  destruct (check_exif_found _ _ _ Hin) as [v ->]. exact I.
Qed.

Lemma write_image_no_tool file img T : emits no_tool (write_image file img T).
Proof.
  unfold write_image, Image_save_path, verify_image.
  apply emits_bind.
  { destruct (Image_save img (exif_bytes file)) as [c|e partial].
    - apply write_file_no_tool.
    - apply emits_bind; [|intros _; apply emits_raise].
      destruct partial; [apply write_file_no_tool | apply emits_ret]. }
  intros _. apply emits_bind; [apply emits_emit; exact I | intros _].
  apply emits_bind; [apply check_exif_no_tool | intros v].
  apply emits_bind; [destruct (negb v); calm | intros _; apply emits_ret].
Qed.

Lemma save_exif_data_no_tool file img out ow :
  emits no_tool (save_exif_data file img out ow).
Proof.
  unfold save_exif_data, os_makedirs, os_path_exists, os_remove.
  apply emits_bind.
  { intros fs. unfold bind, get_fs; simpl.
    destruct (mkdirs _ _ fs); simpl; repeat constructor. }
  intros _. apply emits_bind; [calm | intros found].
  destruct found; [|apply write_image_no_tool].
  destruct (negb ow); [calm|].
  apply emits_bind; [|intros _; apply write_image_no_tool].
  intros fs. unfold bind, get_fs; simpl.
  destruct (lookup fs _) as [[c1| |es1]|]; simpl; repeat constructor.
Qed.

(** an image through [process_file] runs no tool *)
Lemma process_image_no_tool file args :
  str_in (extension file) VIDEO_EXT = false ->
  emits no_tool (process_file file args).
Proof.
  intros Hv. unfold process_file. rewrite Hv. cbn [negb].
  apply emits_bind; [apply check_exif_no_tool | intros has].
  destruct has; [calm|].
  apply emits_bind.
  { unfold parse_filename_to_date.
    destruct (re_search REGEX_FILENAME_DATE (filename file)); calm. }
  intros file'. destruct (parsed_date file'); [calm|].
  apply emits_bind.
  { unfold Image_open_path, open_rb. apply emits_bind; [|intros c; calm].
    intros fs. unfold bind, get_fs; simpl.
    destruct (lookup fs _) as [[c| |es]|]; constructor. }
  intros im. apply emits_bind.
  { unfold new_image_exif_data.
    apply emits_bind; [destruct (utf8_encode (parsed_date file')); calm|].
    intros enc. calm. }
  intros fe. apply emits_bind; [apply save_exif_data_no_tool | intros r].
  destruct r; calm.
Qed.

(** X18.  The tool is run for videos only, with the tool installed, and
    only on the copy: every command line that [process_file] runs is the
    one built from the parsed file for the target path.  No image and no
    source file is ever handed to it. *)
Theorem tool_runs_on_video_targets_only (file : File) (args : Args)
    (fs : node) (cmd : list arg) :
  In (RunTool cmd) (trace (process_file file args fs)) ->
  str_in (extension file) VIDEO_EXT = true
  /\ which_exiftool = true
  /\ exists file',
       res (parse_filename_to_date file fs) = Return file'
       /\ cmd = exiftool_cmd file' (target_of file args).
Proof.
  intros Hin.
  destruct (str_in (extension file) VIDEO_EXT) eqn:Hv.
  2:{ exfalso. pose proof (process_image_no_tool file args Hv fs) as F.
      rewrite Forall_forall in F. exact (F _ Hin). }
  destruct (parse_run file) as [file' [tr [Hp [Hq [Htr [Hn [_ [Hfp Hrd]]]]]]]].
  pose proof (target_of_parsed file file' args Hn Hrd) as HT.
  assert (Hnot : ~ In (RunTool cmd) tr).
  { intros H. destruct (Htr _ H). discriminate. }
  rewrite (process_video file args fs file' tr Hv Hp) in Hin.
  destruct (parsed_date file') as [|d0 d].
  { exfalso. cbn [trace] in Hin. apply in_app_or in Hin.
    destruct Hin as [Hin|[Hin|[]]]; [tauto | discriminate]. }
  destruct which_exiftool.
  2:{ exfalso. cbn [trace] in Hin. apply in_app_or in Hin.
      destruct Hin as [Hin|[Hin|[]]]; [tauto | discriminate]. }
  split; [reflexivity|]. split; [reflexivity|].
  exists file'. split; [now rewrite Hp|].
  assert (Hrep : forall r s, ~ In (RunTool cmd) (trace (report file' r s))).
  { intros [f|] s H; [destruct H as [H|[]]; discriminate | destruct H]. }
  destruct (save_video_cases file' (output_path args) (overwrite args) fs)
    as [[rr [s' [tr2 [Hs [_ Hno]]]]]
       |[s [c [pre [Hpre [_ [_ [_ [_ Hs]]]]]]]]];
    unfold prepend, bind in Hin; rewrite Hs in Hin; unfold prepend in Hin;
    cbn [res fs_after trace] in Hin.
  - exfalso. apply in_app_or in Hin. destruct Hin as [Hin|Hin]; [tauto|].
    destruct rr as [r|e]; cbn [res fs_after trace] in Hin.
    + apply in_app_or in Hin. destruct Hin as [Hin|Hin];
        [exact (Hno _ Hin) | exact (Hrep _ _ Hin)].
    + exact (Hno _ Hin).
  - rewrite HT in Hin.
    assert (Hcopy : In (RunTool cmd)
                      (trace (after_copy file' (target_of file args) c
                                (write_at (target_of file args) (RegFile c)
                                   s))) ->
                    cmd = exiftool_cmd file' (target_of file args)).
    { unfold after_copy.
      destruct (exiftool _ _) as [c'|stderr c'|e c'];
        [| |destruct e]; cbn [trace];
        intros [H|H]; try (now injection H);
        repeat (destruct H as [H|H]; try discriminate H); now destruct H. }
    assert (Hpre' : ~ In (RunTool cmd)
                      (pre ++ [FsWrite (target_of file args)])).
    { intros H. apply in_app_or in H.
      destruct H as [H|[H|[]]]; [|discriminate].
      destruct Hpre as [[-> _]|[-> _]];
        repeat (destruct H as [H|H]; try discriminate H); now destruct H. }
    apply in_app_or in Hin. destruct Hin as [Hin|Hin]; [tauto|].
    destruct (res (after_copy _ _ _ _)) as [r|e];
      cbn [res fs_after trace] in Hin.
    + apply in_app_or in Hin. destruct Hin as [Hin|Hin].
      * apply in_app_or in Hin. destruct Hin as [Hin|Hin]; [tauto|].
        exact (Hcopy Hin).
      * destruct (Hrep _ _ Hin).
    + apply in_app_or in Hin. destruct Hin as [Hin|Hin]; [tauto|].
      exact (Hcopy Hin).
Qed.

End ToolRuns.

Lemma tool_runs_on_video_targets_only_witness :
  exists file',
    res (@parse_filename_to_date Demo.std
           (Demo.in_file "VID-20230416-WA0002.mp4" "mp4") Demo.fs0)
    = Return file'
    /\ [Word (u "exiftool"); Word (u "-overwrite_original");
        Assign (u "CreateDate") (u "2023:04:16 00:00:00");
        Assign (u "ModifyDate") (u "2023:04:16 00:00:00");
        Assign (u "MediaCreateDate") (u "2023:04:16 00:00:00");
        Assign (u "MediaModifyDate") (u "2023:04:16 00:00:00");
        Target [u "out"; u "VID-20230416-WA0002.mp4"]]
       = @exiftool_cmd file' [u "out"; u "VID-20230416-WA0002.mp4"].
Proof.
  refine (proj2 (proj2
            (@tool_runs_on_video_targets_only Demo.std
               (Demo.in_file "VID-20230416-WA0002.mp4" "mp4")
               (Demo.args0 true false) Demo.fs0 _ _))).
  simpl. repeat (first [left; reflexivity | right]).
Defined.

(** ** The inventory, again *)

Section InventoryMore.
Context {P : Platform}.

(** the inventory without the flag returns only for a directory *)
Lemma nonrecursive_root top out fs files :
  res (get_files_from_path top false out fs) = Return files ->
  exists es, lookup fs top = Some (Dir es).
Proof.
  unfold get_files_from_path, os_listdir, bind, get_fs, ret; simpl.
  destruct (lookup fs top) as [[c| |es]|]; simpl; try discriminate.
  intros _. now exists es.
Qed.

(** X19.  What the inventory finds without the recursive flag it finds
    with it, as the same candidate file. *)
Theorem flat_inventory_is_in_recursive (top : path) (out : option path)
    (fs : node) (files : list File) :
  res (get_files_from_path top false out fs) = Return files ->
  exists all,
    res (get_files_from_path top true out fs) = Return all
    /\ incl files all.
Proof.
  intros Hres. destruct (nonrecursive_root _ _ _ _ Hres) as [es Hl].
  rewrite (get_files_nonrecursive top out fs es Hl) in Hres.
  injection Hres as <-.
  rewrite get_files_recursive, Hl. eexists. split; [reflexivity|].
  intros f Hf. apply in_flat_map in Hf. destruct Hf as [pair [Hin Hf]].
  apply in_flat_map. exists pair. split; [|exact Hf].
  apply in_map_iff in Hin. destruct Hin as [name [<- Hname]].
  apply filter_In in Hname. destruct Hname as [_ Hfile].
  unfold isfile_in, os_path_join in Hfile.
  rewrite lookup_snoc, Hl in Hfile.
  destruct (assoc name es) as [[c| |es']|] eqn:Ha; try discriminate.
  cbn [walk flat_map]. apply in_or_app. left.
  apply in_map_iff. exists name. split; [reflexivity|].
  apply in_map_iff. exists (name, RegFile c). split; [reflexivity|].
  apply filter_In. split; [now apply assoc_In | reflexivity].
Qed.

(** what [candidate] gives *)
Lemma candidate_fields top out pair f :
  In f (candidate top out pair) ->
  parsed_date f = [] /\ exif_bytes f = []
  /\ str_in (extension f) FILES_EXT = true
  /\ extension f = extension_of (filename f)
  /\ filename f = os_path_basename (file_path f)
  /\ file_path f = fst pair
  /\ (new_file_path f = None <-> out = None).
Proof.
  destruct pair as [fp root]. unfold candidate.
  destruct (str_in _ FILES_EXT) eqn:Hs; [|intros []].
  intros [<-|[]]. cbn [parsed_date exif_bytes extension filename file_path
                       new_file_path fst].
  repeat split; try assumption; try reflexivity;
    destruct out; intros; congruence.
Qed.

(** X20.  The inventory only reads: it leaves the file system as it was
    and emits nothing.  Every candidate file it returns has a supported
    extension, which is the lower-cased extension of its filename, the
    filename is the last component of its path, its capture timestamp and
    metadata bytes are empty, and its new path is set exactly when an
    output path was given. *)
Theorem inventory_files_are_fresh (top : path) (recursive : bool)
    (out : option path) (fs : node) (files : list File) :
  res (get_files_from_path top recursive out fs) = Return files ->
  get_files_from_path top recursive out fs = Run (Return files) fs []
  /\ Forall (fun f =>
               parsed_date f = [] /\ exif_bytes f = []
               /\ str_in (extension f) FILES_EXT = true
               /\ extension f = extension_of (filename f)
               /\ filename f = os_path_basename (file_path f)
               /\ (new_file_path f = None <-> out = None)) files.
Proof.
  intros Hres. split.
  { now rewrite get_files_from_path_run, Hres. }
  assert (Hall : exists pairs, files = flat_map (candidate top out) pairs).
  { destruct recursive.
    - rewrite get_files_recursive in Hres. injection Hres as <-.
      now eexists.
    - destruct (nonrecursive_root _ _ _ _ Hres) as [es Hl].
      rewrite (get_files_nonrecursive top out fs es Hl) in Hres.
      injection Hres as <-. now eexists. }
  destruct Hall as [pairs ->]. apply Forall_forall. intros f Hf.
  apply in_flat_map in Hf. destruct Hf as [pair [_ Hf]].
  destruct (candidate_fields _ _ _ _ Hf) as [H1 [H2 [H3 [H4 [H5 [_ H6]]]]]].
  tauto.
Qed.

(** a file of the inventory is the candidate file of an entry below the
    root *)
Lemma inventory_member top recursive out fs files f :
  wf fs = true ->
  res (get_files_from_path top recursive out fs) = Return files ->
  In f files ->
  exists rel name, f = candidate_file top out rel name.
Proof.
  intros Hw Hres Hf. destruct recursive.
  - rewrite get_files_recursive in Hres. injection Hres as <-.
    apply in_flat_map in Hf. destruct Hf as [[fp root] [Hin Hf]].
    apply in_flat_map in Hin.
    destruct Hin as [[[root' dirs] names] [Htriple Hin]].
    apply in_map_iff in Hin. destruct Hin as [name [E Hname]].
    injection E as <- <-.
    destruct (lookup fs top) as [n|] eqn:Hl; [|destruct Htriple].
    destruct (wf_lookup top fs n Hw Hl) as [Hwn _].
    destruct (walk_sound n top _ Hwn Htriple)
      as [rel [es' [Er [Hrel _]]]].
    cbn [fst snd] in Er. subst root'.
    destruct (wf_lookup rel n (Dir es') Hwn Hrel) as [_ Hvalid].
    rewrite (candidate_below top out rel name Hvalid) in Hf.
    destruct (str_in (extension_of name) FILES_EXT); [|destruct Hf].
    destruct Hf as [<-|[]]. now exists rel, name.
  - destruct (nonrecursive_root _ _ _ _ Hres) as [es Hl].
    rewrite (get_files_nonrecursive top out fs es Hl) in Hres.
    injection Hres as <-.
    apply in_flat_map in Hf. destruct Hf as [[fp root] [Hin Hf]].
    apply in_map_iff in Hin. destruct Hin as [name [E _]].
    injection E as <- <-.
    pose proof (candidate_below top out [] name (Forall_nil _)) as Hcand.
    rewrite app_nil_r in Hcand.
    assert (Hf2 : In f (if str_in (extension_of name) FILES_EXT
                        then [candidate_file top out [] name] else []))
      by (rewrite <- Hcand; exact Hf).
    destruct (str_in (extension_of name) FILES_EXT); [|destruct Hf2].
    destruct Hf2 as [<-|[]]. now exists [], name.
Qed.

Lemma target_of_candidate top out rel name args :
  target_of (candidate_file top out rel name) args
  = output_path args ++ rel ++ [name].
Proof.
  unfold target_of, target_dir_of, os_path_join.
  cbn [relative_dir filename candidate_file].
  destruct rel; [reflexivity | now rewrite <- app_assoc].
Qed.

(** X21.  The output mirrors the input: a file of the inventory lies at
    its relative directory and filename below the input path, its target
    at the same relative directory and filename below the output path,
    and no two files of the inventory have the same target. *)
Theorem inventory_targets_mirror_sources (args : Args) (fs : node)
    (files : list File) :
  wf fs = true ->
  res (get_files_from_path (input_path args) (recursive args) None fs)
  = Return files ->
  forall f,
    In f files ->
    file_path f = input_path args ++ relative_dir f ++ [filename f]
    /\ target_of f args
       = output_path args ++ relative_dir f ++ [filename f]
    /\ forall g,
         In g files -> target_of g args = target_of f args -> g = f.
Proof.
  intros Hw Hres f Hf.
  destruct (inventory_member _ _ _ _ _ f Hw Hres Hf) as [rel [name ->]].
  split; [reflexivity|]. split; [apply target_of_candidate|].
  intros g Hg E.
  destruct (inventory_member _ _ _ _ _ g Hw Hres Hg) as [rel' [name' ->]].
  rewrite !target_of_candidate in E. apply app_inv_head in E.
  apply app_inj_tail in E. now destruct E as [-> ->].
Qed.

End InventoryMore.

Lemma flat_inventory_is_in_recursive_witness :
  In (@candidate_file Demo.std [u "in"] None []
        (u "IMG-20230415-WA0001.jpg"))
     Demo.files0.
Proof.
  destruct (@flat_inventory_is_in_recursive Demo.std [u "in"] None
              Demo.fs0 _ eq_refl) as [all [Hall Hincl]].
  injection Hall as <-. apply Hincl. left. reflexivity.
Defined.

Lemma inventory_files_are_fresh_witness :
  @get_files_from_path Demo.std [u "in"] true None Demo.fs0
  = Run (Return Demo.files0) Demo.fs0 [].
Proof.
  exact (proj1 (@inventory_files_are_fresh Demo.std [u "in"] true None
                  Demo.fs0 Demo.files0 eq_refl)).
Defined.

Lemma inventory_targets_mirror_sources_witness :
  @target_of (@candidate_file Demo.std [u "in"] None [u "sub"]
                (u "photo.jpeg"))
    (Demo.args0 true false)
  = [u "out"; u "sub"; u "photo.jpeg"].
Proof.
  refine (proj1 (proj2
            (@inventory_targets_mirror_sources Demo.std
               (Demo.args0 true false) Demo.fs0 Demo.files0 eq_refl eq_refl
               _ _))).
  simpl. repeat (first [left; reflexivity | right]).
Defined.

(** ** The loop in parts, and the extension of a name *)

Section Split.
Context {P : Platform}.

(** X22.  The loop of [main] over a list of files in two parts: the
    second part starts from the file system that the first part left, and
    events, final file system and outcomes are those of the two parts in
    a row. *)
Theorem for_files_app (l1 l2 : list File) (args : Args) (fs : node) :
  for_files (l1 ++ l2) args fs
  = prepend (trace (for_files l1 args fs))
      (for_files l2 args (fs_after (for_files l1 args fs)))
  /\ outcomes (l1 ++ l2) args fs
     = outcomes l1 args fs
       ++ outcomes l2 args (fs_after (for_files l1 args fs)).
Proof.
  revert fs. induction l1 as [|file rest IH]; intros fs.
  - split; [|reflexivity]. cbn [app for_files ret fs_after trace].
    unfold prepend. cbn [app]. now rewrite <- run_eta.
  - destruct (IH (fs_after (attempt file args fs))) as [IH1 IH2].
    assert (Ha : attempt file args fs
                 = Run (Return tt) (fs_after (attempt file args fs))
                       (trace (attempt file args fs))).
    { rewrite (run_eta (attempt file args fs)) at 1.
      now rewrite attempt_run. }
    split.
    + cbn [app for_files].
      rewrite !(bind_Return _ _ _ _ _ _ Ha), IH1.
      unfold prepend. cbn [res fs_after trace].
      now rewrite app_assoc.
    + unfold outcomes in *. cbn [app attempts map].
      assert (Hfs : fs_after (for_files (file :: rest) args fs)
                    = fs_after (for_files rest args
                                  (fs_after (attempt file args fs)))).
      { cbn [for_files]. now rewrite (bind_Return _ _ _ _ _ _ Ha). }
      now rewrite Hfs, IH2.
Qed.

End Split.

Section Extensions.
Context {P : Platform}.

Lemma rfind_absent c s : ~ In c s -> rfind c s = None.
Proof.
  induction s as [|x s IH]; intros Hn; [reflexivity|]. simpl.
  rewrite IH by (intros H; apply Hn; now right).
  destruct (N.eqb_spec x c) as [->|_]; [|reflexivity].
  exfalso. apply Hn. now left.
Qed.

Lemma rfind_last c s t :
  ~ In c t -> rfind c (s ++ c :: t) = Some (length s).
Proof.
  intros Hn. induction s as [|x s IH]; simpl.
  - now rewrite (rfind_absent _ _ Hn), N.eqb_refl.
  - now rewrite IH.
Qed.

(** [os.path.splitext] of a name whose last dot is before [ext] *)
Lemma splitext_last_dot stem ext :
  ~ In 46%N ext ->
  os_path_splitext (stem ++ u "." ++ ext)
  = if existsb (fun c => negb (c =? 46)%N) stem
    then (stem, u "." ++ ext)
    else (stem ++ u "." ++ ext, []).
Proof.
  intros Hn. unfold os_path_splitext.
  change (u "." ++ ext) with (46%N :: ext).
  rewrite (rfind_last _ stem _ Hn), firstn_exact, skipn_exact;
    reflexivity.
Qed.

(** X23.  The extension that the inventory looks at is what follows the
    last dot of the name, lower-cased, so that case does not matter; a
    name that has only dots before its last dot (a hidden file such as
    [.jpg]) and a name without a dot have no extension and are never
    candidates. *)
Theorem extension_is_after_last_dot (stem ext : str) :
  ~ In 46%N ext ->
  (existsb (fun c => negb (c =? 46)%N) stem = true ->
   extension_of (stem ++ u "." ++ ext) = str_lower ext
   /\ (supported (stem ++ u "." ++ ext)
       <-> str_in (str_lower ext) FILES_EXT = true))
  /\ (existsb (fun c => negb (c =? 46)%N) stem = false ->
      ~ supported (stem ++ u "." ++ ext))
  /\ ~ supported ext.
Proof.
  intros Hn. unfold supported, extension_of.
  rewrite (splitext_last_dot stem ext Hn).
  split; [|split].
  - intros ->. cbn [snd skipn app u]. now split.
  - intros ->. cbn [snd skipn]. discriminate.
  - unfold os_path_splitext. rewrite (rfind_absent _ _ Hn).
    cbn [snd skipn]. discriminate.
Qed.

End Extensions.

Lemma extension_is_after_last_dot_witness :
  @supported Demo.std (u "IMG-20230415-WA0001.JPG")
  /\ ~ @supported Demo.std (u ".jpg")
  /\ ~ @supported Demo.std (u "jpg").
Proof.
  split; [|split].
  - destruct (@extension_is_after_last_dot Demo.std
                (u "IMG-20230415-WA0001") (u "JPG"))
      as [H _].
    { simpl. intuition discriminate. }
    apply (H eq_refl). reflexivity.
  - destruct (@extension_is_after_last_dot Demo.std [] (u "jpg"))
      as [_ [H _]].
    { simpl. intuition discriminate. }
    exact (H eq_refl).
  - destruct (@extension_is_after_last_dot Demo.std [] (u "jpg"))
      as [_ [_ H]].
    { simpl. intuition discriminate. }
    exact H.
Defined.

(** ** Every file has an outcome *)

Section Total.
Context {P : Platform}.

Lemma outcome_of_telling tr :
  existsb telling tr = true -> outcome_of tr <> None.
Proof.
  intros H. apply existsb_exists in H. destruct H as [e [Hin He]].
  unfold outcome_of.
  repeat match goal with
         | |- context [if reports ?p tr then _ else _] =>
             destruct (reports p tr) eqn:?; [discriminate|]
         end.
  exfalso. unfold telling in He.
  repeat (apply orb_prop in He; destruct He as [He|He]);
    match goal with
    | H : reports ?p tr = false |- _ =>
        rewrite (reports_In p e tr Hin He) in H; discriminate H
    end.
Qed.

Lemma telling_app a b :
  existsb telling a = true \/ existsb telling b = true ->
  existsb telling (a ++ b) = true.
Proof.
  intros H. rewrite existsb_app. apply orb_true_iff. exact H.
Qed.

(** a save function that returns has told what it did, or returns the
    file *)
Lemma policy_tells file out ow write fs :
  (forall T s, res (write T s) = Return None ->
               existsb telling (trace (write T s)) = true) ->
  res (with_collision_policy file out ow write fs) = Return None ->
  existsb telling (trace (with_collision_policy file out ow write fs)) = true.
Proof.
  intros Hw.
  destruct (policy_cases file out ow write fs)
    as [[e [tr [Hr _]]]|[[_ [_ Hr]]|[[_ [_ Hr]]|[s [_ [_ [_ [_ Hr]]]]]]]];
    rewrite Hr; cbn [prepend res trace]; try discriminate.
  - reflexivity.
  - intros H. apply telling_app. right. now apply Hw.
  - intros H. apply telling_app. right. now apply Hw.
Qed.

Lemma write_video_tells file T s :
  res (write_video file T s) = Return None ->
  existsb telling (trace (write_video file T s)) = true.
Proof.
  destruct (write_video_cases file T s)
    as [[e Hr]|[c [dir [k [es [_ [_ [_ Hr]]]]]]]];
    rewrite Hr; cbn [prepend res trace]; [discriminate|].
  unfold after_copy.
  destruct (exiftool _ _) as [c'|stderr c'|e c']; [| |destruct e];
    cbn [res trace]; try discriminate; reflexivity.
Qed.

Lemma write_image_tells file img T s :
  res (write_image file img T s) = Return None ->
  existsb telling (trace (write_image file img T s)) = true.
Proof.
  destruct (write_image_cases file img T s)
    as [[e [s' [tr [Hr _]]]]|[content [dir [k [es [_ [_ [_ Hr]]]]]]]];
    rewrite Hr; cbn [prepend res trace]; [discriminate|].
  rewrite verify_image_run. cbv zeta.
  destruct (res (check_exif _ _)) as [[|]|e]; discriminate.
Qed.

Lemma report_tells file result s :
  (result = None -> False) ->
  existsb telling (trace (report file result s)) = true.
Proof. destruct result; [reflexivity | tauto]. Qed.

(** the end of both branches of [process_file]: a save function, then the
    success line *)
Lemma save_and_report_tells (save : M (option File)) file fs :
  (res (save fs) = Return None -> existsb telling (trace (save fs)) = true) ->
  res (bind save (report file) fs) = Return tt ->
  existsb telling (trace (bind save (report file) fs)) = true.
Proof.
  intros Hs. unfold bind.
  destruct (res (save fs)) as [[f|]|e] eqn:Hr; cbn [res trace];
    try discriminate; intros _; apply telling_app.
  - right. reflexivity.
  - left. now apply Hs.
Qed.

(** X24.  Every file of a batch gets an outcome: whatever happens in the
    loop body for a file (a skip with its line, a silent skip because the
    target exists, a write, a failure of the tool, an exception caught by
    the loop), its events tell one of the six outcomes.  The file systems
    are those of this development (regular files, directories, sockets),
    on which the loop body returns. *)
Theorem every_attempt_has_an_outcome (file : File) (args : Args) (fs : node) :
  outcome_of (trace (attempt file args fs)) <> None.
Proof.
  apply outcome_of_telling. rewrite attempt_run. cbv zeta. cbn [trace].
  change (SpinnerText (filename file) :: ?l)
    with ([SpinnerText (filename file)] ++ l).
  apply telling_app. right.
  destruct (res (process_file file args fs)) as [[]|e] eqn:Hres.
  2:{ apply telling_app. right. reflexivity. }
  rewrite app_nil_r.
  destruct (parse_run file) as [file' [tr [Hp _]]].
  destruct (str_in (extension file) VIDEO_EXT) eqn:Hv.
  - rewrite (process_video file args fs file' tr Hv Hp) in Hres |- *.
    destruct (parsed_date file') as [|d0 d].
    { cbn [trace]. apply telling_app. right. reflexivity. }
    destruct which_exiftool.
    2:{ cbn [trace]. apply telling_app. right. reflexivity. }
    cbn [prepend res trace] in Hres |- *. apply telling_app. right.
    apply save_and_report_tells; [|exact Hres].
    rewrite save_video_exif_data_policy. apply policy_tells.
    apply write_video_tells.
  - rewrite (process_image file args fs file' tr Hv Hp) in Hres |- *.
    cbv zeta in Hres |- *.
    destruct (res (check_exif file fs)) as [[|]|e]; [| |discriminate].
    { cbn [trace]. apply telling_app. right. reflexivity. }
    destruct (parsed_date file') as [|d0 d].
    { cbn [trace]. apply telling_app. right. apply telling_app. right.
      reflexivity. }
    cbn [prepend res trace] in Hres |- *. apply telling_app. right.
    destruct (Image_open_path_cases (file_path file') fs)
      as [[im Him]|[e Him]].
    2:{ rewrite (bind_Raise _ _ _ _ _ _ Him) in Hres. discriminate. }
    rewrite (bind_Return _ _ _ _ _ _ Him) in Hres |- *.
    cbn [prepend res trace app] in Hres |- *.
    destruct (new_image_exif_data_run file') as [r0 [trn [Hpn _]]].
    destruct r0 as [fe|e].
    2:{ rewrite (bind_Raise _ _ _ _ _ _ (Hpn fs)) in Hres. discriminate. }
    rewrite (bind_Return _ _ _ _ _ _ (Hpn fs)) in Hres |- *.
    cbn [prepend res trace] in Hres |- *. apply telling_app. right.
    apply save_and_report_tells; [|exact Hres].
    rewrite save_exif_data_policy. apply policy_tells.
    intros T s. apply write_image_tells.
Qed.

End Total.
